(** * The grade state machine of [course/models.py]

    A shallow embedding of [GradeChange.percentage] and of the class
    [GradeStateMachine] ([_clear_grades], [_consume_grade_change],
    [consume], [percentage], [stringify_state]), followed by the
    properties of the reduction.

    Conventions of the embedding:
    - a [DateTimeField] value is an integer ([Z], a point on the time
      line); [None] is [option];
    - a [Decimal] is the rational number it stands for ([Q], in lowest
      terms); the operations of [Decimal] round their exact result to the
      28 significant digits of the default context, half to even;
    - the order in which a [dict] yields its values is a parameter
      ([dict_order]): any order that lists every value once;
    - the [GradeChange] objects live in a heap addressed by object
      identity, because the machine writes to them ([is_superseded]) and
      keeps references to them in [attempt_id_to_gchange];
    - a Python exception is an [exn]; a method is a function from the
      world (the machine [self] and the heap) to an outcome and the world
      it leaves behind, also when it raises. *)

From Stdlib Require Import QArith Qround Qpower Qabs Lqa.
From Stdlib Require PrimFloat.
From stdpp Require Import gmap strings list fin_maps pretty.

(** ** Exceptions and outcomes *)

Inductive exn : Type :=
| AssertionError
| ValueError (msg : string)
| RuntimeError (msg : string)
| TypeError
| AttributeError (attr : string)
| DivisionByZero
| InvalidOperation.

Inductive outcome (A : Type) : Type :=
| Ok (a : A)
| Raise (e : exn).
Arguments Ok {A} a.
Arguments Raise {A} e.

#[global] Instance outcome_ret : MRet outcome := λ A a, Ok a.
#[global] Instance outcome_bind : MBind outcome := λ A B f c,
  match c with
  | Ok a => f a
  | Raise e => Raise e
  end.

(** Object identities and points in time. *)
Definition ref : Type := nat.
Definition datetime : Type := Z.

(** ** Decimal arithmetic *)

Module Decimal.

(** The precision of the default context. *)
Definition prec : Z := 28.

(** The integer next to [q], the even one of the two when [q] lies half
    way between them: [ROUND_HALF_EVEN], the rounding of the default
    context. *)
Definition round_half_even (q : Q) : Z :=
  let f := Qfloor q in
  match (q - inject_Z f ?= 1 # 2)%Q with
  | Lt => f
  | Gt => (f + 1)%Z
  | Eq => if Z.even f then f else (f + 1)%Z
  end.

(** The exponent of the leading digit of a positive number: the [k] with
    [10 ^ k <= q < 10 ^ (k + 1)], looked for downwards from a power of ten
    above [q]. *)
Fixpoint exponent_from (fuel : nat) (k : Z) (q : Q) : Z :=
  match fuel with
  | O => k
  | S fuel' =>
      if Qle_bool (10 ^ k) q then k else exponent_from fuel' (k - 1) q
  end.

Definition adjusted (q : Q) : Z :=
  let hi := (Z.log2 (Qnum q) + 1)%Z in
  let lo := (- (Z.log2 (Zpos (Qden q)) + 1))%Z in
  exponent_from (Z.to_nat (hi - lo)) hi q.

(** A number rounded to [prec] significant digits. The bounds that the
    context puts on the exponent ([Emin] and [Emax], nine digits long) are
    left out. *)
Definition round (q : Q) : Q :=
  if Qeq_bool q 0 then 0%Q
  else
    let e := (adjusted (Qabs q) - (prec - 1))%Z in
    Qred (inject_Z (round_half_even (q / 10 ^ e)) * 10 ^ e).

(** [a * b] and [a + b]: the exact result, rounded. *)
Definition mul (a b : Q) : Q := round (a * b).
Definition add (a b : Q) : Q := round (a + b).

(** [a / b]: the exact quotient, rounded; a zero divisor raises
    [InvalidOperation] for 0/0 and [DivisionByZero] otherwise. *)
Definition div (a b : Q) : outcome Q :=
  if Qeq_bool b 0 then
    if Qeq_bool a 0 then Raise InvalidOperation else Raise DivisionByZero
  else Ok (round (a / b)).

Definition ltb (a b : Q) : bool := negb (Qle_bool b a).

End Decimal.

Arguments Decimal.round : simpl never.

(** Python 2 orders [None] below every number. *)
Definition py_lt (a b : option Q) : bool :=
  match a, b with
  | None, Some _ => true
  | Some x, Some y => Decimal.ltb x y
  | _, None => false
  end.

(** [max(l)] and [min(l)] keep the first of several extremal items. *)
Definition py_max (x : option Q) (l : list (option Q)) : option Q :=
  fold_left (λ maxitem item, if py_lt maxitem item then item else maxitem) l x.

Definition py_min (x : option Q) (l : list (option Q)) : option Q :=
  fold_left (λ minitem item, if py_lt item minitem then item else minitem) l x.

(** [sum(l)]: starts from 0 and adds from the left, every sum rounded;
    adding [None] is a [TypeError]. *)
Fixpoint py_sum_from (acc : Q) (l : list (option Q)) : outcome Q :=
  match l with
  | [] => Ok acc
  | Some x :: l' => py_sum_from (Decimal.add acc x) l'
  | None :: _ => Raise TypeError
  end.

Definition py_sum (l : list (option Q)) : outcome Q := py_sum_from 0 l.

(** ** The models *)

Module grade_aggregation_strategy.
Definition max_grade : string := "max_grade".
Definition avg_grade : string := "avg_grade".
Definition min_grade : string := "min_grade".
Definition use_earliest : string := "use_earliest".
Definition use_latest : string := "use_latest".
End grade_aggregation_strategy.

Module GradingOpportunity.
Record t : Type := mk {
  pk : Z;
  aggregation_strategy : string;
  due_time : option datetime
}.
End GradingOpportunity.

Module grade_state_change_types.
Definition grading_started : string := "grading_started".
Definition graded : string := "graded".
Definition retrieved : string := "retrieved".
Definition unavailable : string := "unavailable".
Definition extension : string := "extension".
Definition report_sent : string := "report_sent".
Definition do_over : string := "do_over".
Definition exempt : string := "exempt".
End grade_state_change_types.

Module GradeChange.

(** The fields of the model, and [is_superseded], the attribute that
    [GradeStateMachine.consume] sets on the object ([None]: the object
    has no such attribute yet). *)
Record t : Type := mk {
  opportunity : GradingOpportunity.t;
  participation : Z;
  state : string;
  attempt_id : option string;
  points : option Q;
  max_points : option Q;
  comment : option string;
  due_time : option datetime;
  creator : option Z;
  grade_time : datetime;
  flow_session : option Z;
  is_superseded : option bool
}.

Definition set_is_superseded (b : option bool) (self : t) : t :=
  mk (opportunity self) (participation self) (state self) (attempt_id self)
     (points self) (max_points self) (comment self) (due_time self)
     (creator self) (grade_time self) (flow_session self) b.

(** [100*self.points/self.max_points], the product and the quotient each
    rounded, guarded by [max_points]: [100*None] is a [TypeError]. *)
Definition percentage (self : t) : outcome (option Q) :=
  match max_points self with
  | Some mp =>
      match points self with
      | Some p => q ← Decimal.div (Decimal.mul 100 p) mp; Ok (Some q)
      | None => Raise TypeError
      end
  | None => Ok None
  end.

End GradeChange.

Module GradeStateMachine.

(** The attributes of a machine. [last_grade_time] is the attribute that
    [_clear_grades] assigns (it is not [last_graded_time]);
    [attempt_id_to_gchange] is [None] once [consume] has deleted it. *)
Record t : Type := mk {
  opportunity : option GradingOpportunity.t;
  state : option string;
  due_time : option datetime;
  last_graded_time : option datetime;
  last_report_time : option datetime;
  _last_grade_change_time : option datetime;
  last_grade_time : option datetime;
  valid_percentages : list (option Q);
  attempt_id_to_gchange : option (gmap string ref)
}.

Definition set_opportunity (v : option GradingOpportunity.t) (m : t) : t :=
  mk v (state m) (due_time m) (last_graded_time m) (last_report_time m)
     (_last_grade_change_time m) (last_grade_time m) (valid_percentages m)
     (attempt_id_to_gchange m).
Definition set_state (v : option string) (m : t) : t :=
  mk (opportunity m) v (due_time m) (last_graded_time m) (last_report_time m)
     (_last_grade_change_time m) (last_grade_time m) (valid_percentages m)
     (attempt_id_to_gchange m).
Definition set_due_time (v : option datetime) (m : t) : t :=
  mk (opportunity m) (state m) v (last_graded_time m) (last_report_time m)
     (_last_grade_change_time m) (last_grade_time m) (valid_percentages m)
     (attempt_id_to_gchange m).
Definition set_last_graded_time (v : option datetime) (m : t) : t :=
  mk (opportunity m) (state m) (due_time m) v (last_report_time m)
     (_last_grade_change_time m) (last_grade_time m) (valid_percentages m)
     (attempt_id_to_gchange m).
Definition set_last_report_time (v : option datetime) (m : t) : t :=
  mk (opportunity m) (state m) (due_time m) (last_graded_time m) v
     (_last_grade_change_time m) (last_grade_time m) (valid_percentages m)
     (attempt_id_to_gchange m).
Definition set__last_grade_change_time (v : option datetime) (m : t) : t :=
  mk (opportunity m) (state m) (due_time m) (last_graded_time m)
     (last_report_time m) v (last_grade_time m) (valid_percentages m)
     (attempt_id_to_gchange m).
Definition set_last_grade_time (v : option datetime) (m : t) : t :=
  mk (opportunity m) (state m) (due_time m) (last_graded_time m)
     (last_report_time m) (_last_grade_change_time m) v (valid_percentages m)
     (attempt_id_to_gchange m).
Definition set_valid_percentages (v : list (option Q)) (m : t) : t :=
  mk (opportunity m) (state m) (due_time m) (last_graded_time m)
     (last_report_time m) (_last_grade_change_time m) (last_grade_time m) v
     (attempt_id_to_gchange m).
Definition set_attempt_id_to_gchange (v : option (gmap string ref)) (m : t) : t :=
  mk (opportunity m) (state m) (due_time m) (last_graded_time m)
     (last_report_time m) (_last_grade_change_time m) (last_grade_time m)
     (valid_percentages m) v.

(** *** The world and its monad *)

Record world : Type := World {
  self : t;
  heap : ref → GradeChange.t
}.

Definition M (A : Type) : Type := world → outcome A * world.

#[global] Instance M_ret : MRet M := λ A a w, (Ok a, w).
#[global] Instance M_bind : MBind M := λ A B f c w,
  match c w with
  | (Ok a, w') => f a w'
  | (Raise e, w') => (Raise e, w')
  end.

Definition raise {A : Type} (e : exn) : M A := λ w, (Raise e, w).

(** Lifting of a pure computation that may raise. *)
Definition lift {A : Type} (c : outcome A) : M A := λ w, (c, w).

(** [self.x] and [self.x = v]. *)
Definition getattr {A : Type} (f : t → A) : M A := λ w, (Ok (f (self w)), w).
Definition setattr {A : Type} (set : A → t → t) (v : A) : M unit :=
  λ w, (Ok tt, World (set v (self w)) (heap w)).

(** The object behind a reference, and [gchange.is_superseded = b]. *)
Definition deref (r : ref) : M GradeChange.t := λ w, (Ok (heap w r), w).
Definition heap_write (r : ref) (b : bool) (h : ref → GradeChange.t)
  : ref → GradeChange.t :=
  λ r', if decide (r' = r) then GradeChange.set_is_superseded (Some b) (h r')
        else h r'.
Definition write_is_superseded (r : ref) (b : bool) : M unit :=
  λ w, (Ok tt, World (self w) (heap_write r b (heap w))).

(** [self.attempt_id_to_gchange], an [AttributeError] after [del]. *)
Definition the_attempt_id_to_gchange : M (gmap string ref) :=
  d ← getattr attempt_id_to_gchange;
  match d with
  | Some d => mret d
  | None => raise (AttributeError "attempt_id_to_gchange")
  end.

Definition assert (b : bool) : M unit :=
  if b then mret tt else raise AssertionError.

(** [for x in l: body(x)]. *)
Fixpoint for_each {A : Type} (l : list A) (body : A → M unit) : M unit :=
  match l with
  | [] => mret tt
  | x :: l' => body x;; for_each l' body
  end.

(** *** The methods *)

Definition __init__ : t :=
  mk None None None None None None None [] (Some ∅).

Definition _clear_grades : M unit :=
  setattr set_state None;;
  setattr set_last_grade_time None;;
  setattr set_valid_percentages [];;
  setattr set_attempt_id_to_gchange (Some ∅).

Definition _consume_grade_change (gchange : ref) (set_is_superseded : bool)
  : M unit :=
  g ← deref gchange;
  opp ← getattr opportunity;
  match opp with
  | None =>
      setattr set_opportunity (Some (GradeChange.opportunity g));;
      setattr set_due_time (GradingOpportunity.due_time (GradeChange.opportunity g))
  | Some o =>
      assert (bool_decide (GradingOpportunity.pk o
                           = GradingOpportunity.pk (GradeChange.opportunity g)))
  end;;
  (* check that times are increasing *)
  last ← getattr _last_grade_change_time;
  match last with
  | Some t =>
      assert (bool_decide (GradeChange.grade_time g > t)%Z);;
      setattr set__last_grade_change_time (Some (GradeChange.grade_time g))
  | None => mret tt
  end;;
  if decide (GradeChange.state g = grade_state_change_types.graded) then
    st ← getattr state;
    (if decide (st = Some grade_state_change_types.unavailable) then
       raise (ValueError
         "cannot accept grade once opportunity has been marked 'unavailable'")
     else mret tt);;
    (if decide (st = Some grade_state_change_types.exempt) then
       raise (ValueError
         "cannot accept grade once opportunity has been marked 'exempt'")
     else mret tt);;
    due ← getattr due_time;
    match due with
    | Some d =>
        if bool_decide (GradeChange.grade_time g > d)%Z then
          raise (ValueError "cannot accept grade after due date")
        else mret tt
    | None => mret tt
    end;;
    setattr set_state (Some (GradeChange.state g));;
    match GradeChange.attempt_id g with
    | Some aid =>
        (if set_is_superseded then
           d ← the_attempt_id_to_gchange;
           match d !! aid with
           | Some earlier => write_is_superseded earlier true
           | None => mret tt
           end
         else mret tt);;
        d ← the_attempt_id_to_gchange;
        setattr set_attempt_id_to_gchange (Some (<[aid := gchange]> d))
    | None =>
        p ← lift (GradeChange.percentage g);
        vp ← getattr valid_percentages;
        setattr set_valid_percentages (vp ++ [p])
    end;;
    setattr set_last_graded_time (Some (GradeChange.grade_time g))
  else if decide (GradeChange.state g = grade_state_change_types.unavailable) then
    _clear_grades;;
    setattr set_state (Some (GradeChange.state g))
  else if decide (GradeChange.state g = grade_state_change_types.do_over) then
    _clear_grades
  else if decide (GradeChange.state g = grade_state_change_types.exempt) then
    _clear_grades;;
    setattr set_state (Some (GradeChange.state g))
  else if decide (GradeChange.state g = grade_state_change_types.report_sent) then
    setattr set_last_report_time (Some (GradeChange.grade_time g))
  else if decide (GradeChange.state g = grade_state_change_types.extension) then
    setattr set_due_time (GradeChange.due_time g)
  else if decide (GradeChange.state g ∈ [grade_state_change_types.grading_started;
                                         grade_state_change_types.retrieved]) then
    mret tt
  else
    raise (RuntimeError
      ("invalid grade change state '" +:+ GradeChange.state g +:+ "'")).

(** The loop of [consume]. *)
Definition consume_loop (iterable : list ref) (set_is_superseded : bool)
  : M unit :=
  for_each iterable (λ gchange,
    write_is_superseded gchange false;;
    _consume_grade_change gchange set_is_superseded).

(** [d.values()]: a Python 2 [dict] yields its values in an order of its
    own, which the language leaves open. An order is any function that
    lists the values of every map, each entry once; the methods that
    iterate over a [dict] take the order as an argument. Maps with the
    same entries come in the same order: the attempt maps of two
    reductions that a property compares are filled by the same
    insertions. *)
Record dict_order : Type := DictOrder {
  dict_values :> gmap string ref → list ref;
  dict_values_perm : ∀ d, dict_values d ≡ₚ (map_to_list d).*2
}.

(** [self.valid_percentages.extend(...)] over the values of the attempt
    map, one append per value, and [del self.attempt_id_to_gchange]. *)
Definition consume_flush (order : dict_order) : M unit :=
  d ← the_attempt_id_to_gchange;
  for_each (order d) (λ gchange,
    g ← deref gchange;
    p ← lift (GradeChange.percentage g);
    vp ← getattr valid_percentages;
    setattr set_valid_percentages (vp ++ [p]));;
  setattr set_attempt_id_to_gchange None.

Definition consume (order : dict_order) (iterable : list ref)
    (set_is_superseded : bool) : M unit :=
  consume_loop iterable set_is_superseded;;
  consume_flush order.

Definition percentage (self : t) : outcome (option Q) :=
  match opportunity self, valid_percentages self with
  | None, _ | _, [] => Ok None
  | Some opp, x :: rest =>
      let strategy := GradingOpportunity.aggregation_strategy opp in
      if decide (strategy = grade_aggregation_strategy.max_grade) then
        Ok (py_max x rest)
      else if decide (strategy = grade_aggregation_strategy.min_grade) then
        Ok (py_min x rest)
      else if decide (strategy = grade_aggregation_strategy.avg_grade) then
        s ← py_sum (x :: rest);
        q ← Decimal.div s (inject_Z (Z.of_nat (length (x :: rest))));
        Ok (Some q)
      else if decide (strategy = grade_aggregation_strategy.use_earliest) then
        Ok x
      else if decide (strategy = grade_aggregation_strategy.use_latest) then
        Ok (List.last rest x)
      else
        Raise (ValueError
          ("invalid grade aggregation strategy '" +:+ strategy +:+ "'"))
  end.

Section Stringify.

(** ["%.1f" % x] goes through a binary float; the text it produces for a
    number is a parameter of the development. *)
Variable format_1f : Q → string.

Definition stringify_state (self : t) : outcome string :=
  if decide (state self = None) then Ok "-"
  else if decide (state self = Some grade_state_change_types.exempt) then
    Ok "(exempt)"
  else if decide (state self = Some grade_state_change_types.graded) then
    p ← percentage self;
    match p with
    | None => Raise TypeError
    | Some q =>
        let result := format_1f q +:+ "%" in
        if bool_decide (1 < length (valid_percentages self)) then
          Ok (result +:+ " (/" +:+ pretty (length (valid_percentages self)) +:+ ")")
        else Ok result
    end
  else Ok "(other state)".

End Stringify.

End GradeStateMachine.


(** * The other functions of [course/models.py] *)

(** ** [FlowSession.points_percentage] *)

Module FlowSession.

(** The fields of the model; a foreign key is the key of the row. *)
Record t : Type := mk {
  course : Z;
  participation : option Z;
  active_git_commit_sha : string;
  flow_id : string;
  start_time : datetime;
  completion_time : option datetime;
  page_count : option Z;
  in_progress : bool;
  for_credit : bool;
  access_rules_id : option string;
  points : option Q;
  max_points : option Q;
  result_comment : option string
}.

(** [if self.max_points:] is false for [None] and for a [Decimal] that is
    zero; [100*None] is a [TypeError]. The product and the quotient are
    rounded as in [GradeChange.percentage]. *)
Definition points_percentage (self : t) : outcome (option Q) :=
  match max_points self with
  | Some mp =>
      if Qeq_bool mp 0 then Ok None
      else
        match points self with
        | Some p => q ← Decimal.div (Decimal.mul 100 p) mp; Ok (Some q)
        | None => Raise TypeError
        end
  | None => Ok None
  end.

End FlowSession.

(** ** [validate_stipulations] *)

(** The values that a [JSONField] holds, as Python 2 objects. The keys of
    a dictionary are strings. *)
#[warnings="-register-all"] Inductive pyvalue : Type :=
| PyNone
| PyBool (b : bool)
| PyInt (n : Z)
| PyLong (n : Z)
| PyFloat (x : PrimFloat.float)
| PyStr (s : string)
| PyList (l : list pyvalue)
| PyDict (d : gmap string pyvalue).

(** The integer behind an instance of [int]: [bool] is a subclass of
    [int], [long] is not. *)
Definition as_int (v : pyvalue) : option Z :=
  match v with
  | PyInt n => Some n
  | PyBool b => Some (if b then 1 else 0)%Z
  | _ => None
  end.

(** [isinstance(v, int)] and [isinstance(v, (int, float))]. *)
Definition isinstance_int (v : pyvalue) : bool :=
  bool_decide (is_Some (as_int v)).

Definition isinstance_int_float (v : pyvalue) : bool :=
  match v with
  | PyFloat _ => true
  | _ => isinstance_int v
  end.

(** [v < 0] for an instance of [int]. *)
Definition negative (v : pyvalue) : bool :=
  match as_int v with
  | Some n => bool_decide (n < 0)%Z
  | None => false
  end.

(** [sep.join(l)]. *)
Fixpoint join (sep : string) (l : list string) : string :=
  match l with
  | [] => EmptyString
  | [s] => s
  | s :: l' => s +:+ sep +:+ join sep l'
  end.

(** What a validator does: it returns, or raises [ValidationError]. *)
Inductive validation : Type :=
| Valid
| ValidationError (msg : string).

Definition allowed_keys : gset string :=
  {[ "credit_percent"; "allowed_session_count" ]}.

Section Stipulations.

(** The order in which Python iterates over a set of strings is a
    parameter of the development. *)
Variable set_order : gset string → list string.

Definition validate_stipulations (stip : pyvalue) : validation :=
  match stip with
  | PyNone => Valid
  | PyDict d =>
      if negb (bool_decide (dom d ⊆ allowed_keys)) then
        ValidationError ("unrecognized keys in stipulations: "
                         +:+ join ", " (set_order (dom d ∖ allowed_keys)))
      else if match d !! "credit_percent" with
              | Some v => negb (isinstance_int_float v)
              | None => false
              end then
        ValidationError "credit_percent must be a float"
      else if match d !! "allowed_session_count" with
              | Some v => negb (isinstance_int v) || negative v
              | None => false
              end then
        ValidationError "allowed_session_count must be a non-negative integer"
      else Valid
  | _ => ValidationError "stipulations must be a dictionary"
  end.

End Stipulations.

(** ** [get_flow_grading_opportunity] *)

(** [s.replace(old, new)] for two characters. *)
Fixpoint replace_char (old new : Ascii.ascii) (s : string) : string :=
  match s with
  | EmptyString => EmptyString
  | String c s' =>
      String (if Ascii.eqb c old then new else c) (replace_char old new s')
  end.

(** The characters "-" and "_". *)
Definition hyphen : Ascii.ascii := Ascii.ascii_of_nat 45.
Definition underscore : Ascii.ascii := Ascii.ascii_of_nat 95.

Module flow_desc.
(** The attributes of a flow description that are read. *)
Record t : Type := mk {
  title : string;
  grade_aggregation_strategy : string
}.
End flow_desc.

Module GradingOpportunityRow.
(** A row of the table of [GradingOpportunity]: the columns that the
    grade state machine reads, and the others. *)
Record t : Type := mk {
  columns : GradingOpportunity.t;
  course : Z;
  identifier : string;
  name : string;
  flow_id : option string;
  creation_time : datetime;
  shown_in_grade_book : bool
}.
End GradingOpportunityRow.

Definition row : Type := GradingOpportunityRow.t.

(** The exceptions of the function: Python's, and the one of the
    database when [unique_together] is violated. *)
Inductive db_exn : Type :=
| Python (e : exn)
| IntegrityError.

Inductive db_outcome (A : Type) : Type :=
| Returns (a : A)
| Raises (e : db_exn).
Arguments Returns {A} a.
Arguments Raises {A} e.

(** [.filter(course=course).filter(flow_id=flow_id)]. *)
Definition of_flow (c : Z) (f : string) (r : row) : Prop :=
  GradingOpportunityRow.course r = c ∧ GradingOpportunityRow.flow_id r = Some f.

#[global] Instance of_flow_dec c f r : Decision (of_flow c f r).
Proof. unfold of_flow. apply _. Defined.

(** The rows that [unique_together] forbids beside a row of course [c]
    and identifier [i]. *)
Definition clashes (c : Z) (i : string) (r : row) : Prop :=
  GradingOpportunityRow.course r = c ∧ GradingOpportunityRow.identifier r = i.

#[global] Instance clashes_dec c i r : Decision (clashes c i r).
Proof. unfold clashes. apply _. Defined.

(** The function on a table of rows. The time [now] of the default of
    [creation_time] and the primary key [new_pk] that the database gives
    the new row are arguments. [save] appends the row, or raises
    [IntegrityError] and leaves the table as it is. *)
Definition get_flow_grading_opportunity (now : datetime) (new_pk : Z)
    (course : Z) (flow_id : string) (flow_desc : flow_desc.t)
    (table : list row) : db_outcome row * list row :=
  let gopps := filter (of_flow course flow_id) table in
  if decide (length gopps = 0) then
    let gopp :=
      GradingOpportunityRow.mk
        (GradingOpportunity.mk new_pk
           (flow_desc.grade_aggregation_strategy flow_desc) None)
        course
        ("flow_" +:+ replace_char hyphen underscore flow_id)
        ("Flow: " +:+ flow_desc.title flow_desc)
        (Some flow_id) now true in
    if decide (Exists (clashes course (GradingOpportunityRow.identifier gopp))
                 table) then
      (Raises IntegrityError, table)
    else (Returns gopp, table ++ [gopp])
  else
    match gopps with
    | [gopp] => (Returns gopp, table)
    | _ => (Raises (Python (ValueError "too many values to unpack")), table)
    end.

(** ** [FlowAccessException.save] *)

Module FlowAccessRule.
(** The attributes of an access rule that [save] reads. *)
Record t : Type := mk {
  permissions : list string;
  allowed_session_count : pyvalue;
  credit_percent : pyvalue
}.
End FlowAccessRule.

(** [v is None]. *)
Definition is_None (v : pyvalue) : bool :=
  match v with
  | PyNone => true
  | _ => false
  end.

Module FlowAccessException.

(** The fields of the model, and [entries], the permissions of the rows
    of [FlowAccessExceptionEntry] that point to the exception. *)
Record t : Type := mk {
  participation : Z;
  flow_id : string;
  expiration : option datetime;
  stipulations : pyvalue;
  creator : option Z;
  creation_time : datetime;
  comment : option string;
  entries : list string
}.

Definition set_stipulations (v : pyvalue) (self : t) : t :=
  mk (participation self) (flow_id self) (expiration self) v (creator self)
     (creation_time self) (comment self) (entries self).
Definition set_entries (v : list string) (self : t) : t :=
  mk (participation self) (flow_id self) (expiration self) (stipulations self)
     (creator self) (creation_time self) (comment self) v.

(** The dictionary that [save] makes of a rule. *)
Definition stipulations_of (rule : FlowAccessRule.t) : gmap string pyvalue :=
  let d := ∅ in
  let d :=
    if is_None (FlowAccessRule.allowed_session_count rule) then d
    else <["allowed_session_count" := FlowAccessRule.allowed_session_count rule]> d in
  if is_None (FlowAccessRule.credit_percent rule) then d
  else <["credit_percent" := FlowAccessRule.credit_percent rule]> d.

(** [save]. What [_get_current_access_rule] returns depends on the course
    repository and on the time: its results at the first and at the
    second call are the arguments [rule1] and [rule2]. The row itself is
    written by [super().save], which changes no field. *)
Definition save (rule1 rule2 : option FlowAccessRule.t) (self : t) : t :=
  let self :=
    if is_None (stipulations self) then
      match rule1 with
      | Some rule => set_stipulations (PyDict (stipulations_of rule)) self
      | None => self
      end
    else self in
  if decide (length (entries self) = 0) then
    match rule2 with
    | Some rule => set_entries (entries self ++ FlowAccessRule.permissions rule) self
    | None => self
    end
  else self.

End FlowAccessException.

(** * The vocabulary of the properties *)

Import GradeStateMachine.

(** ** Rounding *)

(** Half a unit of the last of 28 digits, relative to the first: the
    bound on the relative error of one rounding. *)
Definition half_ulp : Q := (1 # 2) * 10 ^ (-27).

(** The bound on the relative error of [n] roundings in a row. *)
Definition rounding_error (n : nat) : Q := (1 + half_ulp) ^ Z.of_nat n - 1.

(** ** The two checks at the head of [_consume_grade_change] *)

(** The opportunity of the event is the machine's, and the event is later
    than the recorded time of the last grade change. *)
Definition checks_pass (m : t) (g : GradeChange.t) : Prop :=
  match opportunity m with
  | Some o =>
      GradingOpportunity.pk o = GradingOpportunity.pk (GradeChange.opportunity g)
  | None => True
  end ∧
  match _last_grade_change_time m with
  | Some t => (GradeChange.grade_time g > t)%Z
  | None => True
  end.

(** The machine once the checks have passed. *)
Definition after_checks (m : t) (g : GradeChange.t) : t :=
  let m1 :=
    match opportunity m with
    | None =>
        set_due_time (GradingOpportunity.due_time (GradeChange.opportunity g))
          (set_opportunity (Some (GradeChange.opportunity g)) m)
    | Some _ => m
    end in
  match _last_grade_change_time m with
  | Some _ => set__last_grade_change_time (Some (GradeChange.grade_time g)) m1
  | None => m1
  end.

(** The rest of [_consume_grade_change] after the two checks: the branch on
    [gchange.state], for the event [g] read at [gchange]. *)
Definition dispatch (gchange : ref) (g : GradeChange.t)
    (set_is_superseded : bool) : M unit :=
  if decide (GradeChange.state g = grade_state_change_types.graded) then
    st ← getattr state;
    (if decide (st = Some grade_state_change_types.unavailable) then
       raise (ValueError
         "cannot accept grade once opportunity has been marked 'unavailable'")
     else mret tt);;
    (if decide (st = Some grade_state_change_types.exempt) then
       raise (ValueError
         "cannot accept grade once opportunity has been marked 'exempt'")
     else mret tt);;
    due ← getattr due_time;
    match due with
    | Some d =>
        if bool_decide (GradeChange.grade_time g > d)%Z then
          raise (ValueError "cannot accept grade after due date")
        else mret tt
    | None => mret tt
    end;;
    setattr set_state (Some (GradeChange.state g));;
    match GradeChange.attempt_id g with
    | Some aid =>
        (if set_is_superseded then
           d ← the_attempt_id_to_gchange;
           match d !! aid with
           | Some earlier => write_is_superseded earlier true
           | None => mret tt
           end
         else mret tt);;
        d ← the_attempt_id_to_gchange;
        setattr set_attempt_id_to_gchange (Some (<[aid := gchange]> d))
    | None =>
        p ← lift (GradeChange.percentage g);
        vp ← getattr valid_percentages;
        setattr set_valid_percentages (vp ++ [p])
    end;;
    setattr set_last_graded_time (Some (GradeChange.grade_time g))
  else if decide (GradeChange.state g = grade_state_change_types.unavailable) then
    _clear_grades;;
    setattr set_state (Some (GradeChange.state g))
  else if decide (GradeChange.state g = grade_state_change_types.do_over) then
    _clear_grades
  else if decide (GradeChange.state g = grade_state_change_types.exempt) then
    _clear_grades;;
    setattr set_state (Some (GradeChange.state g))
  else if decide (GradeChange.state g = grade_state_change_types.report_sent) then
    setattr set_last_report_time (Some (GradeChange.grade_time g))
  else if decide (GradeChange.state g = grade_state_change_types.extension) then
    setattr set_due_time (GradeChange.due_time g)
  else if decide (GradeChange.state g ∈ [grade_state_change_types.grading_started;
                                         grade_state_change_types.retrieved]) then
    mret tt
  else
    raise (RuntimeError
      ("invalid grade change state '" +:+ GradeChange.state g +:+ "'")).

Arguments dispatch : simpl never.

(** The head of [_consume_grade_change]: the check of the opportunity and
    the check of the times. With [dispatch] they make up its body, see
    [step_unfold]. *)
Definition check_opportunity (g : GradeChange.t) : M unit :=
  opp ← getattr opportunity;
  match opp with
  | None =>
      setattr set_opportunity (Some (GradeChange.opportunity g));;
      setattr set_due_time (GradingOpportunity.due_time (GradeChange.opportunity g))
  | Some o =>
      assert (bool_decide (GradingOpportunity.pk o
                           = GradingOpportunity.pk (GradeChange.opportunity g)))
  end.

Definition check_times (g : GradeChange.t) : M unit :=
  last ← getattr _last_grade_change_time;
  match last with
  | Some t =>
      assert (bool_decide (GradeChange.grade_time g > t)%Z);;
      setattr set__last_grade_change_time (Some (GradeChange.grade_time g))
  | None => mret tt
  end.

(** ** The branch on the event's state, case by case *)

(** The machine is neither [unavailable] nor [exempt]. *)
Definition accepts_grades (m : t) : Prop :=
  state m ≠ Some grade_state_change_types.unavailable ∧
  state m ≠ Some grade_state_change_types.exempt.

(** The grade time of the event does not exceed the due time, if any. *)
Definition before_due (m : t) (g : GradeChange.t) : Prop :=
  match due_time m with
  | Some d => ¬ (GradeChange.grade_time g > d)%Z
  | None => True
  end.

(** The machine after [_clear_grades]. *)
Definition cleared (m : t) : t :=
  set_attempt_id_to_gchange (Some ∅)
    (set_valid_percentages [] (set_last_grade_time None (set_state None m))).

(** The machine after an accepted grade, up to the record of the
    contribution. *)
Definition graded_at (g : GradeChange.t) (m : t) : t :=
  set_last_graded_time (Some (GradeChange.grade_time g)) m.

(** The heap after the supersession mark of a grouped grade. *)
Definition supersede (flag : bool) (d : gmap string ref) (aid : string)
    (h : ref → GradeChange.t) : ref → GradeChange.t :=
  if flag then
    match d !! aid with
    | Some earlier => heap_write earlier true h
    | None => h
    end
  else h.

(** The runs of the branch that do not raise. *)
Inductive dispatch_ok (r : ref) (g : GradeChange.t) (flag : bool) (m : t)
    (h : ref → GradeChange.t) : world → Prop :=
| ok_graded_grouped (aid : string) (d : gmap string ref) :
    GradeChange.state g = grade_state_change_types.graded →
    accepts_grades m → before_due m g →
    GradeChange.attempt_id g = Some aid →
    attempt_id_to_gchange m = Some d →
    dispatch_ok r g flag m h
      (World (graded_at g (set_attempt_id_to_gchange (Some (<[aid := r]> d))
                (set_state (Some grade_state_change_types.graded) m)))
             (supersede flag d aid h))
| ok_graded_ungrouped (p : option Q) :
    GradeChange.state g = grade_state_change_types.graded →
    accepts_grades m → before_due m g →
    GradeChange.attempt_id g = None →
    GradeChange.percentage g = Ok p →
    dispatch_ok r g flag m h
      (World (graded_at g (set_valid_percentages (valid_percentages m ++ [p])
                (set_state (Some grade_state_change_types.graded) m)))
             h)
| ok_unavailable :
    GradeChange.state g = grade_state_change_types.unavailable →
    dispatch_ok r g flag m h
      (World (set_state (Some grade_state_change_types.unavailable) (cleared m)) h)
| ok_do_over :
    GradeChange.state g = grade_state_change_types.do_over →
    dispatch_ok r g flag m h (World (cleared m) h)
| ok_exempt :
    GradeChange.state g = grade_state_change_types.exempt →
    dispatch_ok r g flag m h
      (World (set_state (Some grade_state_change_types.exempt) (cleared m)) h)
| ok_report_sent :
    GradeChange.state g = grade_state_change_types.report_sent →
    dispatch_ok r g flag m h
      (World (set_last_report_time (Some (GradeChange.grade_time g)) m) h)
| ok_extension :
    GradeChange.state g = grade_state_change_types.extension →
    dispatch_ok r g flag m h (World (set_due_time (GradeChange.due_time g) m) h)
| ok_informational :
    GradeChange.state g = grade_state_change_types.grading_started ∨
    GradeChange.state g = grade_state_change_types.retrieved →
    dispatch_ok r g flag m h (World m h).

(** ** Events untouched but for [is_superseded] *)

(** [g'] is [g] but for [is_superseded]. *)
Definition fields_unchanged (g g' : GradeChange.t) : Prop :=
  GradeChange.opportunity g' = GradeChange.opportunity g ∧
  GradeChange.participation g' = GradeChange.participation g ∧
  GradeChange.state g' = GradeChange.state g ∧
  GradeChange.attempt_id g' = GradeChange.attempt_id g ∧
  GradeChange.points g' = GradeChange.points g ∧
  GradeChange.max_points g' = GradeChange.max_points g ∧
  GradeChange.comment g' = GradeChange.comment g ∧
  GradeChange.due_time g' = GradeChange.due_time g ∧
  GradeChange.creator g' = GradeChange.creator g ∧
  GradeChange.grade_time g' = GradeChange.grade_time g ∧
  GradeChange.flow_session g' = GradeChange.flow_session g.

(** One turn of the loop of [consume]. *)
Definition turn (flag : bool) (gchange : ref) : M unit :=
  write_is_superseded gchange false;;
  _consume_grade_change gchange flag.

(** The body of the loop behind [extend]. *)
Definition flush_body (gchange : ref) : M unit :=
  g ← deref gchange;
  p ← lift (GradeChange.percentage g);
  vp ← getattr valid_percentages;
  setattr set_valid_percentages (vp ++ [p]).

(** Objects outside the sequence are not written to, provided the attempt
    map only holds objects of the sequence. *)
Definition confined (es : list ref) (h : ref → GradeChange.t) (w : world) : Prop :=
  (∀ r, r ∉ es → heap w r = h r) ∧
  (∀ d aid e, attempt_id_to_gchange (self w) = Some d → d !! aid = Some e → e ∈ es).

(** Every object the loop has visited carries the attribute. *)
Definition flagged (flag : bool) (pre : list ref) (w : world) : Prop :=
  ∀ r, r ∈ pre →
    ∃ b, GradeChange.is_superseded (heap w r) = Some b ∧ (flag = false → b = false).

(** ** Concrete inputs *)

(** An event of participation 1 with no comment, creator or flow session
    and no [is_superseded] attribute yet. *)
Definition event (opp : GradingOpportunity.t) (st : string)
    (aid : option string) (pts max_pts : option Q) (due : option Z)
    (time : Z) : GradeChange.t :=
  GradeChange.mk opp 1 st aid pts max_pts None due None time None None.

(** A heap with the objects of [l] at the addresses 0, 1, ... and [dflt]
    everywhere else. *)
Definition heap_of (l : list GradeChange.t) (dflt : GradeChange.t)
  : ref → GradeChange.t :=
  λ r, nth r l dflt.

(** An order of the values of a [dict], for the instances: that of
    [map_to_list]. The attempt maps that the instances flush hold at most
    one entry, so that every order yields what this one yields. *)
Definition gmap_order : dict_order :=
  DictOrder (λ d, (map_to_list d).*2) (λ d, reflexivity _).

(** The opportunity with primary key 1. *)
Definition opportunity_1 (strategy : string) (due : option Z)
  : GradingOpportunity.t :=
  GradingOpportunity.mk 1 strategy due.

(** A [grading_started] event. *)
Definition informational (time : Z) : GradeChange.t :=
  event (opportunity_1 "max_grade" None) "grading_started" None None None None time.

(** Two events whose grade times are [t1] and then [t2]. *)
Definition two_events_at (t1 t2 : Z) : ref → GradeChange.t :=
  heap_of [informational t1; informational t2] (informational 0).

(** Two grades of attempt "A", 40 and then 90 out of 100, at times 1 and 2. *)
Definition regraded_attempt : ref → GradeChange.t :=
  heap_of
    [event (opportunity_1 "max_grade" None) "graded" (Some "A")
       (Some 40%Q) (Some 100%Q) None 1;
     event (opportunity_1 "max_grade" None) "graded" (Some "A")
       (Some 90%Q) (Some 100%Q) None 2]
    (informational 0).

(** Three informational events at times 1, 2 and 3. *)
Definition three_events : ref → GradeChange.t :=
  heap_of [informational 1; informational 2; informational 3] (informational 0).

(** ** Resets (C9) *)

(** A machine that is [graded], with one percentage and one open attempt,
    and the three resets at addresses 0, 1 and 2. *)
Definition graded_machine : t :=
  mk (Some (opportunity_1 "max_grade" None))
     (Some grade_state_change_types.graded) None (Some 5%Z) None None None
     [Some 70%Q] (Some {[ "A" := 7 ]}).

Definition reset_events_heap : ref → GradeChange.t :=
  heap_of
    [event (opportunity_1 "max_grade" None) "unavailable" None None None None 6;
     event (opportunity_1 "max_grade" None) "exempt" None None None None 6;
     event (opportunity_1 "max_grade" None) "do_over" None None None None 6]
    (informational 0).

(** ** The due date (C8) *)

(** The due time against which an event is judged: the machine's, or the
    opportunity's if the event is the first that the machine consumes. *)
Definition due_time_in_force (m : t) (g : GradeChange.t) : option datetime :=
  match opportunity m with
  | None => GradingOpportunity.due_time (GradeChange.opportunity g)
  | Some _ => due_time m
  end.

(** The outcome of a grade that is in time: that of the record of its
    contribution, in the attempt map for a grade of an attempt, as a
    percentage for a grade without attempt id. *)
Definition outcome_in_time (m : t) (g : GradeChange.t) : outcome unit :=
  match GradeChange.attempt_id g with
  | Some _ =>
      match attempt_id_to_gchange m with
      | Some _ => Ok tt
      | None => Raise (AttributeError "attempt_id_to_gchange")
      end
  | None =>
      match GradeChange.percentage g with
      | Ok _ => Ok tt
      | Raise e => Raise e
      end
  end.

(** An opportunity due at time 100, with a grade one second late at
    address 0, a grade one second early at address 1, an extension to
    time 200 at address 2, and a grade one second early that has a
    maximum and no points at address 3. *)
Definition due_100 : GradingOpportunity.t := opportunity_1 "max_grade" (Some 100%Z).

Definition due_date_heap : ref → GradeChange.t :=
  heap_of
    [event due_100 "graded" None (Some 8%Q) (Some 10%Q) None 101;
     event due_100 "graded" None (Some 8%Q) (Some 10%Q) None 99;
     event due_100 "extension" None None None (Some 200%Z) 50;
     event due_100 "graded" None None (Some 10%Q) None 99]
    (informational 0).

(** ** The percentage of an event (C2) *)

(** A grade with a maximum of 10 and no points, on its own. *)
Definition grade_with_maximum_only : ref → GradeChange.t :=
  heap_of [event (opportunity_1 "max_grade" None) "graded" None None
             (Some 10%Q) None 1]
          (informational 0).

(** A grade of 1 out of 3. *)
Definition one_out_of_three : GradeChange.t :=
  event (opportunity_1 "max_grade" None) "graded" None (Some 1%Q) (Some 3%Q)
    None 1.

(** A grade of 8 out of 10 without attempt id at address 0, and the
    machine that carries the percentage 50. *)
Definition percentage_heap : ref → GradeChange.t :=
  heap_of [event (opportunity_1 "max_grade" None) "graded" None
             (Some 8%Q) (Some 10%Q) None 1]
          (informational 0).

Definition machine_with_50 : t :=
  mk (Some (opportunity_1 "max_grade" None))
     (Some grade_state_change_types.graded) None (Some 0%Z) None None None
     [Some 50%Q] (Some ∅).

(** ** The display string (C4) *)

(** A machine that has reduced one [unavailable] event. *)
Definition marked_unavailable : ref → GradeChange.t :=
  heap_of [event (opportunity_1 "max_grade" None) "unavailable" None None None
             None 1]
          (informational 0).

(** A graded machine that averages the three percentages 100, 87.5 and
    75, and a rendering that writes "87.5". *)
Definition machine_averaging_87_5 : t :=
  mk (Some (opportunity_1 "avg_grade" None))
     (Some grade_state_change_types.graded) None (Some 3%Z) None None None
     [Some 100%Q; Some (175 # 2)%Q; Some 75%Q] None.

(** ** The aggregated percentage (C7) *)

(** The arithmetic mean of a list of numbers. *)
Definition mean (qs : list Q) : Q :=
  (foldr Qplus 0 qs / inject_Z (Z.of_nat (length qs)))%Q.

(** Three grades without attempt id, of 10, 10 and 0 out of 10, of an
    opportunity that is averaged. *)
Definition grades_100_100_0 : ref → GradeChange.t :=
  heap_of
    [event (opportunity_1 "avg_grade" None) "graded" None
       (Some 10%Q) (Some 10%Q) None 1;
     event (opportunity_1 "avg_grade" None) "graded" None
       (Some 10%Q) (Some 10%Q) None 2;
     event (opportunity_1 "avg_grade" None) "graded" None
       (Some 0%Q) (Some 10%Q) None 3]
    (informational 0).

(** A machine with the three percentages 100, 50 and 75. *)
Definition machine_100_50_75 (strategy : string) : t :=
  mk (Some (opportunity_1 strategy None))
     (Some grade_state_change_types.graded) None (Some 3%Z) None None None
     [Some 100%Q; Some 50%Q; Some 75%Q] None.

(** ** A graded state has a percentage (C10) *)

(** A machine whose state is [graded] holds a contribution: a valid
    percentage, or an entry of the attempt map that the flush will turn
    into one. *)
Definition contribution_recorded (m : t) : Prop :=
  state m = Some grade_state_change_types.graded →
  valid_percentages m ≠ [] ∨
  ∃ d, attempt_id_to_gchange m = Some d ∧ d ≠ ∅.

(** ** Attempts and supersession (C6) *)

(** An event that resets the accumulation. *)
Definition is_reset (g : GradeChange.t) : bool :=
  bool_decide (GradeChange.state g ∈ [grade_state_change_types.unavailable;
                                      grade_state_change_types.do_over;
                                      grade_state_change_types.exempt]).

(** The events of a sequence that follow its last reset. *)
Definition since_last_reset (h : ref → GradeChange.t) (es : list ref) : list ref :=
  fold_left (λ acc r, if is_reset (h r) then [] else acc ++ [r]) es [].

(** The grades of attempt [aid], and the grades without attempt id. *)
Definition grade_of_attempt (h : ref → GradeChange.t) (aid : string) (r : ref)
  : Prop :=
  GradeChange.state (h r) = grade_state_change_types.graded ∧
  GradeChange.attempt_id (h r) = Some aid.

Definition ungrouped_grade (h : ref → GradeChange.t) (r : ref) : Prop :=
  GradeChange.state (h r) = grade_state_change_types.graded ∧
  GradeChange.attempt_id (h r) = None.

#[global] Instance grade_of_attempt_dec h aid r : Decision (grade_of_attempt h aid r).
Proof. unfold grade_of_attempt. apply _. Defined.

#[global] Instance ungrouped_grade_dec h r : Decision (ungrouped_grade h r).
Proof. unfold ungrouped_grade. apply _. Defined.

(** The last grade of attempt [aid] in a list of events. *)
Definition final_of_attempt (h : ref → GradeChange.t) (aid : string)
    (l : list ref) : option ref :=
  last (filter (grade_of_attempt h aid) l).

(** What the loop of [consume] has accumulated after the events [pre]. *)
Definition accumulated (h : ref → GradeChange.t) (pre : list ref) (w : world)
  : Prop :=
  (∀ r, fields_unchanged (h r) (heap w r)) ∧
  ∃ d, attempt_id_to_gchange (self w) = Some d ∧
       (∀ aid, d !! aid = final_of_attempt h aid (since_last_reset h pre)) ∧
       Forall2 (λ r p, GradeChange.percentage (h r) = Ok p)
         (filter (ungrouped_grade h) (since_last_reset h pre))
         (valid_percentages (self w)).

(** ** What a reduction leaves in the machine *)

(** The events of state [s]. *)
Definition has_state (h : ref → GradeChange.t) (s : string) (r : ref) : Prop :=
  GradeChange.state (h r) = s.

(** The events that assign the state of the machine. *)
Definition sets_state (h : ref → GradeChange.t) (r : ref) : Prop :=
  GradeChange.state (h r) ∈ [grade_state_change_types.graded;
                             grade_state_change_types.unavailable;
                             grade_state_change_types.exempt;
                             grade_state_change_types.do_over].

#[global] Instance has_state_dec h s r : Decision (has_state h s r).
Proof. unfold has_state. apply _. Defined.

#[global] Instance sets_state_dec h r : Decision (sets_state h r).
Proof. unfold sets_state. apply _. Defined.

#[global] Hint Opaque has_state sets_state : typeclass_instances.

(** The state that an event of [sets_state] leaves. *)
Definition state_left_by (g : GradeChange.t) : option string :=
  if decide (GradeChange.state g = grade_state_change_types.do_over) then None
  else Some (GradeChange.state g).

(** What the loop of [consume] has recorded after the events [pre], read
    off the events. *)
Definition recorded (h : ref → GradeChange.t) (pre : list ref) (w : world)
  : Prop :=
  (∀ r, fields_unchanged (h r) (heap w r)) ∧
  opportunity (self w) = (λ r, GradeChange.opportunity (h r)) <$> head pre ∧
  (∀ r, r ∈ pre →
     Some (GradingOpportunity.pk (GradeChange.opportunity (h r)))
     = (λ r0, GradingOpportunity.pk (GradeChange.opportunity (h r0))) <$> head pre) ∧
  _last_grade_change_time (self w) = None ∧
  state (self w)
  = last (filter (sets_state h) pre) ≫= (λ r, state_left_by (h r)) ∧
  last_graded_time (self w)
  = (λ r, GradeChange.grade_time (h r))
      <$> last (filter (has_state h grade_state_change_types.graded) pre) ∧
  last_report_time (self w)
  = (λ r, GradeChange.grade_time (h r))
      <$> last (filter (has_state h grade_state_change_types.report_sent) pre) ∧
  due_time (self w)
  = match last (filter (has_state h grade_state_change_types.extension) pre) with
    | Some r => GradeChange.due_time (h r)
    | None =>
        head pre ≫= (λ r, GradingOpportunity.due_time (GradeChange.opportunity (h r)))
    end.

(** The seven kinds of event other than [graded]. *)
Definition other_kinds : list string :=
  [grade_state_change_types.unavailable; grade_state_change_types.do_over;
   grade_state_change_types.exempt; grade_state_change_types.report_sent;
   grade_state_change_types.extension; grade_state_change_types.grading_started;
   grade_state_change_types.retrieved].

(** In the list [l], the event [r] is a grade of an attempt that has a
    later grade. *)
Definition superseded_in (h : ref → GradeChange.t) (l : list ref) (r : ref)
  : Prop :=
  ∃ aid, grade_of_attempt h aid r ∧ final_of_attempt h aid l ≠ Some r.

(** The marks on the events since the last reset. *)
Definition marked (h : ref → GradeChange.t) (pre : list ref) (w : world) : Prop :=
  ∀ r, r ∈ since_last_reset h pre →
    (superseded_in h (since_last_reset h pre) r →
     GradeChange.is_superseded (heap w r) = Some true) ∧
    (¬ superseded_in h (since_last_reset h pre) r →
     GradeChange.is_superseded (heap w r) = Some false).

(** ** Bounds on percentages *)

Definition in_range (lo hi : Q) (q : Q) : Prop := (lo <= q)%Q ∧ (q <= hi)%Q.

(** A grade with points between zero and a positive maximum. *)
Definition well_formed_grade (g : GradeChange.t) : Prop :=
  ∃ p mp, GradeChange.points g = Some p ∧ GradeChange.max_points g = Some mp ∧
          (0 <= p)%Q ∧ (p <= mp)%Q ∧ (0 < mp)%Q.

(** The five aggregation strategies. *)
Definition strategies : list string :=
  [grade_aggregation_strategy.max_grade; grade_aggregation_strategy.min_grade;
   grade_aggregation_strategy.avg_grade; grade_aggregation_strategy.use_earliest;
   grade_aggregation_strategy.use_latest].

(** An opportunity averaged and due at time 20, and a history of it: a
    grade of attempt "A", a report, an extension to time 50, a second
    grade of attempt "A", a grade without attempt id, the opportunity
    marked unavailable, a do-over, two grades of attempt "B", and an
    event of no known kind, which [whole_history] leaves out. *)
Definition averaged_due_20 : GradingOpportunity.t :=
  opportunity_1 "avg_grade" (Some 20%Z).

Definition history : ref → GradeChange.t :=
  heap_of
    [event averaged_due_20 "graded" (Some "A") (Some 40%Q) (Some 100%Q) None 1;
     event averaged_due_20 "report_sent" None None None None 2;
     event averaged_due_20 "extension" None None None (Some 50%Z) 3;
     event averaged_due_20 "graded" (Some "A") (Some 90%Q) (Some 100%Q) None 4;
     event averaged_due_20 "graded" None (Some 70%Q) (Some 100%Q) None 5;
     event averaged_due_20 "unavailable" None None None None 6;
     event averaged_due_20 "do_over" None None None None 7;
     event averaged_due_20 "graded" (Some "B") (Some 50%Q) (Some 100%Q) None 8;
     event averaged_due_20 "graded" (Some "B") (Some 60%Q) (Some 100%Q) None 9;
     event averaged_due_20 "bogus" None None None None 10]
    (informational 0).

Definition whole_history : list ref := [0; 1; 2; 3; 4; 5; 6; 7; 8].

(** ** The histories that [consume] accepts *)

(** The state and the due time that the events [pre] leave in the machine,
    read off the events. *)
Definition state_after (h : ref → GradeChange.t) (pre : list ref)
  : option string :=
  last (filter (sets_state h) pre) ≫= (λ r, state_left_by (h r)).

Definition due_time_after (h : ref → GradeChange.t) (pre : list ref)
  : option datetime :=
  match last (filter (has_state h grade_state_change_types.extension) pre) with
  | Some r => GradeChange.due_time (h r)
  | None =>
      head pre ≫= (λ r, GradingOpportunity.due_time (GradeChange.opportunity (h r)))
  end.

(** The event [x] can follow the events [pre]: it is of their opportunity
    and of a known kind, and if it is a grade, the opportunity is neither
    unavailable nor exempt, the grade is not late, and, without attempt
    id, its percentage can be computed. *)
Definition admissible (h : ref → GradeChange.t) (pre : list ref) (x : ref)
  : Prop :=
  (∀ r0, head pre = Some r0 →
         GradingOpportunity.pk (GradeChange.opportunity (h r0))
         = GradingOpportunity.pk (GradeChange.opportunity (h x))) ∧
  GradeChange.state (h x) ∈ grade_state_change_types.graded :: other_kinds ∧
  (GradeChange.state (h x) = grade_state_change_types.graded →
   state_after h pre ≠ Some grade_state_change_types.unavailable ∧
   state_after h pre ≠ Some grade_state_change_types.exempt ∧
   (∀ d, due_time_after h (pre ++ [x]) = Some d →
         (GradeChange.grade_time (h x) ≤ d)%Z) ∧
   (GradeChange.attempt_id (h x) = None →
    ∃ p, GradeChange.percentage (h x) = Ok p)).

(** Every event can follow those before it, and the last grade of every
    attempt since the last reset has a percentage that can be computed. *)
Definition accepted_history (h : ref → GradeChange.t) (es : list ref) : Prop :=
  (∀ pre x post, es = pre ++ x :: post → admissible h pre x) ∧
  (∀ aid r, final_of_attempt h aid (since_last_reset h es) = Some r →
            ∃ p, GradeChange.percentage (h r) = Ok p).

(** ** Unset percentages *)

(** The entries of a list of percentages that are numbers. *)
Definition numbers_of (vp : list (option Q)) : list (option Q) :=
  Some <$> omap id vp.

(** A grade without points and without maximum, on its own. *)
Definition grade_without_points : ref → GradeChange.t :=
  heap_of [event (opportunity_1 "max_grade" None) "graded" None None None None 1]
          (informational 0).

(** A machine with the percentages 50, unset and 75. *)
Definition machine_with_unset (strategy : string) : t :=
  mk (Some (opportunity_1 strategy None))
     (Some grade_state_change_types.graded) None (Some 3%Z) None None None
     [Some 50%Q; None; Some 75%Q] None.

(** ** The number of contributions *)

(** The attempt id of a grade that has one. *)
Definition graded_attempt (h : ref → GradeChange.t) (r : ref) : option string :=
  if decide (GradeChange.state (h r) = grade_state_change_types.graded)
  then GradeChange.attempt_id (h r) else None.

(** The attempts that have a grade in a list of events. *)
Definition attempts_graded (h : ref → GradeChange.t) (l : list ref)
  : gset string :=
  list_to_set (omap (graded_attempt h) l).

(** ** The earliest and the latest contribution *)

(** A history in which an attempt is graded at time 1 and a grade without
    attempt id follows at time 2. *)
Definition attempt_then_ungrouped (strategy : string) : ref → GradeChange.t :=
  heap_of
    [event (opportunity_1 strategy None) "graded" (Some "A")
       (Some 40%Q) (Some 100%Q) None 1;
     event (opportunity_1 strategy None) "graded" None
       (Some 90%Q) (Some 100%Q) None 2]
    (informational 0).

(** ** The other functions *)

(** A zero [Decimal]. *)
Definition is_zero (x : option Q) : Prop := ∃ q, x = Some q ∧ (q == 0)%Q.

(** An entry that [validate_stipulations] lets pass. *)
Definition stipulation (k : string) (v : pyvalue) : Prop :=
  (k = "credit_percent" ∧ (is_Some (as_int v) ∨ ∃ x, v = PyFloat x)) ∨
  (k = "allowed_session_count" ∧ ∃ n, as_int v = Some n ∧ (0 ≤ n)%Z).

(** At most one row for every flow of every course, and no two rows of a
    course with the same identifier. *)
Definition one_row_per_flow (table : list row) : Prop :=
  ∀ c f, length (filter (of_flow c f) table) ≤ 1.

Definition unique_together (table : list row) : Prop :=
  ∀ c i, length (filter (clashes c i) table) ≤ 1.

(** A flow description, and the row that the function makes of it for
    the flow "quiz-1" of course 1 at time 5 with primary key 7. *)
Definition some_desc : flow_desc.t := flow_desc.mk "Quiz 1" "max_grade".

Definition quiz_1_row : row :=
  GradingOpportunityRow.mk (GradingOpportunity.mk 7 "max_grade" None)
    1 "flow_quiz_1" "Flow: Quiz 1" (Some "quiz-1") 5%Z true.

(** A session with zero points out of zero. *)
Definition session_without_maximum : FlowSession.t :=
  FlowSession.mk 1 None "abc" "quiz-1" 0%Z None None false true None
    (Some 0%Q) (Some 0%Q) None.

(** A value that [validate_stipulations] lets pass as [credit_percent],
    and one that it lets pass as [allowed_session_count]. *)
Definition credit_percent_ok (v : pyvalue) : Prop :=
  is_Some (as_int v) ∨ ∃ x, v = PyFloat x.

Definition allowed_session_count_ok (v : pyvalue) : Prop :=
  ∃ n, as_int v = Some n ∧ (0 ≤ n)%Z.

(** An exception without stipulations and entries, and a rule. *)
Definition bare_exception : FlowAccessException.t :=
  FlowAccessException.mk 1 "quiz-1" None PyNone None 0%Z None [].

Definition some_rule : FlowAccessRule.t :=
  FlowAccessRule.mk ["view"; "start_credit"] (PyInt 3) PyNone.

(** * Properties of decimal arithmetic *)

(** ** Rounding to an integer *)

Lemma round_half_even_cases (y : Q) :
  let f := Qfloor y in
  (inject_Z f <= y < inject_Z f + 1)%Q ∧
  ((y - inject_Z f < 1 # 2)%Q ∧ Decimal.round_half_even y = f ∨
   (1 # 2 < y - inject_Z f)%Q ∧ Decimal.round_half_even y = (f + 1)%Z ∨
   (y - inject_Z f == 1 # 2)%Q ∧
   Decimal.round_half_even y = if Z.even f then f else (f + 1)%Z).
Proof.
  simpl. split.
  - split; [apply Qfloor_le|].
    pose proof (Qlt_floor y) as H. rewrite inject_Z_plus in H. exact H.
  - unfold Decimal.round_half_even.
    destruct (Qcompare_spec (y - inject_Z (Qfloor y)) (1 # 2)) as [H|H|H]; auto.
Qed.

Lemma round_half_even_bounds (y : Q) :
  (y - (1 # 2) <= inject_Z (Decimal.round_half_even y) <= y + (1 # 2))%Q.
Proof.
  destruct (round_half_even_cases y) as [[H1 H2] [[H ->]|[[H ->]|[H ->]]]].
  - lra.
  - rewrite inject_Z_plus. change (inject_Z 1) with 1%Q. lra.
  - destruct (Z.even (Qfloor y)); [lra|].
    rewrite inject_Z_plus. change (inject_Z 1) with 1%Q. lra.
Qed.

Lemma inject_Z_lt_succ (a b : Z) : (inject_Z a < inject_Z b + 1)%Q → (a <= b)%Z.
Proof.
  intros H. change 1%Q with (inject_Z 1) in H. rewrite <- inject_Z_plus in H.
  rewrite <- Zlt_Qlt in H. lia.
Qed.

(** Rounding does not cross an integer. *)
Lemma round_half_even_le (y : Q) (b : Z) :
  (y <= inject_Z b)%Q → (Decimal.round_half_even y <= b)%Z.
Proof.
  intros Hb.
  destruct (round_half_even_cases y) as [[H1 H2] Hc].
  assert (Qfloor y <= b)%Z as Hf by (rewrite Zle_Qle; lra).
  destruct (Z.eq_dec (Qfloor y) b) as [E|E].
  - rewrite E in *. destruct Hc as [[H ->]|[[H ->]|[H ->]]]; [lia|lra|lra].
  - destruct Hc as [[H ->]|[[H ->]|[H ->]]]; [lia|lia|].
    destruct (Z.even (Qfloor y)); lia.
Qed.

Lemma round_half_even_ge (y : Q) (b : Z) :
  (inject_Z b <= y)%Q → (b <= Decimal.round_half_even y)%Z.
Proof.
  intros Hb.
  destruct (round_half_even_cases y) as [[H1 H2] Hc].
  assert (b <= Qfloor y)%Z as Hf by (apply inject_Z_lt_succ; lra).
  destruct Hc as [[H ->]|[[H ->]|[H ->]]]; [lia|lia|].
  destruct (Z.even (Qfloor y)); lia.
Qed.

(** Half a unit above an even integer rounds down to it. *)
Lemma round_half_even_tie (y : Q) (b : Z) :
  Z.even b = true →
  (inject_Z b <= y <= inject_Z b + (1 # 2))%Q →
  Decimal.round_half_even y = b.
Proof.
  intros Heven [Hlo Hhi].
  destruct (round_half_even_cases y) as [[H1 H2] Hc].
  assert (Qfloor y = b) as E.
  { apply Z.le_antisymm.
    - apply inject_Z_lt_succ. lra.
    - apply inject_Z_lt_succ. lra. }
  rewrite E in *. destruct Hc as [[H ->]|[[H ->]|[H ->]]]; [done|lra|].
  by rewrite Heven.
Qed.

(** ** The exponent of the leading digit *)

Lemma ten_pow_pos (k : Z) : (0 < 10 ^ k)%Q.
Proof. by apply Qpower_0_lt. Qed.

Lemma ten_pow_succ (k : Z) : (10 ^ (k + 1) == 10 * 10 ^ k)%Q.
Proof. rewrite Qpower_plus by done. change (10 ^ 1)%Q with 10%Q. ring. Qed.

Lemma ten_pow_le (a b : Z) : (a <= b)%Z → (10 ^ a <= 10 ^ b)%Q.
Proof. intros H. by apply Qpower_le_compat_l. Qed.

Lemma ten_pow_lt_inv (a b : Z) : (10 ^ a < 10 ^ b)%Q → (a < b)%Z.
Proof. intros H. by apply (Qpower_lt_compat_l_inv 10). Qed.

Lemma Qeq_bool_false (a b : Q) : ¬ (a == b)%Q → Qeq_bool a b = false.
Proof.
  intros H. destruct (Qeq_bool a b) eqn:E; [|done].
  by apply Qeq_bool_eq in E.
Qed.

Lemma Qabs_pos_eq (x : Q) : (0 <= x)%Q → Qabs x = x.
Proof.
  destruct x as [n d]. unfold Qle, Qabs. simpl. intros H.
  f_equal. apply Z.abs_eq. lia.
Qed.

Lemma exponent_from_spec (fuel : nat) (k : Z) (q : Q) :
  (q < 10 ^ (k + 1))%Q →
  (10 ^ (k - Z.of_nat fuel) <= q)%Q →
  (10 ^ Decimal.exponent_from fuel k q <= q
   < 10 ^ (Decimal.exponent_from fuel k q + 1))%Q.
Proof.
  revert k. induction fuel as [|fuel IH]; intros k Hhi Hlo; simpl.
  - rewrite Z.sub_0_r in Hlo. done.
  - destruct (Qle_bool (10 ^ k) q) eqn:E.
    + apply Qle_bool_iff in E. done.
    + apply IH.
      * replace (k - 1 + 1)%Z with k by lia.
        apply Qnot_le_lt. intros H. apply Qle_bool_iff in H. congruence.
      * replace (k - 1 - Z.of_nat fuel)%Z with (k - Z.of_nat (S fuel))%Z by lia.
        done.
Qed.

Lemma two_pow_le_ten_pow (n : Z) : (0 <= n)%Z → (inject_Z (2 ^ n) <= 10 ^ n)%Q.
Proof.
  intros Hn. rewrite Zpower_Qpower by done.
  revert n Hn. apply natlike_ind.
  - apply Qle_refl.
  - intros n Hn IH. unfold Z.succ.
    rewrite !Qpower_plus by done.
    change (inject_Z 2 ^ 1)%Q with 2%Q. change (10 ^ 1)%Q with 10%Q.
    assert (0 <= inject_Z 2 ^ n)%Q by (by apply Qpower_0_le).
    nra.
Qed.

Lemma adjusted_spec (q : Q) :
  (0 < q)%Q →
  (10 ^ Decimal.adjusted q <= q < 10 ^ (Decimal.adjusted q + 1))%Q.
Proof.
  intros Hq. destruct q as [n d]. unfold Decimal.adjusted.
  simpl Qnum. simpl Qden.
  assert (0 < n)%Z as Hn.
  { unfold Qlt in Hq. simpl in Hq. lia. }
  pose proof (Z.log2_spec n Hn) as [_ Hn2].
  pose proof (Z.log2_spec (Zpos d) eq_refl) as [_ Hd2].
  pose proof (Z.log2_nonneg n) as Hln.
  pose proof (Z.log2_nonneg (Zpos d)) as Hld.
  set (hi := (Z.log2 n + 1)%Z) in *. set (m := (Z.log2 (Z.pos d) + 1)%Z) in *.
  assert ((n # d) < 10 ^ hi)%Q as Hhi.
  { apply Qlt_le_trans with (inject_Z (2 ^ hi)).
    - apply Qle_lt_trans with (inject_Z n).
      + unfold Qle. simpl. nia.
      + rewrite <- Zlt_Qlt. unfold hi, Z.succ in *. done.
    - apply two_pow_le_ten_pow. lia. }
  assert (10 ^ (- m) <= n # d)%Q as Hlo.
  { rewrite Qpower_opp.
    apply Qle_trans with (/ inject_Z (2 ^ m))%Q.
    - apply Qle_shift_inv_l.
      + rewrite <- (Zlt_Qlt 0). apply Z.pow_pos_nonneg; lia.
      + rewrite Qmult_comm. apply Qle_shift_div_r; [apply ten_pow_pos|].
        rewrite Qmult_1_l. apply two_pow_le_ten_pow. lia.
    - apply Qle_trans with (/ inject_Z (Zpos d))%Q.
      + apply Qle_shift_inv_l; [done|].
        rewrite Qmult_comm. apply Qle_shift_div_r.
        * rewrite <- (Zlt_Qlt 0). apply Z.pow_pos_nonneg; lia.
        * rewrite Qmult_1_l. rewrite <- Zle_Qle. unfold m, Z.succ in *. lia.
      + unfold Qle, Qinv. simpl. nia. }
  apply exponent_from_spec.
  - apply Qlt_le_trans with (10 ^ hi)%Q; [done|]. apply ten_pow_le. lia.
  - rewrite Z2Nat.id by lia. replace (hi - (hi - - m))%Z with (- m)%Z by lia.
    done.
Qed.

Lemma adjusted_unique (q : Q) (k : Z) :
  (10 ^ k <= q < 10 ^ (k + 1))%Q → Decimal.adjusted q = k.
Proof.
  intros [Hlo Hhi].
  assert (0 < q)%Q as Hq by (pose proof (ten_pow_pos k); lra).
  destruct (adjusted_spec q Hq) as [Hlo' Hhi'].
  assert (Decimal.adjusted q < k + 1)%Z by (apply ten_pow_lt_inv; lra).
  assert (k < Decimal.adjusted q + 1)%Z by (apply ten_pow_lt_inv; lra).
  lia.
Qed.


(** ** Rounding to the precision of the context *)

Lemma round_zero (x : Q) : (x == 0)%Q → Decimal.round x = 0%Q.
Proof. intros H. unfold Decimal.round. by rewrite (Qeq_eq_bool _ _ H). Qed.

Lemma round_unfold (x : Q) :
  ¬ (x == 0)%Q →
  let e := (Decimal.adjusted (Qabs x) - 27)%Z in
  (Decimal.round x
   == inject_Z (Decimal.round_half_even (x / 10 ^ e)) * 10 ^ e)%Q ∧
  (10 ^ (e + 27) <= Qabs x < 10 ^ (e + 28))%Q.
Proof.
  intros Hx. simpl. split.
  - unfold Decimal.round. rewrite (Qeq_bool_false x 0 Hx).
    apply Qred_correct.
  - assert (0 < Qabs x)%Q as Hpos.
    { pose proof (Qabs_nonneg x) as H. apply Qle_lteq in H as [H|H]; [done|].
      destruct Hx. revert H. apply Qabs_case; intros; lra. }
    destruct (adjusted_spec (Qabs x) Hpos) as [H1 H2].
    replace (Decimal.adjusted (Qabs x) - 27 + 27)%Z
      with (Decimal.adjusted (Qabs x)) by lia.
    replace (Decimal.adjusted (Qabs x) - 27 + 28)%Z
      with (Decimal.adjusted (Qabs x) + 1)%Z by lia.
    done.
Qed.

Lemma ten_pow_split (e k : Z) : (10 ^ (e + k) == 10 ^ e * 10 ^ k)%Q.
Proof. by apply Qpower_plus. Qed.

Lemma round_error (x : Q) :
  (Qabs (Decimal.round x - x) <= half_ulp * Qabs x)%Q.
Proof.
  destruct (Qeq_dec x 0) as [Hx|Hx].
  { rewrite (round_zero x Hx), Hx. vm_compute. discriminate. }
  destruct (round_unfold x Hx) as [Hr [Hlo _]].
  set (e := (Decimal.adjusted (Qabs x) - 27)%Z) in *.
  pose proof (ten_pow_pos e) as He.
  pose proof (round_half_even_bounds (x / 10 ^ e)) as [Hb1 Hb2].
  set (r := inject_Z (Decimal.round_half_even (x / 10 ^ e))) in *.
  assert (x == x / 10 ^ e * 10 ^ e)%Q as Hxy by (field; lra).
  set (y := (x / 10 ^ e)%Q) in *.
  rewrite ten_pow_split in Hlo.
  change (10 ^ 27)%Q with (inject_Z (10 ^ 27)) in Hlo.
  unfold half_ulp. change (10 ^ (-27))%Q with (/ inject_Z (10 ^ 27))%Q.
  assert (Qabs (Decimal.round x - x) <= (1 # 2) * 10 ^ e)%Q as H1.
  { rewrite Hr. apply Qabs_Qle_condition. split; nra. }
  eapply Qle_trans; [exact H1|].
  assert (10 ^ e <= / inject_Z (10 ^ 27) * Qabs x)%Q; [|lra].
  apply Qle_shift_div_l in Hlo; [|done].
  unfold Qdiv in Hlo. lra.
Qed.

Lemma round_nonneg (x : Q) : (0 <= x)%Q → (0 <= Decimal.round x)%Q.
Proof.
  intros H0. destruct (Qeq_dec x 0) as [Hx|Hx].
  { rewrite (round_zero x Hx). lra. }
  destruct (round_unfold x Hx) as [-> _].
  set (e := (Decimal.adjusted (Qabs x) - 27)%Z).
  pose proof (ten_pow_pos e) as He.
  assert (0 <= Decimal.round_half_even (x / 10 ^ e))%Z as Hr.
  { apply round_half_even_ge. apply Qle_shift_div_l; [done|].
    change (inject_Z 0) with 0%Q. lra. }
  rewrite Zle_Qle in Hr. change (inject_Z 0) with 0%Q in Hr. nra.
Qed.

Lemma round_relative (x : Q) :
  (0 <= x)%Q →
  ((1 - half_ulp) * x <= Decimal.round x <= (1 + half_ulp) * x)%Q.
Proof.
  intros H0. pose proof (round_error x) as H.
  rewrite (Qabs_pos x H0) in H. apply Qabs_Qle_condition in H. lra.
Qed.

(** A bound with few enough digits is not crossed. *)
Lemma round_le (x : Q) (b a : Z) :
  (0 < x)%Q → (x <= inject_Z b * 10 ^ a)%Q → (x < 10 ^ (a + 28))%Q →
  (Decimal.round x <= inject_Z b * 10 ^ a)%Q.
Proof.
  intros H0 Hb Ha.
  destruct (round_unfold x) as [-> [Hlo _]]; [lra|].
  rewrite (Qabs_pos_eq x) in * by lra.
  set (e := (Decimal.adjusted x - 27)%Z) in *.
  assert (e <= a)%Z as Hea.
  { assert (e + 27 < a + 28)%Z; [|lia]. apply ten_pow_lt_inv. lra. }
  pose proof (ten_pow_pos e) as He.
  assert (10 ^ a == inject_Z (10 ^ (a - e)) * 10 ^ e)%Q as Hsplit.
  { rewrite Zpower_Qpower by lia. rewrite <- ten_pow_split.
    by replace (a - e + e)%Z with a by lia. }
  assert (Decimal.round_half_even (x / 10 ^ e) <= b * 10 ^ (a - e))%Z as Hr.
  { apply round_half_even_le. rewrite inject_Z_mult.
    apply Qle_shift_div_r; [done|]. rewrite <- Qmult_assoc, <- Hsplit. done. }
  rewrite Zle_Qle, inject_Z_mult in Hr. rewrite Hsplit. nra.
Qed.

(** Just above a power of ten, rounding goes down to it. *)
Lemma round_tie (x : Q) (k : Z) :
  (10 ^ k <= x <= (1 + half_ulp) * 10 ^ k)%Q → (Decimal.round x == 10 ^ k)%Q.
Proof.
  intros [Hlo Hhi]. pose proof (ten_pow_pos k) as Hk.
  assert (0 < x)%Q as H0 by lra.
  assert (Decimal.adjusted (Qabs x) = k) as Hadj.
  { rewrite (Qabs_pos_eq x) by lra. apply adjusted_unique. split; [done|].
    rewrite ten_pow_succ. unfold half_ulp in Hhi.
    change (10 ^ (-27))%Q with (/ inject_Z (10 ^ 27))%Q in Hhi.
    assert (/ inject_Z (10 ^ 27) <= 1)%Q by (vm_compute; discriminate). nra. }
  destruct (round_unfold x) as [-> _]; [lra|]. rewrite Hadj.
  pose proof (ten_pow_pos (k - 27)) as He.
  assert (10 ^ k == inject_Z (10 ^ 27) * 10 ^ (k - 27))%Q as Hsplit.
  { change (inject_Z (10 ^ 27)) with (10 ^ 27)%Q. rewrite <- ten_pow_split.
    by replace (27 + (k - 27))%Z with k by lia. }
  rewrite (round_half_even_tie (x / 10 ^ (k - 27)) (10 ^ 27));
    [by rewrite Hsplit|done|].
  split.
  - apply Qle_shift_div_l; [done|]. by rewrite <- Hsplit.
  - apply Qle_shift_div_r; [done|].
    unfold half_ulp in Hhi.
    change (10 ^ (-27))%Q with (/ inject_Z (10 ^ 27))%Q in Hhi.
    rewrite Hsplit in Hhi.
    assert (inject_Z (10 ^ 27) * / inject_Z (10 ^ 27) == 1)%Q as Hi
      by (vm_compute; reflexivity).
    nra.
Qed.

(** ** The error of several roundings *)

Lemma half_ulp_pos : (0 < half_ulp)%Q.
Proof. by vm_compute. Qed.

Lemma rounding_error_succ (n : nat) :
  (rounding_error (S n) == half_ulp + (1 + half_ulp) * rounding_error n)%Q.
Proof.
  unfold rounding_error. rewrite Nat2Z.inj_succ. unfold Z.succ.
  rewrite Qpower_plus by (pose proof half_ulp_pos; lra).
  change ((1 + half_ulp) ^ 1)%Q with (1 + half_ulp)%Q. ring.
Qed.

Lemma rounding_error_nonneg (n : nat) : (0 <= rounding_error n)%Q.
Proof.
  induction n as [|n IH]; [by vm_compute|].
  rewrite rounding_error_succ. pose proof half_ulp_pos. nra.
Qed.

Lemma Qabs_triangle_sub (a b c : Q) :
  (Qabs (a - c) <= Qabs (a - b) + Qabs (b - c))%Q.
Proof.
  assert (a - c == (a - b) + (b - c))%Q as -> by ring. apply Qabs_triangle.
Qed.

Lemma Qabs_div (a b : Q) : ¬ (b == 0)%Q → (Qabs (a / b) == Qabs a / Qabs b)%Q.
Proof.
  intros Hb. unfold Qdiv. rewrite Qabs_Qmult. 
  apply Qmult_comp; [reflexivity|]. by rewrite Qabs_Qinv.
Qed.

Lemma Qabs_pos_iff (b : Q) : ¬ (b == 0)%Q → (0 < Qabs b)%Q.
Proof.
  intros Hb. pose proof (Qabs_nonneg b) as H.
  apply Qle_lteq in H as [H|H]; [done|].
  destruct Hb. revert H. apply Qabs_case; intros; lra.
Qed.

(** The error of the quotient of a number that carries an error. *)
Lemma round_div_error_scaled (a x b scale : Q) (n : nat) :
  ¬ (b == 0)%Q →
  (Qabs (a - x) <= rounding_error n * scale)%Q →
  (Qabs x <= scale)%Q →
  (Qabs (Decimal.round (a / b) - x / b)
   <= rounding_error (S n) * (scale / Qabs b))%Q.
Proof.
  intros Hb Ha Hx.
  pose proof (round_error (a / b)) as Hr.
  pose proof (Qabs_triangle_sub (Decimal.round (a / b)) (a / b) (x / b)) as Ht.
  pose proof (Qabs_pos_iff b Hb) as Hbpos.
  assert (0 < / Qabs b)%Q as Hinv by (by apply Qinv_lt_0_compat).
  assert (Qabs (a / b - x / b) <= rounding_error n * (scale / Qabs b))%Q as H1.
  { assert (a / b - x / b == (a - x) / b)%Q as -> by (field; done).
    rewrite Qabs_div by done. unfold Qdiv. rewrite Qmult_assoc.
    apply Qmult_le_compat_r; [done|lra]. }
  assert (Qabs (x / b) <= scale / Qabs b)%Q as H3.
  { rewrite Qabs_div by done. unfold Qdiv.
    apply Qmult_le_compat_r; [done|lra]. }
  assert (Qabs (a / b)
          <= scale / Qabs b + rounding_error n * (scale / Qabs b))%Q as H2.
  { assert (a / b == (a / b - x / b) + x / b)%Q as E by ring.
    rewrite E at 1. eapply Qle_trans; [apply Qabs_triangle|]. lra. }
  rewrite rounding_error_succ.
  pose proof half_ulp_pos. pose proof (rounding_error_nonneg n).
  pose proof (Qabs_nonneg (x / b)).
  set (S := (scale / Qabs b)%Q) in *.
  nra.
Qed.

Lemma round_div_error (a x b : Q) (n : nat) :
  ¬ (b == 0)%Q →
  (Qabs (a - x) <= rounding_error n * Qabs x)%Q →
  (Qabs (Decimal.round (a / b) - x / b)
   <= rounding_error (S n) * Qabs (x / b))%Q.
Proof.
  intros Hb Ha. rewrite (Qabs_div x b Hb).
  apply round_div_error_scaled; [done|done|apply Qle_refl].
Qed.

Lemma round_error_once (x : Q) :
  (Qabs (Decimal.round x - x) <= rounding_error 1 * Qabs x)%Q.
Proof.
  assert (rounding_error 1 == half_ulp)%Q as -> by (by vm_compute).
  apply round_error.
Qed.

Lemma decimal_div_ok (a b : Q) :
  ¬ (b == 0)%Q → Decimal.div a b = Ok (Decimal.round (a / b)).
Proof. intros H. unfold Decimal.div. by rewrite (Qeq_bool_false b 0 H). Qed.

Lemma percentage_with_points (g : GradeChange.t) (p mp : Q) :
  GradeChange.points g = Some p → GradeChange.max_points g = Some mp →
  ¬ (mp == 0)%Q →
  GradeChange.percentage g
  = Ok (Some (Decimal.round (Decimal.round (100 * p) / mp))).
Proof.
  intros Hp Hm Hz. unfold GradeChange.percentage. rewrite Hm, Hp.
  unfold Decimal.mul. by rewrite decimal_div_ok.
Qed.

Lemma percentage_error (p mp : Q) :
  ¬ (mp == 0)%Q →
  (Qabs (Decimal.round (Decimal.round (100 * p) / mp) - 100 * p / mp)
   <= rounding_error 2 * Qabs (100 * p / mp))%Q.
Proof.
  intros Hz. apply round_div_error; [done|]. apply round_error_once.
Qed.

(** A grade with a maximum and no points has no percentage: [100*None]
    raises. *)
Lemma percentage_without_points_raises (g : GradeChange.t) (mp : Q) :
  GradeChange.points g = None → GradeChange.max_points g = Some mp →
  GradeChange.percentage g = Raise TypeError.
Proof. intros Hp Hm. unfold GradeChange.percentage. by rewrite Hm, Hp. Qed.

(** * Properties of the reduction *)

(** ** Running computations *)

Ltac exec :=
  unfold consume_flush, _clear_grades, the_attempt_id_to_gchange, assert,
    deref, write_is_superseded, getattr, setattr, raise, lift,
    mbind, M_bind, mret, M_ret in *;
  simpl in *.

Lemma run_bind {A B : Type} (c : M A) (f : A → M B) (w : world) :
  (c ≫= f) w
  = match c w with
    | (Ok a, w') => f a w'
    | (Raise e, w') => (Raise e, w')
    end.
Proof. reflexivity. Qed.

Lemma run_seq_assoc {A B C : Type} (a : M A) (b : M B) (c : M C) (w : world) :
  ((a;; b);; c) w = (a;; (b;; c)) w.
Proof.
  rewrite !run_bind. destruct (a w) as [[x|e] w1]; [|reflexivity].
  rewrite !run_bind. reflexivity.
Qed.

Lemma for_each_app {A : Type} (l1 l2 : list A) (body : A → M unit) (w : world) :
  for_each (l1 ++ l2) body w = (for_each l1 body;; for_each l2 body) w.
Proof.
  revert w. induction l1 as [|x l1 IH]; intros w; simpl.
  - reflexivity.
  - rewrite run_seq_assoc, !run_bind.
    destruct (body x w) as [[[]|e] w1]; [|reflexivity].
    rewrite IH. reflexivity.
Qed.

Lemma consume_loop_app (es1 es2 : list ref) (flag : bool) (w : world) :
  consume_loop (es1 ++ es2) flag w
  = (consume_loop es1 flag;; consume_loop es2 flag) w.
Proof. apply for_each_app. Qed.

(** A loop invariant indexed by the items already visited, for the runs of
    the loop that do not raise. *)
Lemma for_each_ok_ind {A : Type} (I : list A → world → Prop)
    (body : A → M unit) (l : list A) :
  (∀ pre x w w', I pre w → x ∈ l → body x w = (Ok tt, w') → I (pre ++ [x]) w') →
  ∀ w w', I [] w → for_each l body w = (Ok tt, w') → I l w'.
Proof.
  intros Hbody.
  cut (∀ suf pre w w', pre ++ suf = l → I pre w →
         for_each suf body w = (Ok tt, w') → I (pre ++ suf) w').
  { intros H w w' HI Hrun. apply (H l [] w w'); auto. }
  induction suf as [|x suf IH]; intros pre w w' Hl HI Hrun; simpl in Hrun.
  - rewrite app_nil_r. unfold mret, M_ret in Hrun. congruence.
  - rewrite run_bind in Hrun.
    destruct (body x w) as [[[]|e] w1] eqn:Hx; [|discriminate].
    replace (pre ++ x :: suf) with ((pre ++ [x]) ++ suf)
      by (rewrite <- app_assoc; reflexivity).
    apply (IH _ w1); auto.
    + rewrite <- app_assoc. exact Hl.
    + apply (Hbody pre x w); auto. subst l. set_solver.
Qed.

(** An invariant of a loop whose body keeps it whatever the outcome. *)
Lemma for_each_always {A : Type} (I : world → Prop) (body : A → M unit)
    (l : list A) :
  (∀ x w, x ∈ l → I w → I (body x w).2) →
  ∀ w, I w → I (for_each l body w).2.
Proof.
  induction l as [|x l IH]; intros Hbody w HI; simpl.
  - exact HI.
  - rewrite run_bind.
    assert (I (body x w).2) as H1 by (apply Hbody; [set_solver|done]).
    destruct (body x w) as [[[]|e] w1]; simpl in *; [|done].
    apply IH; [|done]. intros y w2 Hy. apply Hbody. set_solver.
Qed.

(** ** The two checks at the head of [_consume_grade_change] *)

Lemma step_unfold (r : ref) (flag : bool) (w : world) :
  _consume_grade_change r flag w
  = (g ← deref r; check_opportunity g;; check_times g;; dispatch r g flag) w.
Proof. reflexivity. Qed.

Lemma step_checks_pass (r : ref) (flag : bool) (m : t) (h : ref → GradeChange.t) :
  checks_pass m (h r) →
  _consume_grade_change r flag (World m h)
  = dispatch r (h r) flag (World (after_checks m (h r)) h).
Proof.
  intros [Ho Ht]. rewrite step_unfold.
  unfold check_opportunity, check_times, after_checks. exec.
  destruct (opportunity m) as [o|]; simpl;
    rewrite ?bool_decide_true by done; simpl;
    destruct (_last_grade_change_time m) as [t0|]; simpl;
    rewrite ?bool_decide_true by done; reflexivity.
Qed.

Lemma step_checks_fail (r : ref) (flag : bool) (m : t) (h : ref → GradeChange.t) :
  ¬ checks_pass m (h r) →
  ∃ m', _consume_grade_change r flag (World m h) = (Raise AssertionError, World m' h).
Proof.
  intros Hn. rewrite step_unfold.
  unfold check_opportunity, check_times, checks_pass in *. exec.
  destruct (opportunity m) as [o|]; simpl;
    repeat case_bool_decide; simpl; eauto;
    destruct (_last_grade_change_time m) as [t0|]; simpl;
    repeat case_bool_decide; simpl; eauto; tauto.
Qed.

Lemma checks_pass_dec (m : t) (g : GradeChange.t) :
  checks_pass m g ∨ ¬ checks_pass m g.
Proof.
  unfold checks_pass.
  destruct (opportunity m) as [o|], (_last_grade_change_time m) as [t0|].
  - destruct (decide (GradingOpportunity.pk o
                      = GradingOpportunity.pk (GradeChange.opportunity g)));
      destruct (decide (GradeChange.grade_time g > t0)%Z); tauto.
  - destruct (decide (GradingOpportunity.pk o
                      = GradingOpportunity.pk (GradeChange.opportunity g))); tauto.
  - destruct (decide (GradeChange.grade_time g > t0)%Z); tauto.
  - tauto.
Qed.

(** ** The branch on the event's state, case by case *)

Lemma dispatch_ok_run (r : ref) (g : GradeChange.t) (flag : bool) (m : t)
    (h : ref → GradeChange.t) (w' : world) :
  dispatch_ok r g flag m h w' → dispatch r g flag (World m h) = (Ok tt, w').
Proof.
  unfold supersede.
  destruct 1 as [aid d Hs [Hu He] Hd Ha Hm|p Hs [Hu He] Hd Ha Hp| Hs | Hs | Hs
                | Hs | Hs | [Hs|Hs]];
    unfold dispatch; exec; rewrite Hs; simpl; try reflexivity.
  - repeat case_decide; try done. simpl. unfold before_due in Hd.
    destruct (due_time m) as [t0|]; simpl;
      [rewrite bool_decide_false by done; simpl|];
      rewrite Ha; destruct flag; simpl; rewrite Hm; simpl;
      try destruct (d !! aid); simpl; rewrite ?Hm; reflexivity.
  - repeat case_decide; try done. simpl. unfold before_due in Hd.
    destruct (due_time m) as [t0|]; simpl;
      [rewrite bool_decide_false by done; simpl|];
      rewrite Ha; simpl; rewrite Hp; reflexivity.
Qed.

Lemma dispatch_run_ok (r : ref) (g : GradeChange.t) (flag : bool) (m : t)
    (h : ref → GradeChange.t) (w' : world) :
  dispatch r g flag (World m h) = (Ok tt, w') → dispatch_ok r g flag m h w'.
Proof.
  unfold dispatch. exec. intros H.
  case_decide as Hs.
  { simpl in H.
    destruct (decide (state m = Some grade_state_change_types.unavailable));
      simpl in H; [discriminate|].
    destruct (decide (state m = Some grade_state_change_types.exempt));
      simpl in H; [discriminate|].
    assert (before_due m g ∧
            match GradeChange.attempt_id g with
            | Some aid =>
                ∃ d, attempt_id_to_gchange m = Some d ∧
                  w' = World (graded_at g
                          (set_attempt_id_to_gchange (Some (<[aid := r]> d))
                             (set_state (Some grade_state_change_types.graded) m)))
                         (supersede flag d aid h)
            | None =>
                ∃ p, GradeChange.percentage g = Ok p ∧
                  w' = World (graded_at g
                          (set_valid_percentages (valid_percentages m ++ [p])
                             (set_state (Some grade_state_change_types.graded) m)))
                         h
            end) as [Hd Hw].
    { unfold before_due, supersede, graded_at. rewrite Hs in H.
      destruct (due_time m) as [t0|]; simpl in H.
      1: case_bool_decide; simpl in H; [discriminate|].
      all: split; [done|].
      all: destruct (GradeChange.attempt_id g) as [aid|]; simpl in H.
      1,3: destruct (attempt_id_to_gchange m) as [d|] eqn:Hm;
        [exists d; split; [done|] | exfalso];
        destruct flag; simpl in H; rewrite ?Hm in H; simpl in H;
        try destruct (d !! aid); simpl in H; rewrite ?Hm in H; simpl in H;
        congruence.
      all: destruct (GradeChange.percentage g) as [p|]; simpl in H;
        [exists p; split; [done|congruence] | discriminate]. }
    destruct (GradeChange.attempt_id g) as [aid|] eqn:Ha.
    - destruct Hw as (d & Hm & ->). by apply ok_graded_grouped.
    - destruct Hw as (p & Hp & ->). by apply ok_graded_ungrouped. }
  repeat case_decide; simplify_eq/=;
    try match goal with E : GradeChange.state g = _ |- _ => rewrite ?E end;
    first [ by apply ok_unavailable | by apply ok_do_over | by apply ok_exempt
          | by apply ok_report_sent | by apply ok_extension
          | apply ok_informational;
            match goal with
            | E : GradeChange.state g ∈ _ |- _ =>
                apply elem_of_cons in E as [E|E];
                [by left | right; by apply list_elem_of_singleton in E]
            end ].
Qed.

(** Two different values for the state of one event. *)
Ltac state_clash :=
  match goal with
  | H1 : GradeChange.state ?g = _, H2 : GradeChange.state ?g = _ |- _ =>
      rewrite H1 in H2; vm_compute in H2; discriminate H2
  | H1 : GradeChange.state ?g = _, H2 : GradeChange.state ?g = _ ∨ _ |- _ =>
      rewrite H1 in H2; vm_compute in H2; destruct H2; discriminate
  | H1 : GradeChange.attempt_id ?g = _, H2 : GradeChange.attempt_id ?g = _ |- _ =>
      rewrite H1 in H2; discriminate H2
  end.

(** A run of [_consume_grade_change] that does not raise passed the
    checks and took one of the branches above. *)
Lemma step_run_ok (r : ref) (flag : bool) (m : t) (h : ref → GradeChange.t)
    (w' : world) :
  _consume_grade_change r flag (World m h) = (Ok tt, w') ↔
  checks_pass m (h r) ∧ dispatch_ok r (h r) flag (after_checks m (h r)) h w'.
Proof.
  split.
  - intros H. destruct (checks_pass_dec m (h r)) as [Hc|Hc].
    + split; [done|]. rewrite step_checks_pass in H by done.
      by apply dispatch_run_ok.
    + destruct (step_checks_fail r flag m h Hc) as [m' Hm']. congruence.
  - intros [Hc Hd]. rewrite step_checks_pass by done. by apply dispatch_ok_run.
Qed.

(** The heap after [_consume_grade_change], whatever the outcome: at most
    one object of the attempt map has been marked. *)
Lemma step_heap (r : ref) (flag : bool) (m : t) (h : ref → GradeChange.t) :
  heap (_consume_grade_change r flag (World m h)).2 = h ∨
  ∃ d aid earlier,
    flag = true ∧ attempt_id_to_gchange m = Some d ∧ d !! aid = Some earlier ∧
    heap (_consume_grade_change r flag (World m h)).2 = heap_write earlier true h.
Proof.
  destruct (checks_pass_dec m (h r)) as [Hc|Hc].
  2:{ destruct (step_checks_fail r flag m h Hc) as [m' ->]. by left. }
  rewrite step_checks_pass by done.
  assert (attempt_id_to_gchange (after_checks m (h r)) = attempt_id_to_gchange m)
    as <-.
  { unfold after_checks.
    by destruct (opportunity m), (_last_grade_change_time m). }
  generalize (after_checks m (h r)). intros m1.
  unfold dispatch. exec.
  repeat case_decide; simpl; auto.
  destruct (due_time m1) as [t0|]; simpl.
  1: case_bool_decide; simpl; auto.
  all: destruct (GradeChange.attempt_id (h r)) as [aid|]; simpl.
  2,4: destruct (GradeChange.percentage (h r)); simpl; auto.
  all: destruct (attempt_id_to_gchange m1) as [d|] eqn:Hd;
    destruct flag; simpl; rewrite ?Hd; simpl; auto;
    destruct (d !! aid) as [earlier|] eqn:He; simpl; rewrite ?Hd; simpl; auto;
    right; by exists d, aid, earlier.
Qed.

(** The attempt map after [_consume_grade_change], whatever the outcome. *)
Lemma step_attempt_map (r : ref) (flag : bool) (m : t) (h : ref → GradeChange.t) :
  let m' := self (_consume_grade_change r flag (World m h)).2 in
  attempt_id_to_gchange m' = attempt_id_to_gchange m ∨
  attempt_id_to_gchange m' = Some ∅ ∨
  ∃ d aid, attempt_id_to_gchange m = Some d ∧
           attempt_id_to_gchange m' = Some (<[aid := r]> d).
Proof.
  simpl.
  assert (attempt_id_to_gchange (after_checks m (h r)) = attempt_id_to_gchange m)
    as Hm.
  { unfold after_checks.
    by destruct (opportunity m), (_last_grade_change_time m). }
  destruct (checks_pass_dec m (h r)) as [Hc|Hc].
  2:{ rewrite step_unfold.
      unfold check_opportunity, check_times, checks_pass in *. exec.
      destruct (opportunity m) as [o|]; simpl;
        repeat case_bool_decide; simpl; auto;
        destruct (_last_grade_change_time m) as [t0|]; simpl;
        repeat case_bool_decide; simpl; auto; tauto. }
  rewrite step_checks_pass by done. rewrite <- Hm.
  generalize (after_checks m (h r)). intros m1.
  unfold dispatch. exec.
  repeat case_decide; simpl; auto.
  destruct (due_time m1) as [t0|]; simpl.
  1: case_bool_decide; simpl; auto.
  all: destruct (GradeChange.attempt_id (h r)) as [aid|]; simpl.
  2,4: destruct (GradeChange.percentage (h r)); simpl; auto.
  all: destruct (attempt_id_to_gchange m1) as [d|] eqn:Hd;
    destruct flag; simpl; rewrite ?Hd; simpl; auto;
    try (destruct (d !! aid) as [earlier|] eqn:He; simpl; rewrite ?Hd; simpl);
    right; right; by exists d, aid.
Qed.

(** The time of the last grade change is only assigned where it is
    already set. *)
Lemma step_last_grade_change_time (r : ref) (flag : bool) (w : world) :
  _last_grade_change_time (self w) = None →
  _last_grade_change_time (self (_consume_grade_change r flag w).2) = None.
Proof.
  destruct w as [m h]. simpl. intros Hl. rewrite step_unfold.
  unfold check_opportunity, check_times. exec.
  assert (∀ g m1 h1, _last_grade_change_time m1 = None →
            _last_grade_change_time (self (dispatch r g flag (World m1 h1)).2) = None)
    as Hd.
  { clear. intros g m1 h1 Hl. unfold dispatch. exec.
    repeat case_decide; simpl; auto.
    destruct (due_time m1) as [t0|]; simpl.
    1: case_bool_decide; simpl; auto.
    all: destruct (GradeChange.attempt_id g) as [aid|]; simpl.
    2,4: destruct (GradeChange.percentage g); simpl; auto.
    all: destruct (attempt_id_to_gchange m1) as [d|] eqn:Hd;
      destruct flag; simpl; rewrite ?Hd; simpl; auto;
      destruct (d !! aid) as [earlier|] eqn:He; simpl; rewrite ?Hd; simpl; auto. }
  destruct (opportunity m) as [o|]; simpl.
  1: case_bool_decide; simpl; [|done].
  all: rewrite Hl; simpl; by apply Hd.
Qed.

Lemma consume_loop_last_grade_change_time (es : list ref) (flag : bool) (w : world) :
  _last_grade_change_time (self w) = None →
  _last_grade_change_time (self (consume_loop es flag w).2) = None.
Proof.
  apply (for_each_always (λ w, _last_grade_change_time (self w) = None)).
  intros r w1 _ H1. rewrite run_bind. simpl.
  by apply step_last_grade_change_time.
Qed.

(** ** Events untouched but for [is_superseded] *)

Lemma fields_unchanged_refl (g : GradeChange.t) : fields_unchanged g g.
Proof. by repeat split. Qed.

Lemma fields_unchanged_trans (g1 g2 g3 : GradeChange.t) :
  fields_unchanged g1 g2 → fields_unchanged g2 g3 → fields_unchanged g1 g3.
Proof. unfold fields_unchanged. intuition congruence. Qed.

Lemma fields_unchanged_write (r r' : ref) (b : bool) (h : ref → GradeChange.t) :
  fields_unchanged (h r') (heap_write r b h r').
Proof. unfold heap_write. case_decide; by repeat split. Qed.

Lemma percentage_fields_unchanged (g g' : GradeChange.t) :
  fields_unchanged g g' → GradeChange.percentage g' = GradeChange.percentage g.
Proof.
  intros (_ & _ & _ & _ & Hp & Hm & _). unfold GradeChange.percentage.
  by rewrite Hp, Hm.
Qed.

Lemma turn_run (flag : bool) (r : ref) (w : world) :
  turn flag r w
  = _consume_grade_change r flag (World (self w) (heap_write r false (heap w))).
Proof. reflexivity. Qed.

Lemma turn_fields_unchanged (flag : bool) (r r' : ref) (w : world) :
  fields_unchanged (heap w r') (heap (turn flag r w).2 r').
Proof.
  rewrite turn_run.
  eapply fields_unchanged_trans; [apply (fields_unchanged_write r r' false)|].
  destruct (step_heap r flag (self w) (heap_write r false (heap w)))
    as [->|(d & aid & earlier & _ & _ & _ & ->)].
  - apply fields_unchanged_refl.
  - apply fields_unchanged_write.
Qed.

Lemma consume_loop_fields_unchanged (es : list ref) (flag : bool) (w : world)
    (r : ref) :
  fields_unchanged (heap w r) (heap (consume_loop es flag w).2 r).
Proof.
  apply (for_each_always (λ w', fields_unchanged (heap w r) (heap w' r)));
    [|apply fields_unchanged_refl].
  intros x w1 _ H1. eapply fields_unchanged_trans; [exact H1|].
  apply (turn_fields_unchanged flag x r w1).
Qed.

(** The values of a [dict], in whatever order they come. *)
Lemma dict_values_empty (order : dict_order) : order ∅ = [].
Proof.
  apply Permutation_nil_r. rewrite (dict_values_perm order).
  by rewrite map_to_list_empty.
Qed.

Lemma dict_values_singleton (order : dict_order) (k : string) (v : ref) :
  order {[ k := v ]} = [v].
Proof.
  apply Permutation_singleton_r. rewrite (dict_values_perm order).
  by rewrite map_to_list_singleton.
Qed.

Lemma elem_of_dict_values (order : dict_order) (d : gmap string ref) (r : ref) :
  r ∈ order d ↔ ∃ k, d !! k = Some r.
Proof.
  rewrite (dict_values_perm order d), list_elem_of_fmap. split.
  - intros ([k r'] & -> & H). exists k. by apply elem_of_map_to_list.
  - intros [k H]. exists (k, r). split; [done|]. by apply elem_of_map_to_list.
Qed.

Lemma length_dict_values (order : dict_order) (d : gmap string ref) :
  length (order d) = size d.
Proof.
  by rewrite (dict_values_perm order d), length_fmap, length_map_to_list.
Qed.

Lemma consume_flush_run {order : dict_order} (w : world) :
  consume_flush order w
  = match attempt_id_to_gchange (self w) with
    | Some d =>
        match for_each (order d) flush_body w with
        | (Ok _, w1) =>
            (Ok tt, World (set_attempt_id_to_gchange None (self w1)) (heap w1))
        | (Raise e, w1) => (Raise e, w1)
        end
    | None => (Raise (AttributeError "attempt_id_to_gchange"), w)
    end.
Proof.
  unfold consume_flush. fold flush_body. rewrite run_bind.
  unfold the_attempt_id_to_gchange. rewrite run_bind.
  unfold getattr at 1. destruct (attempt_id_to_gchange (self w)) as [d|].
  - unfold mret at 1, M_ret at 1. rewrite run_bind.
    by destruct (for_each (order d) flush_body w) as [[[]|e] w1].
  - reflexivity.
Qed.

Lemma flush_body_run (r : ref) (w : world) :
  flush_body r w
  = match GradeChange.percentage (heap w r) with
    | Ok p =>
        (Ok tt, World (set_valid_percentages (valid_percentages (self w) ++ [p])
                         (self w)) (heap w))
    | Raise e => (Raise e, w)
    end.
Proof. unfold flush_body. exec. by destruct (GradeChange.percentage _). Qed.

Lemma consume_flush_heap {order : dict_order} (w : world) :
  heap (consume_flush order w).2 = heap w.
Proof.
  rewrite consume_flush_run.
  destruct (attempt_id_to_gchange (self w)) as [d|]; [|done].
  assert (heap (for_each (order d) flush_body w).2 = heap w) as Hh.
  { apply (for_each_always (λ w', heap w' = heap w)); [|done].
    intros x w1 _ H1. rewrite flush_body_run.
    by destruct (GradeChange.percentage (heap w1 x)). }
  by destruct (for_each (order d) flush_body w) as [[[]|e] w1].
Qed.

Lemma consume_flush_empty (order : dict_order) (w : world) :
  attempt_id_to_gchange (self w) = Some ∅ →
  consume_flush order w
  = (Ok tt, World (set_attempt_id_to_gchange None (self w)) (heap w)).
Proof.
  intros H. rewrite consume_flush_run, H, dict_values_empty. by destruct w.
Qed.

Lemma consume_run {order : dict_order} (es : list ref) (flag : bool) (w : world)
    :
  consume order es flag w
  = match consume_loop es flag w with
    | (Ok _, w1) => consume_flush order w1
    | (Raise e, w1) => (Raise e, w1)
    end.
Proof.
  unfold consume. rewrite run_bind.
  by destruct (consume_loop es flag w) as [[[]|e] w1].
Qed.

Lemma consume_heap {order : dict_order} (es : list ref) (flag : bool)
    (w : world) :
  heap (consume order es flag w).2 = heap (consume_loop es flag w).2.
Proof.
  rewrite consume_run.
  destruct (consume_loop es flag w) as [[[]|e] w1]; simpl; [|done].
  apply consume_flush_heap.
Qed.

Lemma heap_write_other (r r' : ref) (b : bool) (h : ref → GradeChange.t) :
  r' ≠ r → heap_write r b h r' = h r'.
Proof. intros Hne. unfold heap_write. by case_decide. Qed.

Lemma heap_write_same (r : ref) (b : bool) (h : ref → GradeChange.t) :
  GradeChange.is_superseded (heap_write r b h r) = Some b.
Proof. unfold heap_write. by case_decide. Qed.

Lemma turn_confined (es : list ref) (h : ref → GradeChange.t) (flag : bool)
    (x : ref) (w : world) :
  x ∈ es → confined es h w → confined es h (turn flag x w).2.
Proof.
  intros Hx [Hh Hm]. rewrite turn_run. split.
  - intros r Hr.
    destruct (step_heap x flag (self w) (heap_write x false (heap w)))
      as [->|(d & aid & earlier & _ & Hd & He & ->)].
    + rewrite heap_write_other by set_solver. by apply Hh.
    + rewrite !heap_write_other; [by apply Hh|set_solver|].
      intros ->. apply Hr. by eapply Hm.
  - intros d aid e Hd He.
    destruct (step_attempt_map x flag (self w) (heap_write x false (heap w)))
      as [Heq|[Heq|(d0 & aid0 & Hd0 & Heq)]]; rewrite Heq in Hd.
    + by eapply Hm.
    + by simplify_eq.
    + simplify_eq. destruct (decide (aid0 = aid)) as [->|Hne].
      * rewrite lookup_insert_eq in He. by simplify_eq.
      * rewrite lookup_insert_ne in He by done. by eapply Hm.
Qed.

Lemma heap_write_flagged (r r' : ref) (b b' : bool) (h : ref → GradeChange.t) :
  GradeChange.is_superseded (h r') = Some b' →
  ∃ b'', GradeChange.is_superseded (heap_write r b h r') = Some b'' ∧
         (b = false → b' = false → b'' = false).
Proof.
  intros H. unfold heap_write. case_decide; simpl; eauto.
Qed.

Lemma turn_flagged (flag : bool) (pre : list ref) (x : ref) (w : world) :
  flagged flag pre w → flagged flag (pre ++ [x]) (turn flag x w).2.
Proof.
  intros Hpre r Hr. rewrite turn_run.
  assert (∃ b, GradeChange.is_superseded (heap_write x false (heap w) r) = Some b ∧
               (flag = false → b = false)) as (b & Hb & Hbf).
  { destruct (decide (r = x)) as [->|Hne].
    - exists false. by rewrite heap_write_same.
    - rewrite heap_write_other by done. apply Hpre.
      apply elem_of_app in Hr as [Hr|Hr]; [done|].
      by apply list_elem_of_singleton in Hr. }
  destruct (step_heap x flag (self w) (heap_write x false (heap w)))
    as [->|(d & aid & earlier & Hflag & _ & _ & ->)]; [eauto|].
  destruct (heap_write_flagged earlier r true b _ Hb) as (b'' & Hb'' & _).
  exists b''. split; [done|]. intros ->. done.
Qed.

(** ** The order of grade times (C1) *)

(** C1, evaluated on the code: a reduction over two events is accepted
    whatever their grade times [t1] and [t2] are, in particular when they
    are equal ([T, T]) or decreasing. The comparison with the time of the
    last grade change is never made: that time is only assigned inside the
    branch that requires it to be set already, so it is still unset after
    any number of events, whatever they are. *)
Theorem grade_times_out_of_order_accepted (order : dict_order)
    (t1 t2 : datetime) :
  (consume order [0; 1] false
     (World __init__ (two_events_at t1 t2))).1 = Ok tt ∧
  ∀ h es flag,
    _last_grade_change_time (self (consume_loop es flag (World __init__ h)).2)
    = None.
Proof.
  split.
  - rewrite consume_run. simpl. by rewrite consume_flush_empty.
  - intros h es flag. by apply consume_loop_last_grade_change_time.
Qed.

(** ** Mutation of the events (C3) *)

(** C3 as stated fails: after a reduction with the supersession flag set,
    the first of two grades of one attempt is not the record it was. *)
Lemma consume_mutates_superseded_event :
  heap (consume gmap_order [0; 1] true (World __init__ regraded_attempt)).2 0
  ≠ regraded_attempt 0.
Proof.
  intros H.
  apply (f_equal GradeChange.is_superseded) in H. vm_compute in H. discriminate.
Qed.

(** C3, amended: [consume] writes to the events it is given and to no
    other object, and only to their [is_superseded] attribute: whatever the
    outcome, every other field of every object is what it was; and when
    [consume] returns, every event of the sequence carries the attribute,
    [False] if the flag was not set. *)
Theorem consume_writes_only_is_superseded (order : dict_order)
    (h : ref → GradeChange.t)
    (es : list ref) (flag : bool) :
  (∀ r, fields_unchanged (h r)
          (heap (consume order es flag (World __init__ h)).2 r)) ∧
  (∀ r, r ∉ es → heap (consume order es flag (World __init__ h)).2 r = h r) ∧
  ((consume order es flag (World __init__ h)).1 = Ok tt →
   ∀ r, r ∈ es →
     ∃ b, GradeChange.is_superseded
            (heap (consume order es flag (World __init__ h)).2 r) = Some b ∧
          (flag = false → b = false)).
Proof.
  rewrite consume_heap. split; [|split].
  - intros r. apply (consume_loop_fields_unchanged es flag (World __init__ h) r).
  - assert (confined es h (consume_loop es flag (World __init__ h)).2) as [H _].
    { apply (for_each_always (confined es h)).
      - intros x w Hx Hw. by apply turn_confined.
      - split; [done|]. simpl. intros d aid e [= <-]. by rewrite lookup_empty. }
    exact H.
  - intros Hok. rewrite consume_run in Hok.
    destruct (consume_loop es flag (World __init__ h)) as [[[]|e] w1] eqn:Hloop;
      [|done].
    simpl. apply (for_each_ok_ind (flagged flag) (turn flag) es)
             with (w := World __init__ h); [| |exact Hloop].
    + intros pre x w w' Hpre _ Hrun.
      pose proof (turn_flagged flag pre x w Hpre) as H. by rewrite Hrun in H.
    + intros r Hr. by apply elem_of_nil in Hr.
Qed.

(** ** Continuing a reduction (C5) *)

(** C5 as stated fails: a machine that has reduced two events and is then
    given a third one raises, where the reduction of the three events
    returns. [consume] has deleted the attempt map of the first machine. *)
Lemma consume_again_raises :
  ((consume gmap_order [0; 1] false;; consume gmap_order [2] false)
      (World __init__ three_events)).1
    = Raise (AttributeError "attempt_id_to_gchange") ∧
  (consume gmap_order [0; 1; 2] false (World __init__ three_events)).1 = Ok tt.
Proof. split; reflexivity. Qed.

(** C5, amended: the loop of [consume] can be cut after [e1, e2] and
    continued with [e3] from the world it has reached, attempt map
    included; flushing the attempt map once, at the end, then gives the
    reduction of [e1, e2, e3]. *)
Theorem consume_continues_before_flush (order : dict_order) (e1 e2 e3 : ref)
    (flag : bool) (w : world) :
  consume order [e1; e2; e3] flag w
  = (consume_loop [e1; e2] flag;; consume_loop [e3] flag;;
     consume_flush order) w.
Proof.
  rewrite <- (run_seq_assoc (consume_loop [e1; e2] flag)
                (consume_loop [e3] flag) (consume_flush order) w).
  unfold consume. rewrite !(run_bind _ (λ _, consume_flush order)).
  change [e1; e2; e3] with ([e1; e2] ++ [e3]).
  by rewrite (consume_loop_app [e1; e2] [e3] flag w).
Qed.

(** ** Resets (C9) *)

Lemma step_reset (r : ref) (flag : bool) (m : t) (h : ref → GradeChange.t) :
  checks_pass m (h r) →
  GradeChange.state (h r) = grade_state_change_types.unavailable ∨
  GradeChange.state (h r) = grade_state_change_types.exempt ∨
  GradeChange.state (h r) = grade_state_change_types.do_over →
  ∃ st,
    _consume_grade_change r flag (World m h)
    = (Ok tt, World (set_state st (cleared (after_checks m (h r)))) h) ∧
    st = if decide (GradeChange.state (h r) = grade_state_change_types.do_over)
         then None else Some (GradeChange.state (h r)).
Proof.
  intros Hc [Hs|[Hs|Hs]]; rewrite Hs; simpl.
  - eexists. split; [|reflexivity]. apply step_run_ok. split; [done|].
    by apply ok_unavailable.
  - eexists. split; [|reflexivity]. apply step_run_ok. split; [done|].
    by apply ok_exempt.
  - eexists. split; [|reflexivity]. apply step_run_ok. split; [done|].
    by apply (ok_do_over r (h r) flag (after_checks m (h r)) h).
Qed.

(** C9: whatever the machine carries, an [unavailable] or [exempt] event
    that passes the checks empties [valid_percentages] and the attempt map
    and leaves the state [unavailable] or [exempt]; a [do_over] event does
    the same reset and leaves the state unset, not the state the machine had
    before. *)
Theorem reset_events (r : ref) (flag : bool) (w : world) :
  checks_pass (self w) (heap w r) →
  GradeChange.state (heap w r) = grade_state_change_types.unavailable ∨
  GradeChange.state (heap w r) = grade_state_change_types.exempt ∨
  GradeChange.state (heap w r) = grade_state_change_types.do_over →
  (_consume_grade_change r flag w).1 = Ok tt ∧
  valid_percentages (self (_consume_grade_change r flag w).2) = [] ∧
  attempt_id_to_gchange (self (_consume_grade_change r flag w).2) = Some ∅ ∧
  (GradeChange.state (heap w r) = grade_state_change_types.unavailable →
   state (self (_consume_grade_change r flag w).2)
   = Some grade_state_change_types.unavailable) ∧
  (GradeChange.state (heap w r) = grade_state_change_types.exempt →
   state (self (_consume_grade_change r flag w).2)
   = Some grade_state_change_types.exempt) ∧
  (GradeChange.state (heap w r) = grade_state_change_types.do_over →
   state (self (_consume_grade_change r flag w).2) = None).
Proof.
  destruct w as [m h]. simpl. intros Hc Hs.
  destruct (step_reset r flag m h Hc Hs) as (st & -> & Hst). simpl.
  repeat split; intros E; rewrite E in Hst; by subst st.
Qed.

(** The three resets on a machine that is [graded]. *)
Lemma reset_events_witness :
  state (self (_consume_grade_change 0 false
                 (World graded_machine reset_events_heap)).2)
  = Some grade_state_change_types.unavailable ∧
  state (self (_consume_grade_change 1 false
                 (World graded_machine reset_events_heap)).2)
  = Some grade_state_change_types.exempt ∧
  state (self (_consume_grade_change 2 false
                 (World graded_machine reset_events_heap)).2) = None ∧
  valid_percentages (self (_consume_grade_change 2 false
                 (World graded_machine reset_events_heap)).2) = [].
Proof.
  assert (∀ r, checks_pass graded_machine (reset_events_heap r)) as Hc.
  { intros r. split; simpl; [|done].
    unfold reset_events_heap, heap_of.
    destruct r as [|[|[|r]]]; simpl; try reflexivity. by destruct r. }
  split; [|split; [|split]].
  - apply (reset_events 0 false (World graded_machine reset_events_heap));
      [apply Hc | left; reflexivity | reflexivity].
  - apply (reset_events 1 false (World graded_machine reset_events_heap));
      [apply Hc | right; left; reflexivity | reflexivity].
  - apply (reset_events 2 false (World graded_machine reset_events_heap));
      [apply Hc | right; right; reflexivity | reflexivity].
  - apply (reset_events 2 false (World graded_machine reset_events_heap));
      [apply Hc | right; right; reflexivity].
Defined.

(** ** The due date (C8) *)

Lemma after_checks_fields (m : t) (g : GradeChange.t) :
  state (after_checks m g) = state m ∧
  due_time (after_checks m g) = due_time_in_force m g ∧
  valid_percentages (after_checks m g) = valid_percentages m ∧
  attempt_id_to_gchange (after_checks m g) = attempt_id_to_gchange m ∧
  last_graded_time (after_checks m g) = last_graded_time m ∧
  last_report_time (after_checks m g) = last_report_time m ∧
  opportunity (after_checks m g)
  = Some (default (GradeChange.opportunity g) (opportunity m)).
Proof.
  unfold after_checks, due_time_in_force.
  destruct (opportunity m) eqn:Ho, (_last_grade_change_time m); simpl;
    rewrite ?Ho; repeat split; reflexivity.
Qed.

Lemma dispatch_late (r : ref) (g : GradeChange.t) (flag : bool) (m : t)
    (h : ref → GradeChange.t) (d : datetime) :
  GradeChange.state g = grade_state_change_types.graded →
  accepts_grades m →
  due_time m = Some d → (GradeChange.grade_time g > d)%Z →
  dispatch r g flag (World m h)
  = (Raise (ValueError "cannot accept grade after due date"), World m h).
Proof.
  intros Hs [Hu He] Hd Hlate. unfold dispatch. exec. rewrite Hs. simpl.
  repeat case_decide; try done. simpl. rewrite Hd. simpl.
  by rewrite bool_decide_true by done.
Qed.

(** The branch of a grade that is in time, up to the record of its
    contribution. *)
Lemma dispatch_in_time (r : ref) (g : GradeChange.t) (flag : bool) (m : t)
    (h : ref → GradeChange.t) :
  GradeChange.state g = grade_state_change_types.graded →
  accepts_grades m → before_due m g →
  dispatch r g flag (World m h)
  = match GradeChange.attempt_id g with
    | Some aid =>
        match attempt_id_to_gchange m with
        | Some d =>
            (Ok tt,
             World (graded_at g
                      (set_attempt_id_to_gchange (Some (<[aid := r]> d))
                         (set_state (Some grade_state_change_types.graded) m)))
                   (supersede flag d aid h))
        | None =>
            (Raise (AttributeError "attempt_id_to_gchange"),
             World (set_state (Some grade_state_change_types.graded) m) h)
        end
    | None =>
        match GradeChange.percentage g with
        | Ok p =>
            (Ok tt,
             World (graded_at g
                      (set_valid_percentages (valid_percentages m ++ [p])
                         (set_state (Some grade_state_change_types.graded) m)))
                   h)
        | Raise e =>
            (Raise e,
             World (set_state (Some grade_state_change_types.graded) m) h)
        end
    end.
Proof.
  intros Hs [Hu He] Hd. unfold dispatch, supersede, graded_at. exec.
  rewrite Hs. simpl. repeat case_decide; try done. simpl.
  unfold before_due in Hd.
  destruct (due_time m) as [t0|]; simpl;
    [rewrite bool_decide_false by done; simpl|];
    (destruct (GradeChange.attempt_id g) as [aid|]; simpl;
     [destruct (attempt_id_to_gchange m) as [d|] eqn:Hm;
      destruct flag; simpl; rewrite ?Hm; simpl;
      try destruct (d !! aid); simpl; rewrite ?Hm; reflexivity
     |by destruct (GradeChange.percentage g)]).
Qed.

Lemma step_in_time (r : ref) (flag : bool) (m : t) (h : ref → GradeChange.t) :
  checks_pass m (h r) →
  GradeChange.state (h r) = grade_state_change_types.graded →
  accepts_grades m →
  (∀ d, due_time_in_force m (h r) = Some d →
        (GradeChange.grade_time (h r) ≤ d)%Z) →
  (_consume_grade_change r flag (World m h)).1 = outcome_in_time m (h r) ∧
  valid_percentages (self (_consume_grade_change r flag (World m h)).2)
  = valid_percentages m
    ++ match GradeChange.attempt_id (h r), GradeChange.percentage (h r) with
       | None, Ok p => [p]
       | _, _ => []
       end ∧
  ((_consume_grade_change r flag (World m h)).1 = Ok tt →
   state (self (_consume_grade_change r flag (World m h)).2)
   = Some grade_state_change_types.graded ∧
   last_graded_time (self (_consume_grade_change r flag (World m h)).2)
   = Some (GradeChange.grade_time (h r))).
Proof.
  intros Hc Hs Ha Hbefore.
  destruct (after_checks_fields m (h r)) as (Hst & Hdue & Hvp & Hmap & _).
  rewrite step_checks_pass by done. rewrite dispatch_in_time; try done.
  - unfold outcome_in_time. rewrite Hmap, Hvp.
    destruct (GradeChange.attempt_id (h r)) as [aid|].
    + destruct (attempt_id_to_gchange m) as [d|]; simpl;
        by rewrite ?app_nil_r.
    + destruct (GradeChange.percentage (h r)) as [p|e]; simpl;
        by rewrite ?app_nil_r.
  - unfold accepts_grades. by rewrite Hst.
  - unfold before_due. rewrite Hdue.
    destruct (due_time_in_force m (h r)) as [d|]; [|done].
    specialize (Hbefore d eq_refl). lia.
Qed.

(** C8: for a [graded] event that passes the checks, on a machine that is
    neither [unavailable] nor [exempt]: if its grade time exceeds the due
    time in force, the reduction fails with "cannot accept grade after due
    date". If there is no due time or the grade time does not exceed it,
    the outcome is that of recording the contribution
    ([outcome_in_time]): a grade with points and a non-zero maximum is
    accepted, and leaves the state [graded] and its grade time as
    [last_graded_time]; a grade without attempt id that has a maximum and
    no points is not accepted: [percentage] raises [TypeError]. An
    [extension] event is accepted, replaces the due time by its own and
    leaves the state as it was, and the new due time is the one in force
    for every later event. *)
Theorem due_date_check (r : ref) (flag : bool) (w : world) :
  checks_pass (self w) (heap w r) →
  (GradeChange.state (heap w r) = grade_state_change_types.graded →
   accepts_grades (self w) →
   (∀ d, due_time_in_force (self w) (heap w r) = Some d →
         (GradeChange.grade_time (heap w r) > d)%Z →
         (_consume_grade_change r flag w).1
         = Raise (ValueError "cannot accept grade after due date")) ∧
   ((∀ d, due_time_in_force (self w) (heap w r) = Some d →
          (GradeChange.grade_time (heap w r) ≤ d)%Z) →
    (_consume_grade_change r flag w).1 = outcome_in_time (self w) (heap w r) ∧
    ((_consume_grade_change r flag w).1 = Ok tt →
     state (self (_consume_grade_change r flag w).2)
     = Some grade_state_change_types.graded ∧
     last_graded_time (self (_consume_grade_change r flag w).2)
     = Some (GradeChange.grade_time (heap w r))) ∧
    (∀ p mp,
       GradeChange.attempt_id (heap w r) = None →
       GradeChange.points (heap w r) = Some p →
       GradeChange.max_points (heap w r) = Some mp → ¬ (mp == 0)%Q →
       (_consume_grade_change r flag w).1 = Ok tt) ∧
    (∀ mp,
       GradeChange.attempt_id (heap w r) = None →
       GradeChange.points (heap w r) = None →
       GradeChange.max_points (heap w r) = Some mp →
       (_consume_grade_change r flag w).1 = Raise TypeError))) ∧
  (GradeChange.state (heap w r) = grade_state_change_types.extension →
   (_consume_grade_change r flag w).1 = Ok tt ∧
   due_time (self (_consume_grade_change r flag w).2)
   = GradeChange.due_time (heap w r) ∧
   state (self (_consume_grade_change r flag w).2) = state (self w) ∧
   ∀ g, due_time_in_force (self (_consume_grade_change r flag w).2) g
        = GradeChange.due_time (heap w r)).
Proof.
  destruct w as [m h]. simpl. intros Hc.
  destruct (after_checks_fields m (h r)) as (Hst & Hdue & Hvp & Hmap & _ & _ & Hopp).
  split.
  - intros Hs Ha. split.
    + intros d Hd Hlate. rewrite step_checks_pass by done.
      rewrite (dispatch_late r (h r) flag _ h d); try done.
      * unfold accepts_grades. by rewrite Hst.
      * by rewrite Hdue.
    + intros Hbefore.
      destruct (step_in_time r flag m h Hc Hs Ha Hbefore) as (Hout & _ & Hok).
      split; [done|]. split; [done|]. rewrite Hout. unfold outcome_in_time.
      split.
      * intros p mp -> Hp Hm Hz.
        by rewrite (percentage_with_points (h r) p mp Hp Hm Hz).
      * intros mp -> Hp Hm.
        by rewrite (percentage_without_points_raises (h r) mp Hp Hm).
  - intros Hs.
    rewrite (proj2 (step_run_ok r flag m h _)
               (conj Hc (ok_extension r (h r) flag _ h Hs))).
    simpl. repeat split; try done.
    intros g. unfold due_time_in_force. simpl. by rewrite Hopp.
Qed.

(** One second late, one second early with and without points, and an
    extension. *)
Lemma due_date_check_witness :
  (_consume_grade_change 0 false (World __init__ due_date_heap)).1
  = Raise (ValueError "cannot accept grade after due date") ∧
  (_consume_grade_change 1 false (World __init__ due_date_heap)).1 = Ok tt ∧
  (_consume_grade_change 3 false (World __init__ due_date_heap)).1
  = Raise TypeError ∧
  due_time (self (_consume_grade_change 2 false (World __init__ due_date_heap)).2)
  = Some 200%Z.
Proof.
  assert (∀ r, checks_pass __init__ (due_date_heap r)) as Hc by (by split).
  assert (accepts_grades __init__) as Ha by (by split).
  assert (∀ r d, r ∈ [1; 3] →
            due_time_in_force __init__ (due_date_heap r) = Some d →
            (GradeChange.grade_time (due_date_heap r) ≤ d)%Z) as Hd.
  { intros r d Hr.
    apply elem_of_cons in Hr as [->|Hr];
      [|apply list_elem_of_singleton in Hr as ->];
      intros [= <-]; simpl; lia. }
  split; [|split; [|split]].
  - apply (proj1 (proj1 (due_date_check 0 false (World __init__ due_date_heap)
                           (Hc 0)) eq_refl Ha) 100%Z); [reflexivity|reflexivity].
  - apply (proj1 (proj2 (proj2 (proj2 (proj1
              (due_date_check 1 false (World __init__ due_date_heap) (Hc 1))
              eq_refl Ha)
            (λ d, Hd 1 d ltac:(apply list_elem_of_here)))))
            8%Q 10%Q eq_refl eq_refl eq_refl).
    discriminate.
  - apply (proj2 (proj2 (proj2 (proj2 (proj1
              (due_date_check 3 false (World __init__ due_date_heap) (Hc 3))
              eq_refl Ha)
            (λ d, Hd 3 d
                    ltac:(apply list_elem_of_further, list_elem_of_here)))))
            10%Q eq_refl eq_refl eq_refl).
  - apply (proj2 (due_date_check 2 false (World __init__ due_date_heap) (Hc 2))
             eq_refl).
Defined.

(** ** The percentage of an event (C2) *)

(** The loop behind [extend], for the runs that do not raise. *)
Lemma flush_loop_ok (l : list ref) (w w' : world) :
  for_each l flush_body w = (Ok tt, w') →
  ∃ ps, Forall2 (λ r p, GradeChange.percentage (heap w r) = Ok p) l ps ∧
        w' = World (set_valid_percentages (valid_percentages (self w) ++ ps)
                      (self w)) (heap w).
Proof.
  apply (for_each_ok_ind
    (λ pre w1, ∃ ps,
       Forall2 (λ r p, GradeChange.percentage (heap w r) = Ok p) pre ps ∧
       w1 = World (set_valid_percentages (valid_percentages (self w) ++ ps)
                     (self w)) (heap w))).
  - intros pre x w1 w2 (ps & Hps & ->) _ Hrun.
    rewrite flush_body_run in Hrun. simpl in Hrun.
    destruct (GradeChange.percentage (heap w x)) as [p|e] eqn:Hp; [|done].
    exists (ps ++ [p]). split.
    + apply Forall2_app; [done|]. by constructor.
    + injection Hrun as <-. unfold set_valid_percentages. simpl.
      by rewrite <- app_assoc.
  - exists []. split; [constructor|].
    destruct w as [[] ?]. unfold set_valid_percentages. simpl.
    by rewrite app_nil_r.
Qed.

Lemma consume_flush_ok {order : dict_order} (w w' : world) :
  consume_flush order w = (Ok tt, w') →
  ∃ d ps,
    attempt_id_to_gchange (self w) = Some d ∧
    Forall2 (λ r p, GradeChange.percentage (heap w r) = Ok p)
      (order d) ps ∧
    w' = World (set_attempt_id_to_gchange None
                  (set_valid_percentages (valid_percentages (self w) ++ ps)
                     (self w))) (heap w).
Proof.
  rewrite consume_flush_run.
  destruct (attempt_id_to_gchange (self w)) as [d|]; [|done].
  destruct (for_each (order d) flush_body w) as [[[]|e] w1] eqn:Hl;
    [|done].
  intros [= <-]. apply flush_loop_ok in Hl as (ps & Hps & ->).
  by exists d, ps.
Qed.

Lemma flush_loop_returns_iff (l : list ref) (w : world) :
  (for_each l flush_body w).1 = Ok tt ↔
  ∀ r, r ∈ l → ∃ p, GradeChange.percentage (heap w r) = Ok p.
Proof.
  revert w. induction l as [|x l IH]; intros w.
  - split; [|done]. intros _ r Hr. by apply elem_of_nil in Hr.
  - change (for_each (x :: l) flush_body w)
      with ((flush_body x;; for_each l flush_body) w).
    rewrite run_bind, flush_body_run.
    destruct (GradeChange.percentage (heap w x)) as [p|e] eqn:Hp.
    + rewrite IH. simpl. split.
      * intros H r Hr. apply elem_of_cons in Hr as [->|Hr]; [by exists p|by apply H].
      * intros H r Hr. apply H. by apply list_elem_of_further.
    + simpl. split; [done|]. intros H.
      destruct (H x (list_elem_of_here _ _)) as [p Hp']. congruence.
Qed.

(** C2, on the code: the percentage of an event with points and a
    non-zero maximum is 100 × points / max_points as decimal arithmetic
    computes it, the product and the quotient each rounded to 28
    significant digits: 80 for 8 out of 10, where no digit is lost,
    33.33333333333333333333333333 for 1 out of 3, and in every case
    within two roundings of the exact quotient. For an event with a
    maximum and no points, [percentage] does not return an unset
    percentage: it raises [TypeError], and so does the reduction of a
    grade without attempt id that has no points; an event of the attempt
    map that has no points makes the flush raise. What is appended to
    [valid_percentages] for an accepted grade that has a maximum is a
    number, for a grade without attempt id at once, and for the events of
    the attempt map at the flush, in the order in which the map yields
    them. *)
Theorem percentage_of_grade :
  (∀ g p mp,
     GradeChange.points g = Some p → GradeChange.max_points g = Some mp →
     ¬ (mp == 0)%Q →
     ∃ q, GradeChange.percentage g = Ok (Some q) ∧
          q = Decimal.round (Decimal.round (100 * p) / mp) ∧
          (Qabs (q - 100 * p / mp)
           <= rounding_error 2 * Qabs (100 * p / mp))%Q) ∧
  (GradeChange.percentage (percentage_heap 0) = Ok (Some 80%Q) ∧
   GradeChange.percentage one_out_of_three
   = Ok (Some 33.33333333333333333333333333%Q)) ∧
  (∀ g mp,
     GradeChange.points g = None → GradeChange.max_points g = Some mp →
     GradeChange.percentage g = Raise TypeError) ∧
  (∀ r flag w mp,
     checks_pass (self w) (heap w r) →
     GradeChange.state (heap w r) = grade_state_change_types.graded →
     accepts_grades (self w) →
     (∀ d, due_time_in_force (self w) (heap w r) = Some d →
           (GradeChange.grade_time (heap w r) ≤ d)%Z) →
     GradeChange.attempt_id (heap w r) = None →
     GradeChange.max_points (heap w r) = Some mp →
     (GradeChange.points (heap w r) = None →
      (_consume_grade_change r flag w).1 = Raise TypeError ∧
      valid_percentages (self (_consume_grade_change r flag w).2)
      = valid_percentages (self w)) ∧
     ((_consume_grade_change r flag w).1 = Ok tt →
      ∃ q, GradeChange.percentage (heap w r) = Ok (Some q) ∧
           valid_percentages (self (_consume_grade_change r flag w).2)
           = valid_percentages (self w) ++ [Some q])) ∧
  (∀ order : dict_order,
     (consume order [0] false (World __init__ grade_with_maximum_only)).1
     = Raise TypeError) ∧
  (∀ (order : dict_order) w d,
     attempt_id_to_gchange (self w) = Some d →
     (∀ aid r mp,
        d !! aid = Some r →
        GradeChange.points (heap w r) = None →
        GradeChange.max_points (heap w r) = Some mp →
        (consume_flush order w).1 ≠ Ok tt) ∧
     ((consume_flush order w).1 = Ok tt →
      ∃ ps, Forall2 (λ r p, GradeChange.percentage (heap w r) = Ok p)
              (order d) ps ∧
            valid_percentages (self (consume_flush order w).2)
            = valid_percentages (self w) ++ ps)).
Proof.
  split; [|split; [|split; [|split; [|split]]]].
  - intros g p mp Hp Hm Hz. eexists. split; [|split; [reflexivity|]].
    + by apply percentage_with_points.
    + by apply percentage_error.
  - split; reflexivity.
  - apply percentage_without_points_raises.
  - intros r flag [m h] mp Hc Hs Ha Hbefore Haid Hm. simpl in *.
    destruct (step_in_time r flag m h Hc Hs Ha Hbefore) as (Hout & Hvp & _).
    unfold outcome_in_time in Hout. rewrite Haid in Hout, Hvp. split.
    + intros Hp.
      rewrite (percentage_without_points_raises (h r) mp Hp Hm) in Hout, Hvp.
      split; [done|]. by rewrite Hvp, app_nil_r.
    + intros Hok. rewrite Hok in Hout.
      unfold GradeChange.percentage in *. rewrite Hm in *.
      destruct (GradeChange.points (h r)) as [p|]; [|done].
      destruct (Decimal.div (Decimal.mul 100 p) mp) as [q|e]; [|done].
      by exists q.
  - intros order. rewrite consume_run. reflexivity.
  - intros order w d Hd. split.
    + intros aid r mp Hr Hp Hm Hok.
      rewrite consume_flush_run, Hd in Hok.
      destruct (for_each (order d) flush_body w) as [[[]|e] w1] eqn:Hl;
        [|done].
      assert ((for_each (order d) flush_body w).1 = Ok tt) as Hl'
        by (by rewrite Hl).
      destruct (proj1 (flush_loop_returns_iff (order d) w) Hl' r) as [p' Hp'].
      * apply elem_of_dict_values. by exists aid.
      * by rewrite (percentage_without_points_raises _ mp Hp Hm) in Hp'.
    + intros Hok.
      destruct (consume_flush order w) as [[[]|e] w'] eqn:Hrun; [|done].
      apply consume_flush_ok in Hrun as (d' & ps & Hd' & Hps & ->).
      exists ps. by simplify_eq.
Qed.

(** A grade of 8 out of 10 after a percentage of 50. *)
Lemma percentage_of_grade_witness :
  (∃ q, GradeChange.percentage (percentage_heap 0) = Ok (Some q) ∧
        q = Decimal.round (Decimal.round (100 * 8) / 10) ∧
        (Qabs (q - 100 * 8 / 10) <= rounding_error 2 * Qabs (100 * 8 / 10))%Q) ∧
  (∃ q, GradeChange.percentage (percentage_heap 0) = Ok (Some q) ∧
        valid_percentages
          (self (_consume_grade_change 0 false
                   (World machine_with_50 percentage_heap)).2)
        = [Some 50%Q] ++ [Some q]) ∧
  (_consume_grade_change 0 false
     (World machine_with_50 grade_with_maximum_only)).1
  = Raise TypeError.
Proof.
  assert (∀ h, checks_pass machine_with_50 (h 0) ↔
               GradingOpportunity.pk (GradeChange.opportunity (h 0)) = 1%Z)
    as Hc.
  { intros h. unfold checks_pass. simpl.
    split; [by intros [<- _]|by intros ->]. }
  assert (accepts_grades machine_with_50) as Ha by (by split).
  split; [|split].
  - apply (proj1 percentage_of_grade (percentage_heap 0) 8%Q 10%Q);
      [reflexivity | reflexivity | discriminate].
  - apply (proj2 (proj1 (proj2 (proj2 (proj2 percentage_of_grade))) 0 false
             (World machine_with_50 percentage_heap) 10%Q
             (proj2 (Hc percentage_heap) eq_refl) eq_refl Ha
             ltac:(discriminate) eq_refl eq_refl)).
    reflexivity.
  - apply (proj1 (proj1 (proj2 (proj2 (proj2 percentage_of_grade))) 0 false
             (World machine_with_50 grade_with_maximum_only) 10%Q
             (proj2 (Hc grade_with_maximum_only) eq_refl) eq_refl Ha
             ltac:(discriminate) eq_refl eq_refl)).
    reflexivity.
Defined.

(** ** The display string (C4) *)

(** C4 as stated fails: once the opportunity is marked unavailable the
    display is "(other state)", not "-", however numbers are rendered. *)
Lemma unavailable_displays_other_state :
  state (self (consume gmap_order [0] false
                 (World __init__ marked_unavailable)).2)
  = Some grade_state_change_types.unavailable ∧
  (λ format_1f,
     stringify_state format_1f
       (self (consume gmap_order [0] false
                (World __init__ marked_unavailable)).2))
  = (λ _, Ok "(other state)").
Proof. split; reflexivity. Qed.

(** C4, amended: the display is "-" when the state is unset, "(exempt)"
    when it is [exempt] and "(other state)" when it is [unavailable]; when it
    is [graded] and the aggregated percentage is [q], it is the rendering of
    [q] followed by "%", and then by the count of percentages as " (/n)"
    exactly when more than one percentage was aggregated. *)
Theorem stringify_state_cases (format_1f : Q → string) (m : t) :
  (state m = None → stringify_state format_1f m = Ok "-") ∧
  (state m = Some grade_state_change_types.exempt →
   stringify_state format_1f m = Ok "(exempt)") ∧
  (state m = Some grade_state_change_types.unavailable →
   stringify_state format_1f m = Ok "(other state)") ∧
  (state m = Some grade_state_change_types.graded →
   ∀ q, percentage m = Ok (Some q) →
     (length (valid_percentages m) ≤ 1 →
      stringify_state format_1f m = Ok (format_1f q +:+ "%")) ∧
     (1 < length (valid_percentages m) →
      stringify_state format_1f m
      = Ok ((format_1f q +:+ "%") +:+
            " (/" +:+ pretty (length (valid_percentages m)) +:+ ")"))).
Proof.
  unfold stringify_state. split; [|split; [|split]].
  - by intros ->.
  - by intros ->.
  - by intros ->.
  - intros Hs q Hq. rewrite Hs. simpl. rewrite Hq. simpl. split; intros Hn.
    + by rewrite bool_decide_false by lia.
    + by rewrite bool_decide_true by lia.
Qed.

(** The display of that machine is "87.5% (/3)". *)
Lemma stringify_state_cases_witness :
  stringify_state (λ _, "87.5") machine_averaging_87_5 = Ok "87.5% (/3)".
Proof.
  apply (proj2 (proj2 (proj2 (proj2
    (stringify_state_cases (λ _, "87.5") machine_averaging_87_5))) eq_refl
    (175 # 2)%Q eq_refl)).
  simpl. lia.
Defined.

(** ** A graded state has a percentage (C10) *)

Lemma turn_contribution_recorded (flag : bool) (x : ref) (w w' : world) :
  contribution_recorded (self w) →
  turn flag x w = (Ok tt, w') →
  contribution_recorded (self w').
Proof.
  intros Hinv Hrun. rewrite turn_run in Hrun.
  apply step_run_ok in Hrun as [_ Hd].
  destruct (after_checks_fields (self w) (heap_write x false (heap w) x))
    as (Hst & _ & Hvp & Hmap & _).
  unfold contribution_recorded in *.
  inversion Hd; subst; simpl; rewrite ?Hst, ?Hvp, ?Hmap; try done.
  - intros _. right. eexists. split; [done|]. apply insert_non_empty.
  - intros _. left. by destruct (valid_percentages (self w)).
Qed.

(** C10: when a reduction by a fresh machine returns with the state
    [graded], [valid_percentages] is not empty. Every turn of the loop
    keeps [contribution_recorded]: an accepted grade appends a percentage
    or enters the attempt map, and what empties the two also leaves the
    [graded] state; the flush turns the entries of the attempt map into
    percentages. *)
Theorem graded_has_percentage (order : dict_order) (h : ref → GradeChange.t)
    (es : list ref)
    (flag : bool) :
  (consume order es flag (World __init__ h)).1 = Ok tt →
  state (self (consume order es flag (World __init__ h)).2)
  = Some grade_state_change_types.graded →
  valid_percentages (self (consume order es flag (World __init__ h)).2) ≠ [].
Proof.
  rewrite consume_run.
  destruct (consume_loop es flag (World __init__ h)) as [[[]|e] w1] eqn:Hloop;
    [|done].
  assert (contribution_recorded (self w1)) as Hinv.
  { apply (for_each_ok_ind (λ _ w, contribution_recorded (self w))
             (turn flag) es (λ pre x w w' Hw _, turn_contribution_recorded
                                                flag x w w' Hw)
             (World __init__ h) w1); [|exact Hloop].
    intros Hs. discriminate Hs. }
  destruct (consume_flush order w1) as [[[]|e] w2] eqn:Hflush; [|done].
  intros _. apply consume_flush_ok in Hflush as (d & ps & Hd & Hps & ->).
  simpl. intros Hs. destruct (Hinv Hs) as [Hvp|(d' & Hd' & Hne)].
  - by destruct (valid_percentages (self w1)).
  - simplify_eq. destruct ps as [|p ps]; [|by destruct (valid_percentages (self w1))].
    apply Forall2_length in Hps. rewrite length_dict_values in Hps.
    simpl in Hps. by apply map_size_empty_iff in Hps.
Qed.

(** The two grades of attempt "A" leave a percentage. *)
Lemma graded_has_percentage_witness :
  valid_percentages
    (self (consume gmap_order [0; 1] true
             (World __init__ regraded_attempt)).2) ≠ [].
Proof.
  apply (graded_has_percentage gmap_order
           regraded_attempt [0; 1] true); reflexivity.
Defined.

(** ** Attempts and supersession (C6) *)

Lemma since_last_reset_snoc (h : ref → GradeChange.t) (pre : list ref) (x : ref) :
  since_last_reset h (pre ++ [x])
  = if is_reset (h x) then [] else since_last_reset h pre ++ [x].
Proof. unfold since_last_reset. by rewrite fold_left_app. Qed.

Lemma final_of_attempt_snoc (h : ref → GradeChange.t) (aid : string)
    (l : list ref) (x : ref) :
  final_of_attempt h aid (l ++ [x])
  = if decide (grade_of_attempt h aid x) then Some x else final_of_attempt h aid l.
Proof.
  unfold final_of_attempt. rewrite filter_app, filter_cons, filter_nil.
  case_decide.
  - apply last_snoc.
  - by rewrite app_nil_r.
Qed.

Lemma since_last_reset_elem_of (h : ref → GradeChange.t) (l : list ref) (r : ref) :
  r ∈ since_last_reset h l → r ∈ l.
Proof.
  induction l as [|x l IH] using rev_ind; [done|].
  rewrite since_last_reset_snoc. destruct (is_reset (h x)).
  - intros H. by apply elem_of_nil in H.
  - rewrite !elem_of_app. intros [H|H]; auto.
Qed.

Lemma final_of_attempt_Some (h : ref → GradeChange.t) (aid : string)
    (l : list ref) (e : ref) :
  final_of_attempt h aid l = Some e → grade_of_attempt h aid e ∧ e ∈ l.
Proof.
  unfold final_of_attempt. intros H.
  by apply last_Some_elem_of, list_elem_of_filter in H.
Qed.

Lemma ungrouped_snoc (h : ref → GradeChange.t) (l : list ref) (x : ref) :
  filter (ungrouped_grade h) (l ++ [x])
  = filter (ungrouped_grade h) l
    ++ (if decide (ungrouped_grade h x) then [x] else []).
Proof. rewrite filter_app, filter_cons, filter_nil. by case_decide. Qed.

Lemma is_reset_false (g : GradeChange.t) :
  GradeChange.state g = grade_state_change_types.graded ∨
  GradeChange.state g = grade_state_change_types.report_sent ∨
  GradeChange.state g = grade_state_change_types.extension ∨
  GradeChange.state g = grade_state_change_types.grading_started ∨
  GradeChange.state g = grade_state_change_types.retrieved →
  is_reset g = false.
Proof.
  unfold is_reset. intros H. apply bool_decide_eq_false. intros Hin.
  decompose [or] H; clear H;
    match goal with E : GradeChange.state g = _ |- _ => rewrite E in Hin end;
    by vm_compute in Hin; repeat (apply elem_of_cons in Hin as [Hin|Hin]; [done|]);
       apply elem_of_nil in Hin.
Qed.

Lemma is_reset_true (g : GradeChange.t) :
  GradeChange.state g = grade_state_change_types.unavailable ∨
  GradeChange.state g = grade_state_change_types.do_over ∨
  GradeChange.state g = grade_state_change_types.exempt →
  is_reset g = true.
Proof.
  unfold is_reset. intros H. apply bool_decide_eq_true.
  destruct H as [->|[->| ->]].
  - apply list_elem_of_here.
  - apply list_elem_of_further, list_elem_of_here.
  - do 2 apply list_elem_of_further. apply list_elem_of_here.
Qed.

Lemma turn_accumulated (h : ref → GradeChange.t) (flag : bool)
    (pre : list ref) (x : ref) (w w' : world) :
  accumulated h pre w →
  turn flag x w = (Ok tt, w') →
  accumulated h (pre ++ [x]) w'.
Proof.
  intros [Hheap (d & Hd & Hfin & Hvps)] Hrun. split.
  { intros r. eapply fields_unchanged_trans; [apply Hheap|].
    pose proof (turn_fields_unchanged flag x r w) as H. by rewrite Hrun in H. }
  rewrite turn_run in Hrun. apply step_run_ok in Hrun as [_ Hdisp].
  assert (fields_unchanged (h x) (heap_write x false (heap w) x)) as Hg.
  { eapply fields_unchanged_trans; [apply Hheap|apply fields_unchanged_write]. }
  pose proof (percentage_fields_unchanged _ _ Hg) as Hpct.
  destruct Hg as (_ & _ & Hgs & Hga & _).
  destruct (after_checks_fields (self w) (heap_write x false (heap w) x))
    as (_ & _ & Hvp & Hmap & _).
  set (g := heap_write x false (heap w) x) in *.
  set (m1 := after_checks (self w) g) in *.
  clearbody m1 g. rewrite Hd in Hmap. rewrite since_last_reset_snoc.
  destruct Hdisp as [aid d0 Hs Hacc Hbd Haid Hm | p Hs Hacc Hbd Haid Hp
                    | Hs | Hs | Hs | Hs | Hs | Hs]; simpl.
  - rewrite is_reset_false by (left; congruence).
    assert (d0 = d) as -> by congruence.
    exists (<[aid := x]> d). split; [done|]. split.
    + intros aid'. rewrite final_of_attempt_snoc. case_decide as Hx.
      * destruct Hx as [_ Hx]. rewrite <- Hga, Haid in Hx.
        injection Hx as <-. apply lookup_insert_eq.
      * rewrite lookup_insert_ne; [apply Hfin|].
        intros ->. apply Hx. split; congruence.
    + rewrite ungrouped_snoc, decide_False, app_nil_r; [by rewrite Hvp|].
      intros [_ Hx]. congruence.
  - rewrite is_reset_false by (left; congruence).
    exists d. split; [done|]. split.
    + intros aid'. rewrite final_of_attempt_snoc, decide_False; [apply Hfin|].
      intros [_ Hx]. congruence.
    + rewrite ungrouped_snoc, decide_True by (split; congruence).
      apply Forall2_app; [by rewrite Hvp|].
      constructor; [congruence|constructor].
  - rewrite is_reset_true by (left; congruence).
    exists ∅. split; [done|]. split; [|constructor].
    intros aid'. by rewrite lookup_empty.
  - rewrite is_reset_true by (right; left; congruence).
    exists ∅. split; [done|]. split; [|constructor].
    intros aid'. by rewrite lookup_empty.
  - rewrite is_reset_true by (right; right; congruence).
    exists ∅. split; [done|]. split; [|constructor].
    intros aid'. by rewrite lookup_empty.
  - rewrite is_reset_false by (right; left; congruence).
    exists d. split; [done|]. split.
    + intros aid'. rewrite final_of_attempt_snoc, decide_False; [apply Hfin|].
      intros [Hx _]. rewrite <- Hgs, Hs in Hx. discriminate Hx.
    + rewrite ungrouped_snoc, decide_False, app_nil_r; [by rewrite Hvp|].
      intros [Hx _]. rewrite <- Hgs, Hs in Hx. discriminate Hx.
  - rewrite is_reset_false by (right; right; left; congruence).
    exists d. split; [done|]. split.
    + intros aid'. rewrite final_of_attempt_snoc, decide_False; [apply Hfin|].
      intros [Hx _]. rewrite <- Hgs, Hs in Hx. discriminate Hx.
    + rewrite ungrouped_snoc, decide_False, app_nil_r; [by rewrite Hvp|].
      intros [Hx _]. rewrite <- Hgs, Hs in Hx. discriminate Hx.
  - rewrite is_reset_false
      by (right; right; right; destruct Hs; [left|right]; congruence).
    exists d. split; [done|]. split.
    + intros aid'. rewrite final_of_attempt_snoc, decide_False; [apply Hfin|].
      intros [Hx _]. rewrite <- Hgs in Hx. destruct Hs as [Hs|Hs];
        rewrite Hs in Hx; discriminate Hx.
    + rewrite ungrouped_snoc, decide_False, app_nil_r; [by rewrite Hvp|].
      intros [Hx _]. rewrite <- Hgs in Hx. destruct Hs as [Hs|Hs];
        rewrite Hs in Hx; discriminate Hx.
Qed.

Lemma consume_loop_cons (x : ref) (es : list ref) (flag : bool) (w : world) :
  consume_loop (x :: es) flag w
  = match turn flag x w with
    | (Ok _, w1) => consume_loop es flag w1
    | (Raise e, w1) => (Raise e, w1)
    end.
Proof.
  unfold consume_loop. simpl. rewrite run_bind. fold (turn flag x).
  by destruct (turn flag x w) as [[[]|e] w1].
Qed.

Lemma heap_write_at (r : ref) (b : bool) (h : ref → GradeChange.t) :
  heap_write r b h r = GradeChange.set_is_superseded (Some b) (h r).
Proof. unfold heap_write. by case_decide. Qed.

(** The turn of the loop for an accepted grade of an attempt. *)
Lemma turn_grade_of_attempt (flag : bool) (x : ref) (m : t)
    (h : ref → GradeChange.t) (aid : string) (d : gmap string ref) :
  grade_of_attempt h aid x →
  checks_pass m (h x) → accepts_grades m →
  (∀ t0, due_time_in_force m (h x) = Some t0 →
         (GradeChange.grade_time (h x) ≤ t0)%Z) →
  attempt_id_to_gchange m = Some d →
  turn flag x (World m h)
  = (Ok tt,
     World (graded_at (h x)
              (set_attempt_id_to_gchange (Some (<[aid := x]> d))
                 (set_state (Some grade_state_change_types.graded)
                    (after_checks m (h x)))))
           (supersede flag d aid (heap_write x false h))).
Proof.
  intros [Hs Ha] Hc Hacc Hdue Hd. rewrite turn_run. simpl.
  destruct (after_checks_fields m (h x)) as (Hst & Hdt & _ & Hmap & _).
  assert (after_checks m (heap_write x false h x) = after_checks m (h x)) as Hac
    by (by rewrite heap_write_at).
  replace (graded_at (h x)) with (graded_at (heap_write x false h x))
    by (by rewrite heap_write_at).
  rewrite <- Hac. apply step_run_ok. split.
  - by rewrite heap_write_at.
  - apply ok_graded_grouped.
    + by rewrite heap_write_at.
    + rewrite Hac. unfold accepts_grades. by rewrite Hst.
    + rewrite Hac. unfold before_due. rewrite Hdt, heap_write_at. simpl.
      destruct (due_time_in_force m (h x)) as [t0|]; [|done].
      specialize (Hdue t0 eq_refl). lia.
    + by rewrite heap_write_at.
    + rewrite Hac. by rewrite Hmap.
Qed.

Lemma consume_accumulates {order : dict_order} (h : ref → GradeChange.t)
    (es : list ref)
    (flag : bool) :
  (consume order es flag (World __init__ h)).1 = Ok tt →
  ∃ d : gmap string ref,
    (∀ aid, d !! aid = final_of_attempt h aid (since_last_reset h es)) ∧
    Forall2 (λ r p, GradeChange.percentage (h r) = Ok p)
      (filter (ungrouped_grade h) (since_last_reset h es) ++ (order d))
      (valid_percentages (self (consume order es flag (World __init__ h)).2)).
Proof.
  rewrite consume_run.
  destruct (consume_loop es flag (World __init__ h)) as [[[]|e] w1] eqn:Hloop;
    [|done].
  assert (accumulated h es w1) as [Hheap (d & Hd & Hfin & Hvps)].
  { apply (for_each_ok_ind (accumulated h) (turn flag) es
             (λ pre x w w' Hw _, turn_accumulated h flag pre x w w' Hw)
             (World __init__ h) w1); [|exact Hloop].
    split; [intros r; apply fields_unchanged_refl|].
    exists ∅. split; [done|]. split; [|constructor].
    intros aid. by rewrite lookup_empty. }
  destruct (consume_flush order w1) as [[[]|e] w2] eqn:Hflush; [|done].
  intros _. apply consume_flush_ok in Hflush as (d' & ps & Hd' & Hps & ->).
  assert (d' = d) as -> by congruence.
  exists d. split; [done|]. simpl. apply Forall2_app; [done|].
  eapply Forall2_impl; [exact Hps|]. intros r p Hp. simpl in Hp.
  by rewrite <- (percentage_fields_unchanged _ _ (Hheap r)).
Qed.

Lemma consume_two_grades_of_attempt {order : dict_order}
    (h : ref → GradeChange.t) (r1 r2 : ref)
    (aid : string) (p : option Q) :
  r1 ≠ r2 →
  grade_of_attempt h aid r1 → grade_of_attempt h aid r2 →
  GradingOpportunity.pk (GradeChange.opportunity (h r1))
  = GradingOpportunity.pk (GradeChange.opportunity (h r2)) →
  (∀ t0, GradingOpportunity.due_time (GradeChange.opportunity (h r1)) = Some t0 →
         (GradeChange.grade_time (h r1) ≤ t0)%Z ∧
         (GradeChange.grade_time (h r2) ≤ t0)%Z) →
  GradeChange.percentage (h r2) = Ok p →
  ∃ m', consume order [r1; r2] true (World __init__ h)
        = (Ok tt, World m' (heap_write r1 true
                              (heap_write r2 false (heap_write r1 false h)))) ∧
        valid_percentages m' = [p].
Proof.
  intros Hne H1 H2 Hpk Hdue Hp. eexists. split.
  - rewrite consume_run, consume_loop_cons.
    rewrite (turn_grade_of_attempt true r1 __init__ h aid ∅ H1);
      [|by split|by split|intros t0 Ht0; by apply (Hdue t0)|done].
    rewrite consume_loop_cons.
    unfold supersede at 1. rewrite lookup_empty.
    rewrite (turn_grade_of_attempt true r2 _ (heap_write r1 false h) aid
               (<[aid := r1]> ∅)).
    + unfold supersede. rewrite lookup_insert_eq.
      change (consume_loop [] true ?w) with (Ok tt, w). cbv iota beta.
      rewrite consume_flush_run. simpl attempt_id_to_gchange. cbv iota beta.
      rewrite insert_insert_eq, insert_empty, dict_values_singleton.
      change (for_each [r2] flush_body ?w)
        with ((flush_body r2 ;; mret tt) w).
      rewrite run_bind, flush_body_run. simpl heap.
      rewrite (heap_write_other r1 r2) by done.
      rewrite heap_write_at.
      replace (GradeChange.percentage
                 (GradeChange.set_is_superseded (Some false)
                    (heap_write r1 false h r2)))
        with (Ok (A:=option Q) p).
      * reflexivity.
      * rewrite heap_write_other by done. by rewrite <- Hp.
    + destruct H2 as [Hs Ha]. split; by rewrite heap_write_other.
    + split; simpl; [|done]. by rewrite heap_write_other.
    + by split.
    + intros t0 Ht0. simpl in Ht0. rewrite heap_write_other by done.
      by apply (Hdue t0).
    + done.
  - reflexivity.
Qed.

(** C6: of two distinct [graded] events [r1] and then [r2] of one attempt,
    reduced by a fresh machine with the supersession flag set, the earlier
    one is marked as superseded, the later one is not, and only the
    percentage of the later one is in [valid_percentages] (for the grades 40
    and then 90 of attempt "A": 90 alone). In general, when a reduction
    returns, [valid_percentages] holds the percentages of the grades without
    attempt id that follow the last reset, in their order, and then one
    percentage for each attempt graded since: that of its last grade. The
    attempts come in the order in which the attempt map yields them: the
    last grades of the attempts in some order, whatever the order is. *)
Theorem later_grade_supersedes (order : dict_order) :
  (∀ (h : ref → GradeChange.t) (r1 r2 : ref) (aid : string) (p : option Q),
     r1 ≠ r2 →
     grade_of_attempt h aid r1 → grade_of_attempt h aid r2 →
     GradingOpportunity.pk (GradeChange.opportunity (h r1))
     = GradingOpportunity.pk (GradeChange.opportunity (h r2)) →
     (∀ t0, GradingOpportunity.due_time (GradeChange.opportunity (h r1)) = Some t0 →
            (GradeChange.grade_time (h r1) ≤ t0)%Z ∧
            (GradeChange.grade_time (h r2) ≤ t0)%Z) →
     GradeChange.percentage (h r2) = Ok p →
     (consume order [r1; r2] true (World __init__ h)).1 = Ok tt ∧
     GradeChange.is_superseded
       (heap (consume order [r1; r2] true
                (World __init__ h)).2 r1) = Some true ∧
     GradeChange.is_superseded
       (heap (consume order [r1; r2] true
                (World __init__ h)).2 r2) = Some false ∧
     valid_percentages (self (consume order [r1; r2] true
                                (World __init__ h)).2) = [p]) ∧
  (∀ (h : ref → GradeChange.t) (es : list ref) (flag : bool),
     (consume order es flag (World __init__ h)).1 = Ok tt →
     ∃ (d : gmap string ref) (rs : list ref),
       (∀ aid, d !! aid = final_of_attempt h aid (since_last_reset h es)) ∧
       rs ≡ₚ (map_to_list d).*2 ∧
       Forall2 (λ r p, GradeChange.percentage (h r) = Ok p)
         (filter (ungrouped_grade h) (since_last_reset h es) ++ rs)
         (valid_percentages (self (consume order es flag
                                     (World __init__ h)).2))).
Proof.
  split.
  2:{ intros h es flag Hok.
      destruct (consume_accumulates h es flag Hok) as (d & Hd & Hvp).
      exists d, (order d). split; [done|]. split; [|done].
      apply dict_values_perm. }
  intros h r1 r2 aid p Hne H1 H2 Hpk Hdue Hp.
  destruct (consume_two_grades_of_attempt (order:=order) h r1 r2 aid p Hne H1 H2
              Hpk Hdue Hp)
    as (m' & -> & Hvp).
  simpl. repeat split; [| |done].
  - apply heap_write_same.
  - rewrite heap_write_other by done. apply heap_write_same.
Qed.

(** The grades 40 and then 90 of attempt "A". *)
Lemma later_grade_supersedes_witness :
  (consume gmap_order [0; 1] true (World __init__ regraded_attempt)).1 = Ok tt ∧
  GradeChange.is_superseded
    (heap (consume gmap_order [0; 1] true
             (World __init__ regraded_attempt)).2 0)
  = Some true ∧
  GradeChange.is_superseded
    (heap (consume gmap_order [0; 1] true
             (World __init__ regraded_attempt)).2 1)
  = Some false ∧
  valid_percentages (self (consume gmap_order [0; 1] true
                             (World __init__ regraded_attempt)).2)
  = [Some 90%Q].
Proof.
  apply (proj1 (later_grade_supersedes gmap_order)
           regraded_attempt 0 1 "A" (Some 90%Q)).
  - discriminate.
  - split; reflexivity.
  - split; reflexivity.
  - reflexivity.
  - intros t0 Ht0. discriminate Ht0.
  - reflexivity.
Defined.

(** ** The aggregated percentage (C7) *)

Lemma decimal_ltb_true (x y : Q) : Decimal.ltb x y = true → (x < y)%Q.
Proof.
  unfold Decimal.ltb. intros H. apply Qnot_le_lt. intros Hle.
  apply Qle_bool_iff in Hle. by rewrite Hle in H.
Qed.

Lemma decimal_ltb_false (x y : Q) : Decimal.ltb x y = false → (y <= x)%Q.
Proof.
  unfold Decimal.ltb. intros H. apply Qle_bool_iff.
  by destruct (Qle_bool y x).
Qed.

Lemma elem_of_cons_skip {A : Type} (q x a : A) (l : list A) :
  q ∈ a :: l → q ∈ x :: a :: l.
Proof. intros H. by apply list_elem_of_further. Qed.

Lemma elem_of_cons_keep {A : Type} (q x a : A) (l : list A) :
  q ∈ x :: l → q ∈ x :: a :: l.
Proof.
  intros H. apply elem_of_cons in H as [->|H].
  - apply list_elem_of_here.
  - by do 2 apply list_elem_of_further.
Qed.

Lemma py_max_cons (x a : Q) (l : list (option Q)) :
  py_max (Some x) (Some a :: l)
  = py_max (if Decimal.ltb x a then Some a else Some x) l.
Proof. reflexivity. Qed.

Lemma py_min_cons (x a : Q) (l : list (option Q)) :
  py_min (Some x) (Some a :: l)
  = py_min (if Decimal.ltb a x then Some a else Some x) l.
Proof. reflexivity. Qed.

Lemma py_max_numbers (l : list Q) (x : Q) :
  ∃ q, py_max (Some x) (Some <$> l) = Some q ∧ q ∈ x :: l ∧
       (x <= q)%Q ∧ ∀ z, z ∈ l → (z <= q)%Q.
Proof.
  revert x. induction l as [|a l IH]; intros x.
  - exists x. repeat split; [apply list_elem_of_here|apply Qle_refl|].
    intros z Hz. by apply elem_of_nil in Hz.
  - rewrite fmap_cons, py_max_cons.
    destruct (Decimal.ltb x a) eqn:E.
    + destruct (IH a) as (q & Hq & Hin & Hle & Hall).
      exists q. repeat split; [done|by apply elem_of_cons_skip| |].
      * apply decimal_ltb_true in E. apply Qlt_le_weak in E.
        by apply (Qle_trans _ a).
      * intros z Hz. apply elem_of_cons in Hz as [->|Hz]; auto.
    + destruct (IH x) as (q & Hq & Hin & Hle & Hall).
      exists q. repeat split; [done|by apply elem_of_cons_keep|done|].
      intros z Hz. apply elem_of_cons in Hz as [->|Hz]; auto.
      apply decimal_ltb_false in E. by apply (Qle_trans _ x).
Qed.

Lemma py_min_numbers (l : list Q) (x : Q) :
  ∃ q, py_min (Some x) (Some <$> l) = Some q ∧ q ∈ x :: l ∧
       (q <= x)%Q ∧ ∀ z, z ∈ l → (q <= z)%Q.
Proof.
  revert x. induction l as [|a l IH]; intros x.
  - exists x. repeat split; [apply list_elem_of_here|apply Qle_refl|].
    intros z Hz. by apply elem_of_nil in Hz.
  - rewrite fmap_cons, py_min_cons.
    destruct (Decimal.ltb a x) eqn:E.
    + destruct (IH a) as (q & Hq & Hin & Hle & Hall).
      exists q. repeat split; [done|by apply elem_of_cons_skip| |].
      * apply decimal_ltb_true in E. apply Qlt_le_weak in E.
        by apply (Qle_trans _ a).
      * intros z Hz. apply elem_of_cons in Hz as [->|Hz]; auto.
    + destruct (IH x) as (q & Hq & Hin & Hle & Hall).
      exists q. repeat split; [done|by apply elem_of_cons_keep|done|].
      intros z Hz. apply elem_of_cons in Hz as [->|Hz]; auto.
      apply decimal_ltb_false in E. by apply (Qle_trans _ x).
Qed.

Lemma last_default_irrelevant {A : Type} (b : A) (l : list A) (d d' : A) :
  List.last (b :: l) d = List.last (b :: l) d'.
Proof.
  revert b. induction l as [|a l IH]; intros b; [done|].
  change (List.last (a :: l) d = List.last (a :: l) d'). apply IH.
Qed.

Lemma last_cons_default {A : Type} (rest : list A) (x : A) :
  last (x :: rest) = Some (List.last rest x).
Proof.
  revert x. induction rest as [|a rest IH]; intros x; [done|].
  change (last (x :: a :: rest)) with (last (a :: rest)). rewrite IH.
  destruct rest as [|b rest]; [done|]. f_equal.
  change (List.last (a :: b :: rest) x) with (List.last (b :: rest) x).
  apply last_default_irrelevant.
Qed.

Lemma percentage_max (m : t) (opp : GradingOpportunity.t) x rest :
  opportunity m = Some opp → valid_percentages m = x :: rest →
  GradingOpportunity.aggregation_strategy opp
  = grade_aggregation_strategy.max_grade →
  percentage m = Ok (py_max x rest).
Proof. intros Ho Hv Hs. unfold percentage. by rewrite Ho, Hv, Hs. Qed.

Lemma percentage_min (m : t) (opp : GradingOpportunity.t) x rest :
  opportunity m = Some opp → valid_percentages m = x :: rest →
  GradingOpportunity.aggregation_strategy opp
  = grade_aggregation_strategy.min_grade →
  percentage m = Ok (py_min x rest).
Proof. intros Ho Hv Hs. unfold percentage. by rewrite Ho, Hv, Hs. Qed.

Lemma percentage_avg (m : t) (opp : GradingOpportunity.t) x rest :
  opportunity m = Some opp → valid_percentages m = x :: rest →
  GradingOpportunity.aggregation_strategy opp
  = grade_aggregation_strategy.avg_grade →
  percentage m
  = (s ← py_sum (x :: rest);
     q ← Decimal.div s (inject_Z (Z.of_nat (length (x :: rest))));
     Ok (Some q)).
Proof. intros Ho Hv Hs. unfold percentage. by rewrite Ho, Hv, Hs. Qed.

Lemma py_sum_from_error (l : list Q) (acc exact bound : Q) (k : nat) :
  (Qabs (acc - exact) <= rounding_error k * bound)%Q →
  (Qabs exact <= bound)%Q →
  ∃ s, py_sum_from acc (Some <$> l) = Ok s ∧
       (Qabs (s - (exact + foldr Qplus 0 l))
        <= rounding_error (k + length l)
           * (bound + foldr Qplus 0 (Qabs <$> l)))%Q ∧
       (Qabs (exact + foldr Qplus 0 l)
        <= bound + foldr Qplus 0 (Qabs <$> l))%Q.
Proof.
  revert acc exact bound k.
  induction l as [|a l IH]; intros acc exact bound k Hacc Hex;
    rewrite ?fmap_nil, ?fmap_cons; simpl foldr; simpl length;
    simpl py_sum_from.
  - exists acc. split; [done|]. rewrite Nat.add_0_r. split.
    + assert (acc - (exact + 0) == acc - exact)%Q as -> by ring.
      by rewrite Qplus_0_r.
    + by rewrite !Qplus_0_r.
  - destruct (IH (Decimal.add acc a) (exact + a)%Q (bound + Qabs a)%Q (S k))
      as (s & Hs & Herr & Hsum).
    + unfold Decimal.add.
      pose proof (round_error (acc + a)) as Hr.
      pose proof (Qabs_triangle_sub (Decimal.round (acc + a)) (acc + a)
                    (exact + a)) as Ht.
      assert (acc + a - (exact + a) == acc - exact)%Q as E by ring.
      rewrite E in Ht.
      assert (Qabs (acc + a) <= bound + Qabs a + rounding_error k * bound)%Q
        as H2.
      { assert (acc + a == (acc - exact) + (exact + a))%Q as E' by ring.
        rewrite E'. eapply Qle_trans; [apply Qabs_triangle|].
        pose proof (Qabs_triangle exact a). lra. }
      rewrite rounding_error_succ.
      pose proof half_ulp_pos as Hu. pose proof (rounding_error_nonneg k) as HR.
      pose proof (Qabs_nonneg a) as Ha. pose proof (Qabs_nonneg exact).
      assert (half_ulp * Qabs (acc + a)
              <= half_ulp * (bound + Qabs a + rounding_error k * bound))%Q
        by (apply Qmult_le_l; [done|lra]).
      assert (0 <= rounding_error k * Qabs a)%Q
        by (by apply Qmult_le_0_compat).
      assert (0 <= half_ulp * (rounding_error k * Qabs a))%Q
        by (apply Qmult_le_0_compat; [lra|done]).
      lra.
    + pose proof (Qabs_triangle exact a). lra.
    + exists s. split; [done|].
      replace (k + S (length l)) with (S k + length l) by lia. split.
      * assert (exact + (a + foldr Qplus 0 l) == exact + a + foldr Qplus 0 l)%Q
          as -> by ring.
        assert (bound + (Qabs a + foldr Qplus 0 (Qabs <$> l))
                == bound + Qabs a + foldr Qplus 0 (Qabs <$> l))%Q as -> by ring.
        done.
      * assert (exact + (a + foldr Qplus 0 l) == exact + a + foldr Qplus 0 l)%Q
          as -> by ring.
        assert (bound + (Qabs a + foldr Qplus 0 (Qabs <$> l))
                == bound + Qabs a + foldr Qplus 0 (Qabs <$> l))%Q as -> by ring.
        done.
Qed.

Lemma percentage_avg_numbers (m : t) (opp : GradingOpportunity.t) (q0 : Q)
    (qs : list Q) :
  opportunity m = Some opp → valid_percentages m = Some <$> (q0 :: qs) →
  GradingOpportunity.aggregation_strategy opp
  = grade_aggregation_strategy.avg_grade →
  ∃ s, py_sum (Some <$> (q0 :: qs)) = Ok s ∧
       percentage m
       = Ok (Some (Decimal.round
                     (s / inject_Z (Z.of_nat (length (q0 :: qs)))))).
Proof.
  intros Ho Hv Hs.
  destruct (py_sum_from_error (q0 :: qs) 0 0 0 0) as (s & Hsum & _).
  { by vm_compute. }
  { by vm_compute. }
  exists s. split; [done|]. rewrite fmap_cons in Hv.
  rewrite (percentage_avg m opp _ _ Ho Hv Hs), <- fmap_cons.
  unfold py_sum. rewrite Hsum. unfold mbind, outcome_bind.
  rewrite length_fmap, decimal_div_ok; [done|].
  unfold Qeq. simpl. lia.
Qed.

Lemma average_error (q0 : Q) (qs : list Q) (s : Q) :
  py_sum (Some <$> (q0 :: qs)) = Ok s →
  (Qabs (Decimal.round (s / inject_Z (Z.of_nat (length (q0 :: qs))))
         - mean (q0 :: qs))
   <= rounding_error (length (q0 :: qs) + 1) * mean (Qabs <$> (q0 :: qs)))%Q.
Proof.
  intros Hs.
  destruct (py_sum_from_error (q0 :: qs) 0 0 0 0) as (s' & Hsum & Herr & Hex).
  { by vm_compute. }
  { by vm_compute. }
  unfold py_sum in Hs. rewrite Hs in Hsum. injection Hsum as <-.
  rewrite Nat.add_0_l in Herr.
  assert (0 + foldr Qplus 0 (q0 :: qs) == foldr Qplus 0 (q0 :: qs))%Q as E1
    by ring.
  assert (0 + foldr Qplus 0 (Qabs <$> q0 :: qs)
          == foldr Qplus 0 (Qabs <$> q0 :: qs))%Q as E2 by ring.
  rewrite E1, E2 in Herr. rewrite E1, E2 in Hex.
  set (n := inject_Z (Z.of_nat (length (q0 :: qs)))).
  assert (0 < n)%Q as Hn by (unfold n, Qlt; simpl; lia).
  assert (¬ (n == 0)%Q) as Hn0 by lra.
  pose proof (round_div_error_scaled s (foldr Qplus 0%Q (q0 :: qs)) n
                (foldr Qplus 0%Q (Qabs <$> q0 :: qs)) (length (q0 :: qs))
                Hn0 Herr Hex) as H.
  rewrite (Qabs_pos n) in H by lra.
  unfold mean. rewrite length_fmap. fold n.
  by replace (length (q0 :: qs) + 1) with (S (length (q0 :: qs))) by lia.
Qed.

Lemma percentage_is_number (g : GradeChange.t) (p : option Q) (mp : Q) :
  GradeChange.max_points g = Some mp → GradeChange.percentage g = Ok p →
  ∃ q, p = Some q.
Proof.
  unfold GradeChange.percentage. intros ->.
  destruct (GradeChange.points g) as [pts|]; [|done].
  destruct (Decimal.div (Decimal.mul 100 pts) mp) as [q|e]; [|done].
  intros [= <-]. by exists q.
Qed.

(** The percentages of a reduction over grades that have a maximum are
    numbers. *)
Lemma consume_percentages_numbers {order : dict_order}
    (h : ref → GradeChange.t) (es : list ref) (flag : bool) :
  (consume order es flag (World __init__ h)).1 = Ok tt →
  (∀ r, r ∈ es →
        GradeChange.state (h r) = grade_state_change_types.graded →
        GradeChange.max_points (h r) ≠ None) →
  ∃ qs, valid_percentages (self (consume order es flag (World __init__ h)).2)
        = Some <$> qs.
Proof.
  intros Hok Hmp.
  destruct (consume_accumulates h es flag Hok) as (d & Hd & Hvp).
  revert Hvp.
  generalize (valid_percentages
                (self (consume order es flag (World __init__ h)).2)).
  assert (Forall (λ r, r ∈ es ∧
                       GradeChange.state (h r) = grade_state_change_types.graded)
            (filter (ungrouped_grade h) (since_last_reset h es)
             ++ order d)) as Hsrc.
  { apply Forall_app. split; apply Forall_forall; intros r Hr.
    - apply list_elem_of_filter in Hr as [[Hs _] Hin].
      split; [by apply (since_last_reset_elem_of h)|done].
    - apply elem_of_dict_values in Hr as [aid Hr]. rewrite Hd in Hr.
      apply final_of_attempt_Some in Hr as [[Hs _] Hin].
      split; [by apply (since_last_reset_elem_of h)|done]. }
  induction Hsrc as [|r l [Hin Hs] _ IH]; intros vp Hvp.
  - apply Forall2_nil_inv_l in Hvp as ->. by exists [].
  - apply Forall2_cons_inv_l in Hvp as (p & vp' & Hp & Hvp' & ->).
    destruct (IH vp' Hvp') as (qs & ->).
    destruct (GradeChange.max_points (h r)) as [mp|] eqn:Hm;
      [|by destruct (Hmp r Hin Hs)].
    destruct (percentage_is_number (h r) p mp Hm Hp) as [q ->].
    by exists (q :: qs).
Qed.

(** C7 as stated fails for the mean: the average of the percentages 100,
    100 and 0 of three grades is 66.66666666666666666666666667, which is
    not their arithmetic mean. *)
Lemma mean_is_rounded :
  valid_percentages
    (self (consume gmap_order [0; 1; 2] false
             (World __init__ grades_100_100_0)).2)
  = [Some 100%Q; Some 100%Q; Some 0%Q] ∧
  percentage
    (self (consume gmap_order [0; 1; 2] false
             (World __init__ grades_100_100_0)).2)
  = Ok (Some 66.66666666666666666666666667%Q) ∧
  ¬ (66.66666666666666666666666667 == mean [100; 100; 0])%Q.
Proof. split; [|split]; [reflexivity|reflexivity|by vm_compute]. Qed.

(** C7, amended: [percentage] is unset for a machine that has consumed no
    event or has no valid percentage. Otherwise, for percentages that are
    all numbers, it is their maximum under [max_grade] and their minimum
    under [min_grade]; under [avg_grade] it is their mean as decimal
    arithmetic computes it, every sum and the quotient rounded to 28
    significant digits, which is within as many roundings, plus one, as
    there are percentages, of the arithmetic mean; and it is the first
    entry under [use_earliest] and the last one under [use_latest]. For
    the percentages 100, 50 and 75 these are 75, 100, 50, 100 and 75.
    After a reduction over grades that have a maximum, the percentages
    are all numbers. *)
Theorem percentage_strategies (m : t) :
  (opportunity m = None ∨ valid_percentages m = [] → percentage m = Ok None) ∧
  (∀ opp q0 qs,
     opportunity m = Some opp →
     valid_percentages m = Some <$> (q0 :: qs) →
     (GradingOpportunity.aggregation_strategy opp
      = grade_aggregation_strategy.max_grade →
      ∃ q, percentage m = Ok (Some q) ∧ q ∈ q0 :: qs ∧
           ∀ z, z ∈ q0 :: qs → (z <= q)%Q) ∧
     (GradingOpportunity.aggregation_strategy opp
      = grade_aggregation_strategy.min_grade →
      ∃ q, percentage m = Ok (Some q) ∧ q ∈ q0 :: qs ∧
           ∀ z, z ∈ q0 :: qs → (q <= z)%Q) ∧
     (GradingOpportunity.aggregation_strategy opp
      = grade_aggregation_strategy.avg_grade →
      ∃ s q, py_sum (Some <$> (q0 :: qs)) = Ok s ∧
             q = Decimal.round (s / inject_Z (Z.of_nat (length (q0 :: qs)))) ∧
             percentage m = Ok (Some q) ∧
             (Qabs (q - mean (q0 :: qs))
              <= rounding_error (length (q0 :: qs) + 1)
                 * mean (Qabs <$> (q0 :: qs)))%Q)) ∧
  (∀ opp x rest,
     opportunity m = Some opp →
     valid_percentages m = x :: rest →
     (GradingOpportunity.aggregation_strategy opp
      = grade_aggregation_strategy.use_earliest →
      percentage m = Ok x ∧ head (x :: rest) = Some x) ∧
     (GradingOpportunity.aggregation_strategy opp
      = grade_aggregation_strategy.use_latest →
      ∃ y, percentage m = Ok y ∧ last (x :: rest) = Some y)) ∧
  (percentage (machine_100_50_75 "avg_grade") = Ok (Some 75%Q) ∧
   percentage (machine_100_50_75 "max_grade") = Ok (Some 100%Q) ∧
   percentage (machine_100_50_75 "min_grade") = Ok (Some 50%Q) ∧
   percentage (machine_100_50_75 "use_earliest") = Ok (Some 100%Q) ∧
   percentage (machine_100_50_75 "use_latest") = Ok (Some 75%Q)) ∧
  (∀ (order : dict_order) h es flag,
     m = self (consume order es flag (World __init__ h)).2 →
     (consume order es flag (World __init__ h)).1 = Ok tt →
     (∀ r, r ∈ es →
           GradeChange.state (h r) = grade_state_change_types.graded →
           GradeChange.max_points (h r) ≠ None) →
     ∃ qs, valid_percentages m = Some <$> qs).
Proof.
  split; [|split; [|split; [|split]]]; [| | |repeat split; reflexivity|].
  - unfold percentage. intros [->| ->]; [done|]. by destruct (opportunity m).
  - intros opp q0 qs Ho Hv. pose proof Hv as Hv'. rewrite fmap_cons in Hv'.
    repeat split; intros Hs.
    + rewrite (percentage_max m opp _ _ Ho Hv' Hs).
      destruct (py_max_numbers qs q0) as (q & -> & Hin & Hle & Hall).
      exists q. repeat split; [done|].
      intros z Hz. apply elem_of_cons in Hz as [->|Hz]; auto.
    + rewrite (percentage_min m opp _ _ Ho Hv' Hs).
      destruct (py_min_numbers qs q0) as (q & -> & Hin & Hle & Hall).
      exists q. repeat split; [done|].
      intros z Hz. apply elem_of_cons in Hz as [->|Hz]; auto.
    + destruct (percentage_avg_numbers m opp q0 qs Ho Hv Hs) as (s & Hsum & ->).
      exists s. eexists. split; [done|]. split; [reflexivity|]. split; [done|].
      by apply average_error.
  - intros opp x rest Ho Hv. unfold percentage. rewrite Ho, Hv.
    split; intros ->; simpl; [done|].
    exists (List.last rest x). split; [done|]. apply last_cons_default.
  - intros order h es flag -> Hok Hmp.
    by apply (consume_percentages_numbers h es flag).
Qed.

(** The mean, the maximum and the last of 100, 50 and 75. *)
Lemma percentage_strategies_witness :
  (∃ s q, py_sum (Some <$> [100; 50; 75]%Q) = Ok s ∧
          q = Decimal.round (s / inject_Z (Z.of_nat (length [100; 50; 75]%Q))) ∧
          percentage (machine_100_50_75 "avg_grade") = Ok (Some q) ∧
          (Qabs (q - mean [100; 50; 75])
           <= rounding_error (length [100; 50; 75]%Q + 1)
              * mean (Qabs <$> [100; 50; 75]))%Q) ∧
  (∃ q, percentage (machine_100_50_75 "max_grade") = Ok (Some q) ∧
        q ∈ [100%Q; 50%Q; 75%Q] ∧ ∀ z, z ∈ [100%Q; 50%Q; 75%Q] → (z <= q)%Q) ∧
  (∃ y, percentage (machine_100_50_75 "use_latest") = Ok y ∧
        last [Some 100%Q; Some 50%Q; Some 75%Q] = Some y).
Proof.
  split; [|split].
  - apply (proj2 (proj2 (proj1 (proj2
      (percentage_strategies (machine_100_50_75 "avg_grade")))
      (opportunity_1 "avg_grade" None) 100%Q [50%Q; 75%Q] eq_refl eq_refl))).
    reflexivity.
  - apply (proj1 (proj1 (proj2
      (percentage_strategies (machine_100_50_75 "max_grade")))
      (opportunity_1 "max_grade" None) 100%Q [50%Q; 75%Q] eq_refl eq_refl)).
    reflexivity.
  - apply (proj2 (proj1 (proj2 (proj2
      (percentage_strategies (machine_100_50_75 "use_latest"))))
      (opportunity_1 "use_latest" None) (Some 100%Q) [Some 50%Q; Some 75%Q]
      eq_refl eq_refl)).
    reflexivity.
Defined.

(** * Further properties of the reduction *)

(** ** What a reduction leaves in the machine *)

Lemma last_filter_snoc {A : Type} (P : A → Prop) `{∀ x, Decision (P x)}
    (l : list A) (x : A) :
  last (filter P (l ++ [x]))
  = if decide (P x) then Some x else last (filter P l).
Proof.
  rewrite filter_app, filter_cons, filter_nil. case_decide.
  - apply last_snoc.
  - by rewrite app_nil_r.
Qed.

Lemma head_snoc {A : Type} (l : list A) (x : A) :
  head (l ++ [x]) = Some (default x (head l)).
Proof. by destruct l. Qed.

Lemma after_checks_more (m : t) (g : GradeChange.t) :
  _last_grade_change_time m = None →
  _last_grade_change_time (after_checks m g) = None.
Proof.
  intros H. unfold after_checks. rewrite H. by destruct (opportunity m).
Qed.

(** Decisions on the state of an event whose state is known. *)
Ltac settle_state E :=
  repeat case_decide;
  repeat match goal with
  | H : has_state _ _ _ |- _ =>
      unfold has_state in H; rewrite E in H; vm_compute in H;
      first [discriminate H | clear H]
  | H : ¬ has_state _ _ _ |- _ =>
      unfold has_state in H; rewrite E in H;
      first [by exfalso; apply H | clear H]
  | H : sets_state _ _ |- _ =>
      unfold sets_state in H; rewrite E in H;
      first [ by vm_compute in H;
                 repeat (apply elem_of_cons in H as [H|H]; [discriminate H|]);
                 apply elem_of_nil in H
            | clear H ]
  | H : ¬ sets_state _ _ |- _ =>
      unfold sets_state in H; rewrite E in H;
      first [ by exfalso; apply H; apply (bool_decide_unpack _); vm_compute
            | clear H ]
  end.

Lemma turn_recorded (h : ref → GradeChange.t) (flag : bool)
    (pre : list ref) (x : ref) (w w' : world) :
  recorded h pre w →
  turn flag x w = (Ok tt, w') →
  recorded h (pre ++ [x]) w'.
Proof.
  intros (Hheap & Hopp & Hpk & Hlast & Hst & Hgt & Hrt & Hdt) Hrun.
  split.
  { intros r. eapply fields_unchanged_trans; [apply Hheap|].
    pose proof (turn_fields_unchanged flag x r w) as H. by rewrite Hrun in H. }
  rewrite turn_run in Hrun. apply step_run_ok in Hrun as [Hc Hdisp].
  assert (fields_unchanged (h x) (heap_write x false (heap w) x)) as Hg.
  { eapply fields_unchanged_trans; [apply Hheap|apply fields_unchanged_write]. }
  destruct Hg as (Hgo & _ & Hgs & _ & _ & _ & _ & Hgd & _ & Hgt' & _).
  destruct (after_checks_fields (self w) (heap_write x false (heap w) x))
    as (Hst1 & Hdt1 & _ & _ & Hlg1 & Hlr1 & Hopp1).
  pose proof (after_checks_more (self w) (heap_write x false (heap w) x) Hlast)
    as Hlast1.
  assert (Some (GradingOpportunity.pk (GradeChange.opportunity (h x)))
          = (λ r0, GradingOpportunity.pk (GradeChange.opportunity (h r0)))
              <$> head (pre ++ [x])) as Hpkx.
  { rewrite head_snoc. simpl. destruct Hc as [Hc _]. rewrite Hopp in Hc.
    destruct (head pre) as [e0|]; simpl in *; [|done].
    by rewrite Hc, Hgo. }
  assert (opportunity (after_checks (self w) (heap_write x false (heap w) x))
          = (λ r, GradeChange.opportunity (h r)) <$> head (pre ++ [x])) as Hopp'.
  { rewrite Hopp1, Hopp, head_snoc, Hgo. by destruct (head pre). }
  assert (due_time_in_force (self w) (heap_write x false (heap w) x)
          = match last (filter (has_state h grade_state_change_types.extension) pre) with
            | Some r => GradeChange.due_time (h r)
            | None => head (pre ++ [x]) ≫=
                (λ r, GradingOpportunity.due_time (GradeChange.opportunity (h r)))
            end) as Hdue'.
  { unfold due_time_in_force. rewrite Hopp, Hdt, head_snoc, Hgo.
    destruct (head pre) as [e0|] eqn:He0; simpl; [done|].
    destruct pre; [done|discriminate]. }
  rewrite <- Hdt1 in Hdue'.
  assert (∀ r, r ∈ pre ++ [x] →
     Some (GradingOpportunity.pk (GradeChange.opportunity (h r)))
     = (λ r0, GradingOpportunity.pk (GradeChange.opportunity (h r0)))
         <$> head (pre ++ [x])) as Hpk'.
  { intros r Hr. apply elem_of_app in Hr as [Hr|Hr].
    - rewrite (Hpk r Hr). rewrite head_snoc.
      destruct (head pre) as [e0|] eqn:He0; [done|].
      destruct pre; [by apply elem_of_nil in Hr|discriminate].
    - apply list_elem_of_singleton in Hr as ->. exact Hpkx. }
  set (g := heap_write x false (heap w) x) in *.
  set (m1 := after_checks (self w) g) in *.
  clearbody m1 g.
  rewrite <- Hst1 in Hst. rewrite <- Hlg1 in Hgt. rewrite <- Hlr1 in Hrt.
  clear Hst1 Hlg1 Hlr1 Hdt1 Hopp1 Hopp Hpk Hdt Hlast Hc Hpkx.
  rewrite !last_filter_snoc.
  destruct Hdisp as [aid d0 Hs Hacc Hbd Haid Hm | p Hs Hacc Hbd Haid Hp
                    | Hs | Hs | Hs | Hs | Hs | [Hs|Hs]];
    rewrite Hgs in Hs; settle_state Hs; simpl;
    unfold state_left_by; rewrite ?Hs, <- ?Hgd, <- ?Hgt'; simpl;
    repeat split; done.
Qed.

Lemma consume_flush_keeps {order : dict_order} (w w' : world) :
  consume_flush order w = (Ok tt, w') →
  heap w' = heap w ∧
  opportunity (self w') = opportunity (self w) ∧
  state (self w') = state (self w) ∧
  due_time (self w') = due_time (self w) ∧
  last_graded_time (self w') = last_graded_time (self w) ∧
  last_report_time (self w') = last_report_time (self w) ∧
  attempt_id_to_gchange (self w') = None.
Proof.
  intros H. apply consume_flush_ok in H as (d & ps & _ & _ & ->). by simpl.
Qed.

Lemma consume_loop_recorded (h : ref → GradeChange.t) (es : list ref)
    (flag : bool) (w1 : world) :
  consume_loop es flag (World __init__ h) = (Ok tt, w1) → recorded h es w1.
Proof.
  apply (for_each_ok_ind (recorded h) (turn flag) es
           (λ pre x w w' Hw _, turn_recorded h flag pre x w w' Hw)
           (World __init__ h) w1).
  split; [intros r; apply fields_unchanged_refl|].
  repeat split; try done. intros r Hr. by apply elem_of_nil in Hr.
Qed.

Lemma consume_recorded {order : dict_order} (h : ref → GradeChange.t)
    (es : list ref) (flag : bool) :
  (consume order es flag (World __init__ h)).1 = Ok tt →
  ∃ w1, consume_loop es flag (World __init__ h) = (Ok tt, w1) ∧
        recorded h es w1 ∧
        consume_flush order w1 = (Ok tt, (consume order es flag
                                            (World __init__ h)).2).
Proof.
  rewrite consume_run.
  destruct (consume_loop es flag (World __init__ h)) as [[[]|e] w1] eqn:Hloop;
    [|done].
  intros Hok. exists w1. split; [done|]. split.
  - by apply (consume_loop_recorded h es flag).
  - by destruct (consume_flush order w1) as [[[]|e] w2].
Qed.

(** X1: when [consume], run on a fresh machine, returns, the machine holds
    the opportunity of the first event of the list, and all the events of
    the list are of opportunities with the same primary key. *)
Theorem consume_one_opportunity (order : dict_order) (h : ref → GradeChange.t)
    (es : list ref)
    (flag : bool) :
  (consume order es flag (World __init__ h)).1 = Ok tt →
  opportunity (self (consume order es flag (World __init__ h)).2)
  = (λ r, GradeChange.opportunity (h r)) <$> head es ∧
  ∀ r1 r2, r1 ∈ es → r2 ∈ es →
    GradingOpportunity.pk (GradeChange.opportunity (h r1))
    = GradingOpportunity.pk (GradeChange.opportunity (h r2)).
Proof.
  intros Hok.
  destruct (consume_recorded h es flag Hok)
    as (w1 & _ & (_ & Hopp & Hpk & _) & Hflush).
  apply consume_flush_keeps in Hflush as (_ & -> & _). split; [done|].
  intros r1 r2 H1 H2. apply Hpk in H1, H2. congruence.
Qed.

(** X2: when [consume], run on a fresh machine, returns, the state of the
    machine is decided by the last event of the list whose kind is graded,
    unavailable, exempt or do_over: it is the kind of that event, except
    that do_over leaves no state; with no such event there is no state. *)
Theorem consume_final_state (order : dict_order) (h : ref → GradeChange.t)
    (es : list ref)
    (flag : bool) :
  (consume order es flag (World __init__ h)).1 = Ok tt →
  state (self (consume order es flag (World __init__ h)).2)
  = last (filter (sets_state h) es) ≫= (λ r, state_left_by (h r)).
Proof.
  intros Hok.
  destruct (consume_recorded h es flag Hok)
    as (w1 & _ & (_ & _ & _ & _ & Hst & _) & Hflush).
  by apply consume_flush_keeps in Hflush as (_ & _ & -> & _).
Qed.

(** X3: when [consume], run on a fresh machine, returns, [last_graded_time]
    is the grade time of the last graded event of the whole list, also
    across a do_over, and [last_report_time] that of the last report_sent
    event; each is [None] when there is no such event. *)
Theorem consume_final_times (order : dict_order) (h : ref → GradeChange.t)
    (es : list ref)
    (flag : bool) :
  (consume order es flag (World __init__ h)).1 = Ok tt →
  last_graded_time (self (consume order es flag (World __init__ h)).2)
  = (λ r, GradeChange.grade_time (h r))
      <$> last (filter (has_state h grade_state_change_types.graded) es) ∧
  last_report_time (self (consume order es flag (World __init__ h)).2)
  = (λ r, GradeChange.grade_time (h r))
      <$> last (filter (has_state h grade_state_change_types.report_sent) es).
Proof.
  intros Hok.
  destruct (consume_recorded h es flag Hok)
    as (w1 & _ & (_ & _ & _ & _ & _ & Hg & Hr & _) & Hflush).
  by apply consume_flush_keeps in Hflush as (_ & _ & _ & _ & -> & -> & _).
Qed.

(** X4: when [consume], run on a fresh machine, returns, [due_time] is the
    due time of the last extension event of the list, and with no
    extension the due time of the opportunity of the first event. *)
Theorem consume_final_due_time (order : dict_order) (h : ref → GradeChange.t)
    (es : list ref)
    (flag : bool) :
  (consume order es flag (World __init__ h)).1 = Ok tt →
  due_time (self (consume order es flag (World __init__ h)).2)
  = match last (filter (has_state h grade_state_change_types.extension) es) with
    | Some r => GradeChange.due_time (h r)
    | None =>
        head es ≫= (λ r, GradingOpportunity.due_time (GradeChange.opportunity (h r)))
    end.
Proof.
  intros Hok.
  destruct (consume_recorded h es flag Hok)
    as (w1 & _ & (_ & _ & _ & _ & _ & _ & _ & Hd) & Hflush).
  by apply consume_flush_keeps in Hflush as (_ & _ & _ & -> & _).
Qed.

(** ** A grade after the opportunity is closed *)

Lemma dispatch_rejected (r : ref) (g : GradeChange.t) (flag : bool) (m : t)
    (h : ref → GradeChange.t) (s : string) :
  GradeChange.state g = grade_state_change_types.graded →
  state m = Some s →
  s = grade_state_change_types.unavailable ∨ s = grade_state_change_types.exempt →
  dispatch r g flag (World m h)
  = (Raise (ValueError
       ("cannot accept grade once opportunity has been marked '" +:+ s +:+ "'")),
     World m h).
Proof.
  intros Hs Hm [-> | ->]; unfold dispatch; exec; rewrite Hs; simpl;
    rewrite Hm; reflexivity.
Qed.

(** X5: a graded event that follows events accepted by the loop, the last
    state-setting one of which marked the opportunity unavailable or
    exempt, makes [consume] raise the [ValueError] that names that mark,
    whatever follows in the list. *)
Theorem grade_after_closing_raises (order : dict_order)
    (h : ref → GradeChange.t)
    (pre post : list ref) (u x : ref) (flag : bool) :
  (consume_loop pre flag (World __init__ h)).1 = Ok tt →
  last (filter (sets_state h) pre) = Some u →
  GradeChange.state (h u) = grade_state_change_types.unavailable ∨
  GradeChange.state (h u) = grade_state_change_types.exempt →
  GradeChange.state (h x) = grade_state_change_types.graded →
  GradingOpportunity.pk (GradeChange.opportunity (h x))
  = GradingOpportunity.pk (GradeChange.opportunity (h u)) →
  (consume order (pre ++ x :: post) flag (World __init__ h)).1
  = Raise (ValueError
      ("cannot accept grade once opportunity has been marked '"
       +:+ GradeChange.state (h u) +:+ "'")).
Proof.
  intros Hok Hu Hsu Hsx Hpk.
  destruct (consume_loop pre flag (World __init__ h)) as [[[]|e] w1] eqn:Hloop;
    [|done].
  pose proof (consume_loop_recorded h pre flag w1 Hloop)
    as (Hheap & Hopp & Hpks & Hlast & Hst & _).
  rewrite consume_run, consume_loop_app, run_bind, Hloop, consume_loop_cons.
  rewrite turn_run.
  assert (fields_unchanged (h x) (heap_write x false (heap w1) x)) as Hg.
  { eapply fields_unchanged_trans; [apply Hheap|apply fields_unchanged_write]. }
  destruct Hg as (Hgo & _ & Hgs & _).
  assert (u ∈ pre) as Hin.
  { apply last_Some_elem_of in Hu. by apply list_elem_of_filter in Hu as [_ ?]. }
  rewrite step_checks_pass.
  - destruct (after_checks_fields (self w1) (heap_write x false (heap w1) x))
      as (Hst1 & _).
    rewrite (dispatch_rejected x _ flag _ _ (GradeChange.state (h u))); [done| | |done].
    + by rewrite Hgs.
    + rewrite Hst1, Hst, Hu. simpl. unfold state_left_by.
      destruct Hsu as [E|E]; by rewrite E.
  - split; [|by rewrite Hlast].
    rewrite Hopp. apply Hpks in Hin.
    destruct (head pre) as [e0|]; simpl in *; [|done].
    rewrite Hgo. congruence.
Qed.

(** ** Events that are not grades *)

(** X6: an event that passes the opportunity check and is not a grade is
    accepted by [_consume_grade_change] when its kind is one of the seven
    other kinds; of any other kind it raises the [RuntimeError] that quotes
    the kind, after the opportunity and due time have been taken over and
    with no event written. *)
Theorem other_events_accepted_or_unknown (r : ref) (flag : bool) (w : world) :
  checks_pass (self w) (heap w r) →
  GradeChange.state (heap w r) ≠ grade_state_change_types.graded →
  (GradeChange.state (heap w r) ∈ other_kinds →
   (_consume_grade_change r flag w).1 = Ok tt) ∧
  (GradeChange.state (heap w r) ∉ other_kinds →
   _consume_grade_change r flag w
   = (Raise (RuntimeError
        ("invalid grade change state '" +:+ GradeChange.state (heap w r) +:+ "'")),
      World (after_checks (self w) (heap w r)) (heap w))).
Proof.
  destruct w as [m h]. simpl. intros Hc Hng. split.
  - intros Hin.
    assert (∃ w', dispatch_ok r (h r) flag (after_checks m (h r)) h w')
      as [w' Hd].
    { unfold other_kinds in Hin.
      repeat (apply elem_of_cons in Hin as [Hin|Hin];
              [eexists; first [ by apply ok_unavailable | by apply ok_do_over
                              | by apply ok_exempt | by apply ok_report_sent
                              | by apply ok_extension
                              | apply ok_informational; by left
                              | apply ok_informational; by right ]|]).
      by apply elem_of_nil in Hin. }
    by rewrite (proj2 (step_run_ok r flag m h w') (conj Hc Hd)).
  - intros Hnot. rewrite step_checks_pass by done.
    unfold dispatch. exec.
    repeat case_decide; try done;
      exfalso; apply Hnot; unfold other_kinds;
      match goal with
      | E : GradeChange.state (h r) = _ |- _ =>
          rewrite E; apply (bool_decide_unpack _); by vm_compute
      | E : GradeChange.state (h r) ∈ _ |- _ =>
          apply elem_of_cons in E as [E|E];
          [|apply list_elem_of_singleton in E];
          rewrite E; apply (bool_decide_unpack _); by vm_compute
      end.
Qed.

(** ** A machine that has been flushed *)

(** X7: a machine whose [attempt_id_to_gchange] has been deleted does not
    consume a list without an unavailable, exempt or do_over event: only
    these, through [_clear_grades], bring the attribute back. *)
Theorem flushed_machine_needs_reset (order : dict_order) (w : world)
    (es : list ref) (flag : bool) :
  attempt_id_to_gchange (self w) = None →
  (∀ r, r ∈ es → is_reset (heap w r) = false) →
  (consume order es flag w).1 ≠ Ok tt.
Proof.
  intros Hnone Hnr Hok. rewrite consume_run in Hok.
  destruct (consume_loop es flag w) as [[[]|e] w1] eqn:Hloop; [|done].
  assert (attempt_id_to_gchange (self w1) = None ∧
          ∀ r, fields_unchanged (heap w r) (heap w1 r)) as [Hn1 _].
  { apply (for_each_ok_ind
             (λ _ w', attempt_id_to_gchange (self w') = None ∧
                      ∀ r, fields_unchanged (heap w r) (heap w' r))
             (turn flag) es) with (w := w); [| |exact Hloop].
    - intros pre x wa wb [Hna Hfa] Hx Hrun. split.
      2:{ intros r. eapply fields_unchanged_trans; [apply Hfa|].
          pose proof (turn_fields_unchanged flag x r wa) as H.
          by rewrite Hrun in H. }
      rewrite turn_run in Hrun. apply step_run_ok in Hrun as [_ Hd].
      assert (fields_unchanged (heap w x) (heap_write x false (heap wa) x)) as Hg.
      { eapply fields_unchanged_trans; [apply Hfa|apply fields_unchanged_write]. }
      destruct Hg as (_ & _ & Hgs & _).
      destruct (after_checks_fields (self wa) (heap_write x false (heap wa) x))
        as (_ & _ & _ & Hmap & _).
      rewrite Hna in Hmap. specialize (Hnr x Hx).
      destruct Hd as [aid d0 Hs Hacc Hbd Haid Hm | p Hs Hacc Hbd Haid Hp
                     | Hs | Hs | Hs | Hs | Hs | Hs]; simpl; try done.
      + congruence.
      + rewrite is_reset_true in Hnr; [done|]. left. congruence.
      + rewrite is_reset_true in Hnr; [done|]. right; left. congruence.
      + rewrite is_reset_true in Hnr; [done|]. right; right. congruence.
    - split; [done|]. intros r. apply fields_unchanged_refl. }
  rewrite consume_flush_run, Hn1 in Hok. discriminate Hok.
Qed.

(** ** No grade since the last reset *)

(** X8: when [consume], run on a fresh machine, returns and no event since
    the last reset is a grade, [valid_percentages] is empty and
    [percentage] returns [None]. *)
Theorem no_grade_no_percentage (order : dict_order) (h : ref → GradeChange.t)
    (es : list ref)
    (flag : bool) :
  (consume order es flag (World __init__ h)).1 = Ok tt →
  (∀ r, r ∈ since_last_reset h es →
        GradeChange.state (h r) ≠ grade_state_change_types.graded) →
  valid_percentages (self (consume order es flag (World __init__ h)).2) = [] ∧
  percentage (self (consume order es flag (World __init__ h)).2) = Ok None.
Proof.
  intros Hok Hng.
  destruct (consume_accumulates h es flag Hok) as (d & Hd & Hvp).
  assert (d = ∅) as ->.
  { apply map_eq. intros aid. rewrite lookup_empty, Hd.
    unfold final_of_attempt.
    destruct (last _) as [r|] eqn:Hl; [|done].
    apply last_Some_elem_of, list_elem_of_filter in Hl as [[Hs _] Hin].
    by destruct (Hng r Hin). }
  assert (filter (ungrouped_grade h) (since_last_reset h es) = []) as Hf.
  { destruct (filter _ _) as [|r l] eqn:Hl; [done|].
    assert (r ∈ filter (ungrouped_grade h) (since_last_reset h es)) as Hr
      by (rewrite Hl; apply list_elem_of_here).
    apply list_elem_of_filter in Hr as [[Hs _] Hin]. by destruct (Hng r Hin). }
  rewrite Hf, dict_values_empty in Hvp. simpl in Hvp.
  apply Forall2_nil_inv_l in Hvp. split; [done|].
  unfold percentage. rewrite Hvp. by destruct (opportunity _).
Qed.

(** ** Which events are marked as superseded *)

Lemma for_each_ok_ind_split {A : Type} (I : list A → world → Prop)
    (body : A → M unit) (l : list A) :
  (∀ pre x suf w w', l = pre ++ x :: suf → I pre w →
     body x w = (Ok tt, w') → I (pre ++ [x]) w') →
  ∀ w w', I [] w → for_each l body w = (Ok tt, w') → I l w'.
Proof.
  intros Hbody.
  cut (∀ suf pre w w', pre ++ suf = l → I pre w →
         for_each suf body w = (Ok tt, w') → I (pre ++ suf) w').
  { intros H w w' HI Hrun. apply (H l [] w w'); auto. }
  induction suf as [|x suf IH]; intros pre w w' Hl HI Hrun; simpl in Hrun.
  - rewrite app_nil_r. unfold mret, M_ret in Hrun. congruence.
  - rewrite run_bind in Hrun.
    destruct (body x w) as [[[]|e] w1] eqn:Hx; [|discriminate].
    replace (pre ++ x :: suf) with ((pre ++ [x]) ++ suf)
      by (rewrite <- app_assoc; reflexivity).
    apply (IH _ w1); auto.
    + rewrite <- app_assoc. exact Hl.
    + by apply (Hbody pre x suf w).
Qed.

Lemma grade_of_attempt_inj (h : ref → GradeChange.t) (a a' : string) (r : ref) :
  grade_of_attempt h a r → grade_of_attempt h a' r → a = a'.
Proof. intros [_ H] [_ H']. congruence. Qed.

Lemma superseded_in_snoc_other (h : ref → GradeChange.t) (l : list ref)
    (x r : ref) :
  (∀ aid, ¬ grade_of_attempt h aid x) →
  superseded_in h (l ++ [x]) r ↔ superseded_in h l r.
Proof.
  intros Hx. unfold superseded_in.
  split; intros (aid & Hg & Hf); exists aid; (split; [done|]);
    rewrite final_of_attempt_snoc in *;
    by rewrite decide_False in * by apply Hx.
Qed.

Lemma turn_marked (h : ref → GradeChange.t) (pre : list ref) (x : ref)
    (w w' : world) :
  x ∉ pre →
  accumulated h pre w → marked h pre w →
  turn true x w = (Ok tt, w') →
  marked h (pre ++ [x]) w'.
Proof.
  intros Hfresh [Hheap (d & Hd & Hfin & _)] Hmark Hrun.
  rewrite turn_run in Hrun. apply step_run_ok in Hrun as [_ Hdisp].
  assert (fields_unchanged (h x) (heap_write x false (heap w) x)) as Hg.
  { eapply fields_unchanged_trans; [apply Hheap|apply fields_unchanged_write]. }
  destruct Hg as (_ & _ & Hgs & Hga & _).
  destruct (after_checks_fields (self w) (heap_write x false (heap w) x))
    as (_ & _ & _ & Hmap & _).
  set (g := heap_write x false (heap w) x) in *.
  set (m1 := after_checks (self w) g) in *.
  clearbody m1 g. rewrite Hd in Hmap.
  assert (x ∉ since_last_reset h pre) as HxS.
  { intros H. by apply Hfresh, (since_last_reset_elem_of h). }
  assert (∀ r, r ∈ since_last_reset h pre ++ [x] →
            (∀ aid, ¬ grade_of_attempt h aid x) →
            (superseded_in h (since_last_reset h pre ++ [x]) r →
             GradeChange.is_superseded (heap_write x false (heap w) r) = Some true) ∧
            (¬ superseded_in h (since_last_reset h pre ++ [x]) r →
             GradeChange.is_superseded (heap_write x false (heap w) r) = Some false))
    as Hother.
  { intros r Hr Hx. rewrite superseded_in_snoc_other by done.
    apply elem_of_app in Hr as [Hr|Hr].
    - rewrite heap_write_other by (by intros ->). by apply Hmark.
    - apply list_elem_of_singleton in Hr as ->. rewrite heap_write_same.
      split; [|done]. intros (aid & Hgx & _). by destruct (Hx aid). }
  unfold marked. rewrite since_last_reset_snoc.
  destruct Hdisp as [aid d0 Hs Hacc Hbd Haid Hm | p Hs Hacc Hbd Haid Hp
                    | Hs | Hs | Hs | Hs | Hs | Hs]; simpl.
  - rewrite is_reset_false by (left; congruence).
    assert (d0 = d) as -> by congruence.
    assert (grade_of_attempt h aid x) as Hgx by (split; congruence).
    intros r Hr. unfold supersede.
    assert (∀ e, d !! aid = Some e → grade_of_attempt h aid e ∧ e ≠ x) as He.
    { intros e He. rewrite Hfin in He.
      apply final_of_attempt_Some in He as [? ?]. split; [done|]. by intros ->. }
    assert (superseded_in h (since_last_reset h pre ++ [x]) r ↔
            r ≠ x ∧ (d !! aid = Some r ∨ superseded_in h (since_last_reset h pre) r))
      as Hiff.
    { unfold superseded_in. split.
      - intros (a & Hga' & Hf). rewrite final_of_attempt_snoc in Hf.
        case_decide as Hdx.
        + pose proof (grade_of_attempt_inj h _ _ _ Hdx Hgx) as ->.
          split; [congruence|].
          destruct (decide (d !! aid = Some r)); [by left|right].
          exists aid. split; [done|]. by rewrite <- Hfin.
        + split.
          * intros ->. by destruct Hdx.
          * right. by exists a.
      - intros [Hne [Hdr|(a & Hga' & Hf)]].
        + exists aid. split; [by apply He|].
          rewrite final_of_attempt_snoc, decide_True by done. congruence.
        + exists a. split; [done|]. rewrite final_of_attempt_snoc.
          case_decide; [congruence|done]. }
    rewrite Hiff.
    destruct (decide (r = x)) as [->|Hne].
    + assert (GradeChange.is_superseded
                (match d !! aid with
                 | Some earlier => heap_write earlier true (heap_write x false (heap w))
                 | None => heap_write x false (heap w)
                 end x) = Some false) as ->.
      { destruct (d !! aid) as [e|] eqn:Hde.
        - destruct (He e eq_refl) as [_ Hex].
          rewrite heap_write_other by done. apply heap_write_same.
        - apply heap_write_same. }
      split; [by intros [? _]|done].
    + apply elem_of_app in Hr as [Hr|Hr];
        [|by apply list_elem_of_singleton in Hr].
      destruct (Hmark r Hr) as [Ht Hf].
      destruct (d !! aid) as [e|] eqn:Hde.
      * destruct (decide (r = e)) as [->|Hre].
        -- rewrite heap_write_same. split; [done|]. intros Hn.
           destruct Hn. split; [done|by left].
        -- rewrite !heap_write_other by done. split.
           ++ intros [_ [Heq|Hsup]]; [congruence|by apply Ht].
           ++ intros Hn. apply Hf. intros Hsup. apply Hn. by split; [|right].
      * rewrite heap_write_other by done. split.
        -- intros [_ [Heq|Hsup]]; [done|by apply Ht].
        -- intros Hn. apply Hf. intros Hsup. apply Hn. by split; [|right].
  - rewrite is_reset_false by (left; congruence).
    intros r Hr. apply Hother; [done|]. intros aid [_ Ha]. congruence.
  - rewrite is_reset_true by (left; congruence).
    intros r Hr. by apply elem_of_nil in Hr.
  - rewrite is_reset_true by (right; left; congruence).
    intros r Hr. by apply elem_of_nil in Hr.
  - rewrite is_reset_true by (right; right; congruence).
    intros r Hr. by apply elem_of_nil in Hr.
  - rewrite is_reset_false by (right; left; congruence).
    intros r Hr. apply Hother; [done|]. intros aid [Hsx _].
    rewrite <- Hgs, Hs in Hsx. discriminate Hsx.
  - rewrite is_reset_false by (right; right; left; congruence).
    intros r Hr. apply Hother; [done|]. intros aid [Hsx _].
    rewrite <- Hgs, Hs in Hsx. discriminate Hsx.
  - rewrite is_reset_false
      by (right; right; right; destruct Hs; [left|right]; congruence).
    intros r Hr. apply Hother; [done|]. intros aid [Hsx _].
    rewrite <- Hgs in Hsx. destruct Hs as [Hs|Hs];
      rewrite Hs in Hsx; discriminate Hsx.
Qed.

(** X9: after [consume] with [set_is_superseded], run on a fresh machine
    and a list without repetition, an event since the last reset is marked
    superseded exactly when it is a grade of an attempt that has a later
    grade since that reset; every other such event is marked not
    superseded. *)
Theorem supersession_marks (order : dict_order) (h : ref → GradeChange.t)
    (es : list ref) :
  NoDup es →
  (consume order es true (World __init__ h)).1 = Ok tt →
  ∀ r, r ∈ since_last_reset h es →
    (superseded_in h (since_last_reset h es) r →
     GradeChange.is_superseded
       (heap (consume order es true (World __init__ h)).2 r) = Some true) ∧
    (¬ superseded_in h (since_last_reset h es) r →
     GradeChange.is_superseded
       (heap (consume order es true (World __init__ h)).2 r) = Some false).
Proof.
  intros Hnd Hok. rewrite consume_heap. rewrite consume_run in Hok.
  destruct (consume_loop es true (World __init__ h)) as [[[]|e] w1] eqn:Hloop;
    [|done].
  simpl.
  assert (accumulated h es w1 ∧ marked h es w1) as [_ Hm]; [|exact Hm].
  apply (for_each_ok_ind_split (λ pre w, accumulated h pre w ∧ marked h pre w)
           (turn true) es) with (w := World __init__ h); [| |exact Hloop].
  - intros pre x suf w w' Hes [Hacc Hmk] Hrun. split.
    + by apply (turn_accumulated h true pre x w).
    + apply (turn_marked h pre x w); try done.
      rewrite Hes in Hnd. apply NoDup_app in Hnd as (_ & Hd & _).
      intros Hin. apply (Hd x Hin). apply list_elem_of_here.
  - split.
    + split; [intros r; apply fields_unchanged_refl|].
      exists ∅. split; [done|]. split; [|constructor].
      intros aid. by rewrite lookup_empty.
    + intros r Hr. by apply elem_of_nil in Hr.
Qed.

Lemma turn_unmarked (h : ref → GradeChange.t) (flag : bool) (pre : list ref)
    (x : ref) (w : world) (r : ref) :
  accumulated h pre w →
  (∀ aid, ¬ grade_of_attempt h aid r) →
  (r ∈ pre → GradeChange.is_superseded (heap w r) = Some false) →
  r ∈ pre ++ [x] →
  GradeChange.is_superseded (heap (turn flag x w).2 r) = Some false.
Proof.
  intros [_ (d & Hd & Hfin & _)] Hr Hpre Hin. rewrite turn_run.
  assert (GradeChange.is_superseded (heap_write x false (heap w) r) = Some false)
    as H1.
  { destruct (decide (r = x)) as [->|Hne]; [apply heap_write_same|].
    rewrite heap_write_other by done. apply Hpre.
    apply elem_of_app in Hin as [Hin|Hin]; [done|].
    by apply list_elem_of_singleton in Hin. }
  destruct (step_heap x flag (self w) (heap_write x false (heap w)))
    as [->|(d' & aid & earlier & _ & Hd' & He & ->)]; [done|].
  simpl in Hd'. assert (d' = d) as -> by congruence.
  rewrite Hfin in He. apply final_of_attempt_Some in He as [Hg _].
  rewrite heap_write_other; [done|]. intros ->. by destruct (Hr aid).
Qed.

(** X10: whatever the flag, an event of the list that is not a grade with
    an attempt id ends with [is_superseded] false after [consume] on a
    fresh machine. *)
Theorem only_attempt_grades_marked (order : dict_order)
    (h : ref → GradeChange.t) (es : list ref)
    (flag : bool) (r : ref) :
  (consume order es flag (World __init__ h)).1 = Ok tt →
  r ∈ es →
  (∀ aid, ¬ grade_of_attempt h aid r) →
  GradeChange.is_superseded (heap (consume order es flag
                                     (World __init__ h)).2 r)
  = Some false.
Proof.
  intros Hok Hin Hr. rewrite consume_heap. rewrite consume_run in Hok.
  destruct (consume_loop es flag (World __init__ h)) as [[[]|e] w1] eqn:Hloop;
    [|done].
  simpl.
  assert (accumulated h es w1 ∧
          (r ∈ es → GradeChange.is_superseded (heap w1 r) = Some false))
    as [_ H]; [|by apply H].
  apply (for_each_ok_ind
           (λ pre w, accumulated h pre w ∧
                     (r ∈ pre → GradeChange.is_superseded (heap w r) = Some false))
           (turn flag) es) with (w := World __init__ h); [| |exact Hloop].
  - intros pre x w w' [Hacc Hpre] _ Hrun. split.
    + by apply (turn_accumulated h flag pre x w).
    + intros Hin'.
      pose proof (turn_unmarked h flag pre x w r Hacc Hr Hpre Hin') as H.
      by rewrite Hrun in H.
  - split.
    + split; [intros r0; apply fields_unchanged_refl|].
      exists ∅. split; [done|]. split; [|constructor].
      intros aid. by rewrite lookup_empty.
    + intros H. by apply elem_of_nil in H.
Qed.

(** ** Bounds on percentages *)

Lemma ten_pow_values :
  (10 ^ 0 == 1)%Q ∧ (10 ^ 2 == 100)%Q ∧
  (10 ^ 28 == 10000000000000000000000000000)%Q ∧
  (10 ^ 30 == 1000000000000000000000000000000)%Q ∧
  (10 ^ 58
   == 10000000000000000000000000000000000000000000000000000000000)%Q ∧
  (half_ulp == 1 # 2000000000000000000000000000)%Q.
Proof. repeat split; by vm_compute. Qed.

(** A rounding does not leave the range from 0 to 100, nor does it when
    the number exceeds 100 by less than half a unit of the last digit. *)
Lemma round_in_range (x : Q) :
  (0 <= x)%Q → (x <= (1 + half_ulp) * 100)%Q →
  in_range 0 100 (Decimal.round x).
Proof.
  intros H0 Hx. split; [by apply round_nonneg|].
  destruct (Qeq_dec x 0) as [E|E]; [by rewrite (round_zero x E)|].
  destruct ten_pow_values as (E0 & E2 & E28 & _ & _ & Eu).
  destruct (Qlt_le_dec 100 x) as [Hlt|Hle].
  - rewrite (round_tie x 2); [by rewrite E2|]. rewrite E2. split; lra.
  - assert (Decimal.round x <= inject_Z 100 * 10 ^ 0)%Q as H.
    { apply round_le; [lra| |].
      - rewrite E0. change (inject_Z 100) with 100%Q. lra.
      - change (0 + 28)%Z with 28%Z. rewrite E28. lra. }
    rewrite E0 in H. change (inject_Z 100) with 100%Q in H. lra.
Qed.

Lemma grade_percentage_in_range (g : GradeChange.t) :
  well_formed_grade g →
  ∃ q, GradeChange.percentage g = Ok (Some q) ∧ in_range 0 100 q.
Proof.
  intros (p & mp & Hp & Hm & H0 & Hle & Hpos).
  rewrite (percentage_with_points g p mp Hp Hm) by lra.
  eexists. split; [done|].
  assert (0 <= 100 * p)%Q as H100 by lra.
  pose proof (round_relative (100 * p) H100) as [_ Hhi].
  pose proof (round_nonneg (100 * p) H100) as Hlo.
  pose proof half_ulp_pos as Hu.
  apply round_in_range.
  - apply Qle_shift_div_l; [done|]. lra.
  - apply Qle_shift_div_r; [done|]. nra.
Qed.

(** The sum of numbers between 0 and 100, as [sum] computes it, does not
    exceed 100 times their number. *)
Lemma py_sum_from_in_range (l : list Q) (acc : Q) (k : nat) :
  Forall (in_range 0 100) l →
  (0 <= acc)%Q → (acc <= 100 * inject_Z (Z.of_nat k))%Q →
  (acc <= 10 ^ 30)%Q →
  ∃ s, py_sum_from acc (Some <$> l) = Ok s ∧ (0 <= s)%Q ∧
       (s <= 100 * inject_Z (Z.of_nat (k + length l)))%Q.
Proof.
  intros Hl. revert acc k.
  induction Hl as [|a l [Ha0 Ha1] _ IH]; intros acc k H0 Hk Hcap;
    rewrite ?fmap_nil, ?fmap_cons; simpl py_sum_from; simpl length.
  - exists acc. by rewrite Nat.add_0_r.
  - replace (k + S (length l)) with (S k + length l) by lia.
    destruct ten_pow_values as (_ & E2 & _ & E30 & E58 & Eu).
    assert (inject_Z (Z.of_nat (S k)) == inject_Z (Z.of_nat k) + 1)%Q as Ek.
    { rewrite Nat2Z.inj_succ. unfold Z.succ. by rewrite inject_Z_plus. }
    apply IH; unfold Decimal.add.
    + apply round_nonneg. lra.
    + rewrite Ek.
      destruct (Qeq_dec (acc + a) 0) as [E|E].
      { rewrite (round_zero _ E). rewrite E30 in Hcap. lra. }
      destruct (Qlt_le_dec (acc + a) (10 ^ 30)) as [Hlt|Hge].
      * assert (Decimal.round (acc + a)
                <= inject_Z (Z.of_nat (S k)) * 10 ^ 2)%Q as H.
        { apply round_le; [lra| |by change (2 + 28)%Z with 30%Z].
          rewrite Ek, E2. lra. }
        rewrite Ek, E2 in H. lra.
      * rewrite (round_tie (acc + a) 30); [rewrite E30 in *; lra|].
        rewrite E30 in *. split; lra.
    + destruct (Qeq_dec (acc + a) 0) as [E|E].
      { rewrite (round_zero _ E). rewrite E30. lra. }
      destruct (Qlt_le_dec (acc + a) (10 ^ 30)) as [Hlt|Hge].
      * assert (Decimal.round (acc + a) <= inject_Z 1 * 10 ^ 30)%Q as H.
        { apply round_le; [lra| |].
          - change (inject_Z 1) with 1%Q. lra.
          - change (30 + 28)%Z with 58%Z. rewrite E58.
            rewrite E30 in Hlt. lra. }
        change (inject_Z 1) with 1%Q in H. lra.
      * rewrite (round_tie (acc + a) 30); [lra|].
        rewrite E30 in *. split; lra.
Qed.

Lemma average_in_range (q0 : Q) (qs : list Q) (s : Q) :
  Forall (in_range 0 100) (q0 :: qs) →
  py_sum (Some <$> (q0 :: qs)) = Ok s →
  in_range 0 100
    (Decimal.round (s / inject_Z (Z.of_nat (length (q0 :: qs))))).
Proof.
  intros Hall Hs.
  destruct (py_sum_from_in_range (q0 :: qs) 0 0 Hall) as (s' & Hs' & H0 & Hn).
  { lra. }
  { change (inject_Z (Z.of_nat 0)) with 0%Q. lra. }
  { by vm_compute. }
  unfold py_sum in Hs. rewrite Hs in Hs'. injection Hs' as <-.
  rewrite Nat.add_0_l in Hn.
  set (n := inject_Z (Z.of_nat (length (q0 :: qs)))) in *.
  assert (0 < n)%Q as Hpos by (unfold n, Qlt; simpl; lia).
  pose proof half_ulp_pos.
  apply round_in_range.
  - apply Qle_shift_div_l; [done|]. lra.
  - apply Qle_shift_div_r; [done|]. nra.
Qed.

Lemma percentage_in_range (m : t) (opp : GradingOpportunity.t)
    (q0 : Q) (qs : list Q) :
  opportunity m = Some opp →
  GradingOpportunity.aggregation_strategy opp ∈ strategies →
  valid_percentages m = Some <$> (q0 :: qs) →
  Forall (in_range 0 100) (q0 :: qs) →
  ∃ q, percentage m = Ok (Some q) ∧ in_range 0 100 q.
Proof.
  intros Ho Hs Hv' Hall. pose proof Hv' as Hv. rewrite fmap_cons in Hv.
  assert (∀ z, z ∈ q0 :: qs → in_range 0 100 z) as Hin
    by (by apply Forall_forall).
  unfold strategies in Hs.
  apply elem_of_cons in Hs as [Hs|Hs]; [|apply elem_of_cons in Hs as [Hs|Hs]];
    [| |apply elem_of_cons in Hs as [Hs|Hs]];
    [| | |apply elem_of_cons in Hs as [Hs|Hs]];
    [| | | |apply list_elem_of_singleton in Hs].
  - rewrite (percentage_max m opp _ _ Ho Hv Hs).
    destruct (py_max_numbers qs q0) as (q & -> & Hq & _). eauto.
  - rewrite (percentage_min m opp _ _ Ho Hv Hs).
    destruct (py_min_numbers qs q0) as (q & -> & Hq & _). eauto.
  - destruct (percentage_avg_numbers m opp q0 qs Ho Hv' Hs) as (s & Hsum & ->).
    eexists. split; [done|]. by apply average_in_range.
  - unfold percentage. rewrite Ho, Hv, Hs. simpl. exists q0. split; [done|].
    apply Hin, list_elem_of_here.
  - unfold percentage. rewrite Ho, Hv, Hs. simpl.
    pose proof (last_cons_default (Some <$> qs) (Some q0)) as Hl.
    rewrite <- fmap_cons, fmap_last in Hl.
    destruct (last (q0 :: qs)) as [q|] eqn:Hlq; [|done].
    simpl in Hl. injection Hl as <-. exists q. split; [done|].
    by apply Hin, last_Some_elem_of.
Qed.

(** ** Reductions over well-formed grades *)

Lemma consume_loop_contribution_recorded (h : ref → GradeChange.t)
    (es : list ref) (flag : bool) (w1 : world) :
  consume_loop es flag (World __init__ h) = (Ok tt, w1) →
  contribution_recorded (self w1).
Proof.
  apply (for_each_ok_ind (λ _ w, contribution_recorded (self w))
           (turn flag) es (λ pre x w w' Hw _, turn_contribution_recorded
                                              flag x w w' Hw)
           (World __init__ h) w1).
  intros Hs. discriminate Hs.
Qed.

(** The percentages of a reduction over well-formed grades are numbers
    between 0 and 100. *)
Lemma consume_percentages_in_range {order : dict_order}
    (h : ref → GradeChange.t) (es : list ref)
    (flag : bool) :
  (consume order es flag (World __init__ h)).1 = Ok tt →
  (∀ r, r ∈ es →
        GradeChange.state (h r) = grade_state_change_types.graded →
        well_formed_grade (h r)) →
  ∃ qs, valid_percentages (self (consume order es flag (World __init__ h)).2)
        = Some <$> qs ∧
        Forall (in_range 0 100) qs.
Proof.
  intros Hok Hwf.
  destruct (consume_accumulates h es flag Hok) as (d & Hd & Hvp).
  revert Hvp.
  generalize (valid_percentages (self (consume order es flag
                                         (World __init__ h)).2)).
  assert (Forall (λ r, r ∈ es ∧
                       GradeChange.state (h r) = grade_state_change_types.graded)
            (filter (ungrouped_grade h) (since_last_reset h es)
             ++ (order d))) as Hsrc.
  { apply Forall_app. split; apply Forall_forall; intros r Hr.
    - apply list_elem_of_filter in Hr as [[Hs _] Hin].
      split; [by apply (since_last_reset_elem_of h)|done].
    - apply elem_of_dict_values in Hr as [aid Hr]. rewrite Hd in Hr.
      apply final_of_attempt_Some in Hr as [[Hs _] Hin].
      split; [by apply (since_last_reset_elem_of h)|done]. }
  induction Hsrc as [|r l [Hin Hs] _ IH]; intros vp Hvp.
  - apply Forall2_nil_inv_l in Hvp as ->. by exists [].
  - apply Forall2_cons_inv_l in Hvp as (p & vp' & Hp & Hvp' & ->).
    destruct (IH vp' Hvp') as (qs & -> & Hqs).
    destruct (grade_percentage_in_range (h r) (Hwf r Hin Hs)) as (q & Hq & Hr).
    exists (q :: qs). split; [|by constructor].
    rewrite fmap_cons. f_equal. congruence.
Qed.

Lemma consume_summary {order : dict_order} (h : ref → GradeChange.t)
    (es : list ref) (flag : bool) :
  (consume order es flag (World __init__ h)).1 = Ok tt →
  opportunity (self (consume order es flag (World __init__ h)).2)
  = (λ r, GradeChange.opportunity (h r)) <$> head es ∧
  (es = [] → state (self (consume order es flag (World __init__ h)).2) = None) ∧
  (state (self (consume order es flag (World __init__ h)).2)
   = Some grade_state_change_types.graded →
   valid_percentages (self (consume order es flag (World __init__ h)).2) ≠ []).
Proof.
  intros Hok.
  destruct (consume_recorded h es flag Hok)
    as (w1 & Hloop & (_ & Hopp & _ & _ & Hst & _) & Hflush).
  pose proof (consume_loop_contribution_recorded h es flag w1 Hloop) as Hc.
  apply consume_flush_ok in Hflush as (d & ps & Hd & Hps & ->). simpl.
  split; [done|]. split.
  - intros ->. by rewrite Hst.
  - intros Hs. destruct (Hc Hs) as [Hv|(d' & Hd' & Hdne)].
    + by destruct (valid_percentages (self w1)).
    + assert (d' = d) as -> by congruence.
      destruct ps as [|p ps]; [|by destruct (valid_percentages (self w1))].
      apply Forall2_length in Hps.
      rewrite length_dict_values in Hps. simpl in Hps.
      by apply map_size_empty_iff in Hps.
Qed.

(** X11: when the grades of the list have points between zero and a
    positive maximum and the opportunities use one of the five aggregation
    strategies, [percentage] after [consume] on a fresh machine returns
    [None] or a number between 0 and 100, and raises nothing. *)
Theorem reduction_percentage_in_range (order : dict_order)
    (h : ref → GradeChange.t)
    (es : list ref) (flag : bool) :
  (consume order es flag (World __init__ h)).1 = Ok tt →
  (∀ r, r ∈ es →
        GradeChange.state (h r) = grade_state_change_types.graded →
        well_formed_grade (h r)) →
  (∀ r, r ∈ es →
        GradingOpportunity.aggregation_strategy (GradeChange.opportunity (h r))
        ∈ strategies) →
  percentage (self (consume order es flag (World __init__ h)).2) = Ok None ∨
  ∃ q, percentage (self (consume order es flag
                           (World __init__ h)).2) = Ok (Some q) ∧
       in_range 0 100 q.
Proof.
  intros Hok Hwf Hstr.
  destruct (consume_percentages_in_range h es flag Hok Hwf) as (qs & Hvp & Hqs).
  destruct (consume_summary h es flag Hok) as (Hopp & _ & _).
  destruct es as [|e0 es'].
  { left. unfold percentage. by rewrite Hopp. }
  destruct qs as [|q0 qs].
  { left. unfold percentage. rewrite Hvp. by destruct (opportunity _). }
  right. apply (percentage_in_range _ _ q0 qs Hopp); [|done|done].
  apply Hstr, list_elem_of_here.
Qed.

Section Display.

Variable format_1f : Q → string.

(** X12: under the same conditions [stringify_state] after [consume] on a
    fresh machine returns a string: the percentage it formats in the
    graded state is a number. *)
Theorem display_never_raises (order : dict_order) (h : ref → GradeChange.t)
    (es : list ref)
    (flag : bool) :
  (consume order es flag (World __init__ h)).1 = Ok tt →
  (∀ r, r ∈ es →
        GradeChange.state (h r) = grade_state_change_types.graded →
        well_formed_grade (h r)) →
  (∀ r, r ∈ es →
        GradingOpportunity.aggregation_strategy (GradeChange.opportunity (h r))
        ∈ strategies) →
  ∃ s, stringify_state format_1f (self (consume order es flag
                                          (World __init__ h)).2)
       = Ok s.
Proof.
  intros Hok Hwf Hstr.
  destruct (consume_percentages_in_range h es flag Hok Hwf) as (qs & Hvp & Hqs).
  destruct (consume_summary h es flag Hok) as (Hopp & Hempty & Hne).
  unfold stringify_state. case_decide as H1; [eauto|].
  case_decide as H2; [eauto|]. case_decide as H3; [|eauto].
  destruct es as [|e0 es']; [by rewrite Hempty in H3|].
  destruct qs as [|q0 qs]; [by destruct (Hne H3)|].
  destruct (percentage_in_range _ _ q0 qs Hopp) as (q & -> & _);
    [apply Hstr, list_elem_of_here|done|done|].
  simpl. case_bool_decide; eauto.
Qed.

End Display.

(** ** The supersession flag and the marks already on the events *)

Lemma fields_unchanged_sym (g g' : GradeChange.t) :
  fields_unchanged g g' → fields_unchanged g' g.
Proof. unfold fields_unchanged. intuition congruence. Qed.

(** [_consume_grade_change] reads neither the flag nor [is_superseded] for
    its outcome and for the machine it leaves. *)
Lemma step_flag_irrelevant (r : ref) (m : t) (h h' : ref → GradeChange.t)
    (flag flag' : bool) :
  fields_unchanged (h r) (h' r) →
  (_consume_grade_change r flag (World m h)).1
  = (_consume_grade_change r flag' (World m h')).1 ∧
  self (_consume_grade_change r flag (World m h)).2
  = self (_consume_grade_change r flag' (World m h')).2.
Proof.
  intros Hf.
  assert (checks_pass m (h r) ↔ checks_pass m (h' r)) as Hc.
  { destruct Hf as (Ho & _ & _ & _ & _ & _ & _ & _ & _ & Ht & _).
    unfold checks_pass. by rewrite Ho, Ht. }
  destruct (checks_pass_dec m (h r)) as [Hp|Hn].
  2:{ rewrite !step_unfold.
      destruct Hf as (Ho & _ & _ & _ & _ & _ & _ & _ & _ & Ht & _).
      unfold check_opportunity, check_times, checks_pass in *. exec.
      rewrite Ho, Ht.
      destruct (opportunity m) as [o|]; simpl;
        repeat case_bool_decide; simpl; auto;
        destruct (_last_grade_change_time m) as [t0|]; simpl;
        repeat case_bool_decide; simpl; auto; tauto. }
  rewrite !step_checks_pass by tauto.
  assert (after_checks m (h' r) = after_checks m (h r)) as ->.
  { destruct Hf as (Ho & _ & _ & _ & _ & _ & _ & _ & _ & Ht & _).
    unfold after_checks. by rewrite Ho, Ht. }
  pose proof (percentage_fields_unchanged _ _ Hf) as Hpct.
  destruct Hf as (_ & _ & Hs & Ha & _ & _ & _ & Hd & _ & Ht & _).
  generalize (after_checks m (h r)). intros m1.
  unfold dispatch. exec. rewrite Hs, Ha, Hd, Ht, Hpct.
  repeat (case_decide; simpl in *; try done); auto.
  destruct (due_time m1) as [t0|]; simpl.
  1: case_bool_decide; simpl; auto.
  all: destruct (GradeChange.attempt_id (h r)) as [aid|]; simpl.
  2,4: destruct (GradeChange.percentage (h r)); simpl; auto.
  all: destruct (attempt_id_to_gchange m1) as [d|] eqn:Hdm;
    destruct flag, flag'; simpl; rewrite ?Hdm; simpl; auto;
    destruct (d !! aid) as [earlier|] eqn:He; simpl; rewrite ?Hdm; simpl; auto.
Qed.

Lemma consume_loop_flag_irrelevant (es : list ref) (flag flag' : bool)
    (w w' : world) :
  self w = self w' →
  (∀ r, fields_unchanged (heap w r) (heap w' r)) →
  (consume_loop es flag w).1 = (consume_loop es flag' w').1 ∧
  self (consume_loop es flag w).2 = self (consume_loop es flag' w').2 ∧
  ∀ r, fields_unchanged (heap (consume_loop es flag w).2 r)
         (heap (consume_loop es flag' w').2 r).
Proof.
  revert w w'. induction es as [|x es IH]; intros w w' Hm Hh.
  - unfold consume_loop. simpl. unfold mret, M_ret. simpl.
    split; [done|split; [done|exact Hh]].
  - rewrite !consume_loop_cons.
    assert (∀ r, fields_unchanged (heap (turn flag x w).2 r)
                   (heap (turn flag' x w').2 r)) as Hh1.
    { intros r. eapply fields_unchanged_trans;
        [apply fields_unchanged_sym, turn_fields_unchanged|].
      eapply fields_unchanged_trans; [apply Hh|apply turn_fields_unchanged]. }
    assert ((turn flag x w).1 = (turn flag' x w').1 ∧
            self (turn flag x w).2 = self (turn flag' x w').2) as [Ho Hs].
    { rewrite !turn_run, Hm. apply step_flag_irrelevant.
      eapply fields_unchanged_trans;
        [apply fields_unchanged_sym, fields_unchanged_write|].
      eapply fields_unchanged_trans; [apply Hh|apply fields_unchanged_write]. }
    destruct (turn flag x w) as [[[]|e] w1], (turn flag' x w') as [[[]|e'] w1'];
      simpl in *; try done.
    by apply IH.
Qed.

Lemma flush_loop_heap_irrelevant (l : list ref) (w w' : world) :
  self w = self w' →
  (∀ r, fields_unchanged (heap w r) (heap w' r)) →
  (for_each l flush_body w).1 = (for_each l flush_body w').1 ∧
  self (for_each l flush_body w).2 = self (for_each l flush_body w').2.
Proof.
  revert w w'. induction l as [|x l IH]; intros w w' Hm Hh; simpl.
  - done.
  - rewrite !run_bind, !flush_body_run.
    rewrite <- (percentage_fields_unchanged _ _ (Hh x)), Hm.
    destruct (GradeChange.percentage (heap w' x)) as [p|e];
      [|simpl; split; [done|exact Hm]].
    by apply IH.
Qed.

(** X13: the outcome of [consume] on a fresh machine and the machine it
    leaves depend neither on the [set_is_superseded] flag nor on the
    [is_superseded] marks that the events carry beforehand. *)
Theorem flag_and_marks_irrelevant (order : dict_order)
    (h h' : ref → GradeChange.t) (es : list ref)
    (flag flag' : bool) :
  (∀ r, fields_unchanged (h r) (h' r)) →
  (consume order es flag (World __init__ h)).1
  = (consume order es flag' (World __init__ h')).1 ∧
  self (consume order es flag (World __init__ h)).2
  = self (consume order es flag' (World __init__ h')).2.
Proof.
  intros Hh. rewrite !consume_run.
  destruct (consume_loop_flag_irrelevant es flag flag'
              (World __init__ h) (World __init__ h') eq_refl Hh)
    as (Ho & Hs & Hh1).
  destruct (consume_loop es flag (World __init__ h)) as [[[]|e] w1],
           (consume_loop es flag' (World __init__ h')) as [[[]|e'] w1'];
    simpl in *; try done.
  rewrite !consume_flush_run, Hs.
  destruct (attempt_id_to_gchange (self w1')) as [d|]; [|by split].
  destruct (flush_loop_heap_irrelevant (order d) w1 w1' Hs Hh1)
    as [Ho' Hs'].
  destruct (for_each (order d) flush_body w1) as [[[]|e] w2],
           (for_each (order d) flush_body w1') as [[[]|e'] w2'];
    simpl in *; try done.
  by rewrite Hs'.
Qed.

(** ** What precedes a reset *)

Lemma since_last_reset_after_reset (h : ref → GradeChange.t)
    (pre post : list ref) (x : ref) :
  is_reset (h x) = true →
  since_last_reset h (pre ++ x :: post) = since_last_reset h post.
Proof.
  intros Hx. unfold since_last_reset. rewrite fold_left_app. simpl.
  by rewrite Hx.
Qed.

Lemma last_app_cons {A : Type} (l1 l2 : list A) (x : A) :
  last (l1 ++ x :: l2) = last (x :: l2).
Proof.
  induction l1 as [|a l1 IH]; [done|].
  simpl. rewrite <- IH. by destruct (l1 ++ x :: l2) eqn:E; [destruct l1|].
Qed.

Lemma is_reset_sets_state (h : ref → GradeChange.t) (x : ref) :
  is_reset (h x) = true → sets_state h x.
Proof.
  unfold is_reset, sets_state. intros H. apply bool_decide_eq_true in H.
  repeat (apply elem_of_cons in H as [->|H];
          [by apply (bool_decide_unpack _)|]).
  by apply elem_of_nil in H.
Qed.

Lemma percentages_functional (h : ref → GradeChange.t) (l : list ref)
    (vp vp' : list (option Q)) :
  Forall2 (λ r p, GradeChange.percentage (h r) = Ok p) l vp →
  Forall2 (λ r p, GradeChange.percentage (h r) = Ok p) l vp' →
  vp = vp'.
Proof.
  intros H. revert vp'. induction H as [|r p l vp Hp _ IH]; intros vp' H'.
  - by apply Forall2_nil_inv_l in H'.
  - apply Forall2_cons_inv_l in H' as (p' & vp'' & Hp' & H'' & ->).
    f_equal; [congruence|by apply IH].
Qed.

(** X14: the events before an unavailable, exempt or do_over event do not
    contribute: when both reductions return, the list and its suffix from
    that event on leave the same [valid_percentages] and the same state. *)
Theorem history_before_reset_forgotten (order : dict_order)
    (h : ref → GradeChange.t)
    (pre post : list ref) (x : ref) (flag : bool) :
  is_reset (h x) = true →
  (consume order (pre ++ x :: post) flag (World __init__ h)).1 = Ok tt →
  (consume order (x :: post) flag (World __init__ h)).1 = Ok tt →
  valid_percentages (self (consume order (pre ++ x :: post) flag
                             (World __init__ h)).2)
  = valid_percentages (self (consume order (x :: post) flag
                               (World __init__ h)).2) ∧
  state (self (consume order (pre ++ x :: post) flag (World __init__ h)).2)
  = state (self (consume order (x :: post) flag (World __init__ h)).2).
Proof.
  intros Hx Hok1 Hok2. split.
  - destruct (consume_accumulates h _ flag Hok1) as (d1 & Hd1 & Hvp1).
    destruct (consume_accumulates h _ flag Hok2) as (d2 & Hd2 & Hvp2).
    pose proof (since_last_reset_after_reset h pre post x Hx) as E1.
    pose proof (since_last_reset_after_reset h [] post x Hx) as E2.
    simpl app in E2. rewrite E1 in Hd1, Hvp1. rewrite E2 in Hd2, Hvp2.
    assert (d1 = d2) as -> by (apply map_eq; intros aid; by rewrite Hd1, Hd2).
    by apply (percentages_functional h _ _ _ Hvp1 Hvp2).
  - destruct (consume_recorded h _ flag Hok1)
      as (w1 & _ & (_ & _ & _ & _ & Hst1 & _) & Hflush1).
    destruct (consume_recorded h _ flag Hok2)
      as (w2 & _ & (_ & _ & _ & _ & Hst2 & _) & Hflush2).
    apply consume_flush_keeps in Hflush1 as (_ & _ & -> & _).
    apply consume_flush_keeps in Hflush2 as (_ & _ & -> & _).
    rewrite Hst1, Hst2. f_equal.
    rewrite filter_app, !filter_cons.
    rewrite !decide_True by (by apply is_reset_sets_state).
    apply last_app_cons.
Qed.

(** ** The properties on a history *)

Lemma consume_one_opportunity_witness :
  opportunity (self (consume gmap_order whole_history true
                       (World __init__ history)).2)
  = Some averaged_due_20.
Proof.
  apply (proj1 (consume_one_opportunity gmap_order
           history whole_history true eq_refl)).
Defined.

Lemma consume_final_state_witness :
  state (self (consume gmap_order whole_history true
                 (World __init__ history)).2)
  = Some "graded".
Proof.
  apply (consume_final_state gmap_order
           history whole_history true eq_refl).
Defined.

Lemma consume_final_times_witness :
  last_graded_time (self (consume gmap_order whole_history true
                            (World __init__ history)).2)
  = Some 9%Z ∧
  last_report_time (self (consume gmap_order whole_history true
                            (World __init__ history)).2)
  = Some 2%Z.
Proof.
  apply (consume_final_times gmap_order
           history whole_history true eq_refl).
Defined.

Lemma consume_final_due_time_witness :
  due_time (self (consume gmap_order whole_history true
                    (World __init__ history)).2)
  = Some 50%Z.
Proof.
  apply (consume_final_due_time gmap_order
           history whole_history true eq_refl).
Defined.

Lemma grade_after_closing_raises_witness :
  (consume gmap_order ([0; 1; 2; 3; 4; 5] ++ 7 :: [8]) true
     (World __init__ history)).1
  = Raise (ValueError
      "cannot accept grade once opportunity has been marked 'unavailable'").
Proof.
  apply (grade_after_closing_raises gmap_order
           history [0; 1; 2; 3; 4; 5] [8] 5 7 true);
    [reflexivity | reflexivity | left; reflexivity | reflexivity | reflexivity].
Defined.

Lemma other_events_accepted_or_unknown_witness :
  _consume_grade_change 9 false (World __init__ history)
  = (Raise (RuntimeError "invalid grade change state 'bogus'"),
     World (after_checks __init__ (history 9)) history).
Proof.
  apply (proj2 (other_events_accepted_or_unknown 9 false
                  (World __init__ history) (conj I I) ltac:(discriminate))).
  apply (bool_decide_unpack _). by vm_compute.
Defined.

Lemma flushed_machine_needs_reset_witness :
  (consume gmap_order [0] false
     (World (machine_100_50_75 "max_grade") three_events)).1
  ≠ Ok tt.
Proof.
  apply (flushed_machine_needs_reset gmap_order
           (World (machine_100_50_75 "max_grade") three_events) [0] false);
    [reflexivity|].
  intros r Hr. apply list_elem_of_singleton in Hr as ->. reflexivity.
Defined.

Lemma no_grade_no_percentage_witness :
  valid_percentages
    (self (consume gmap_order [0; 1; 2; 3; 4; 5; 6] true
             (World __init__ history)).2) = [] ∧
  percentage
    (self (consume gmap_order [0; 1; 2; 3; 4; 5; 6] true
             (World __init__ history)).2)
  = Ok None.
Proof.
  apply (no_grade_no_percentage gmap_order
           history [0; 1; 2; 3; 4; 5; 6] true eq_refl).
  intros r Hr. vm_compute in Hr. by apply elem_of_nil in Hr.
Defined.

Lemma supersession_marks_witness :
  GradeChange.is_superseded
    (heap (consume gmap_order whole_history true
             (World __init__ history)).2 7) = Some true ∧
  GradeChange.is_superseded
    (heap (consume gmap_order whole_history true
             (World __init__ history)).2 8) = Some false.
Proof.
  assert (NoDup whole_history) as Hnd
    by (apply (bool_decide_unpack _); by vm_compute).
  split.
  - apply (supersession_marks gmap_order history whole_history Hnd eq_refl 7).
    + apply list_elem_of_here.
    + exists "B". split; [by split|]. discriminate.
  - apply (supersession_marks gmap_order history whole_history Hnd eq_refl 8).
    + apply list_elem_of_further, list_elem_of_here.
    + intros (aid & [_ Ha] & Hf). injection Ha as <-. by apply Hf.
Defined.

Lemma only_attempt_grades_marked_witness :
  GradeChange.is_superseded
    (heap (consume gmap_order whole_history true
             (World __init__ history)).2 4) = Some false.
Proof.
  apply (only_attempt_grades_marked gmap_order
           history whole_history true 4 eq_refl).
  - apply (bool_decide_unpack _). by vm_compute.
  - intros aid [_ Ha]. discriminate Ha.
Defined.

Lemma regraded_attempt_well_formed (r : ref) :
  r ∈ [0; 1] →
  GradeChange.state (regraded_attempt r) = grade_state_change_types.graded →
  well_formed_grade (regraded_attempt r).
Proof.
  intros Hr _.
  apply elem_of_cons in Hr as [->|Hr];
    [|apply list_elem_of_singleton in Hr as ->].
  - exists 40%Q, 100%Q. by repeat split.
  - exists 90%Q, 100%Q. by repeat split.
Defined.

Lemma regraded_attempt_strategies (r : ref) :
  r ∈ [0; 1] →
  GradingOpportunity.aggregation_strategy
    (GradeChange.opportunity (regraded_attempt r)) ∈ strategies.
Proof.
  intros Hr.
  apply elem_of_cons in Hr as [->|Hr];
    [|apply list_elem_of_singleton in Hr as ->];
    apply (bool_decide_unpack _); by vm_compute.
Defined.

Lemma reduction_percentage_in_range_witness :
  percentage (self (consume gmap_order [0; 1] true
                      (World __init__ regraded_attempt)).2)
  = Ok None ∨
  ∃ q, percentage (self (consume gmap_order [0; 1] true
                           (World __init__ regraded_attempt)).2)
       = Ok (Some q) ∧ in_range 0 100 q.
Proof.
  apply (reduction_percentage_in_range gmap_order
           regraded_attempt [0; 1] true eq_refl
           regraded_attempt_well_formed regraded_attempt_strategies).
Defined.

Lemma display_never_raises_witness :
  ∃ s, stringify_state (λ _, "90.0")
         (self (consume gmap_order [0; 1] true
                  (World __init__ regraded_attempt)).2) = Ok s.
Proof.
  apply (display_never_raises (λ _, "90.0") gmap_order
           regraded_attempt [0; 1] true eq_refl
           regraded_attempt_well_formed regraded_attempt_strategies).
Defined.

Lemma flag_and_marks_irrelevant_witness :
  (consume gmap_order whole_history true (World __init__ history)).1
  = (consume gmap_order whole_history false (World __init__ history)).1 ∧
  self (consume gmap_order whole_history true (World __init__ history)).2
  = self (consume gmap_order whole_history false (World __init__ history)).2.
Proof.
  apply (flag_and_marks_irrelevant gmap_order
           history history whole_history true false).
  intros r. apply fields_unchanged_refl.
Defined.

Lemma history_before_reset_forgotten_witness :
  valid_percentages
    (self (consume gmap_order ([0; 1; 2; 3; 4; 5] ++ 6 :: [7; 8]) true
             (World __init__ history)).2)
  = valid_percentages
      (self (consume gmap_order (6 :: [7; 8]) true
               (World __init__ history)).2) ∧
  state (self (consume gmap_order ([0; 1; 2; 3; 4; 5] ++ 6 :: [7; 8]) true
                 (World __init__ history)).2)
  = state (self (consume gmap_order (6 :: [7; 8]) true
                   (World __init__ history)).2).
Proof.
  apply (history_before_reset_forgotten gmap_order
           history [0; 1; 2; 3; 4; 5] [7; 8] 6 true);
    reflexivity.
Defined.

(** ** The histories that [consume] accepts *)

Lemma snoc_eq_app_cons {A : Type} (l pre post : list A) (x y : A) :
  l ++ [x] = pre ++ y :: post →
  (pre = l ∧ y = x ∧ post = []) ∨
  ∃ post', post = post' ++ [x] ∧ l = pre ++ y :: post'.
Proof.
  destruct post as [|z post _] using rev_ind; intros E.
  - apply app_inj_tail in E as [-> ->]. by left.
  - right. exists post.
    change (pre ++ y :: post ++ [z]) with (pre ++ (y :: post) ++ [z]) in E.
    rewrite app_assoc in E. apply app_inj_tail in E as [-> ->]. done.
Qed.

Lemma consume_loop_accumulated (h : ref → GradeChange.t) (es : list ref)
    (flag : bool) (w1 : world) :
  consume_loop es flag (World __init__ h) = (Ok tt, w1) → accumulated h es w1.
Proof.
  apply (for_each_ok_ind (accumulated h) (turn flag) es
           (λ pre x w w' Hw _, turn_accumulated h flag pre x w w' Hw)
           (World __init__ h) w1).
  split; [intros r; apply fields_unchanged_refl|].
  exists ∅. split; [done|]. split; [|constructor].
  intros aid. by rewrite lookup_empty.
Qed.

(** The due time in force for an event that is no extension. *)
Lemma due_time_in_force_after (h : ref → GradeChange.t) (pre : list ref)
    (x : ref) (w : world) (g : GradeChange.t) :
  recorded h pre w →
  GradeChange.opportunity g = GradeChange.opportunity (h x) →
  GradeChange.state (h x) ≠ grade_state_change_types.extension →
  due_time_in_force (self w) g = due_time_after h (pre ++ [x]).
Proof.
  intros (_ & Hopp & _ & _ & _ & _ & _ & Hdt) Hgo Hne.
  unfold due_time_in_force, due_time_after.
  rewrite last_filter_snoc, decide_False by done.
  rewrite Hopp, Hdt, head_snoc, Hgo.
  destruct (head pre) as [e0|] eqn:He0; simpl; [done|].
  destruct pre; [done|discriminate].
Qed.

(** One turn of the loop returns exactly on an admissible event. *)
Lemma turn_returns_iff (h : ref → GradeChange.t) (flag : bool)
    (pre : list ref) (x : ref) (w : world) :
  recorded h pre w →
  attempt_id_to_gchange (self w) ≠ None →
  (turn flag x w).1 = Ok tt ↔ admissible h pre x.
Proof.
  intros Hrec Hmap.
  pose proof Hrec as (Hheap & Hopp & _ & Hlast & Hst & _ & _ & _).
  rewrite turn_run.
  set (h' := heap_write x false (heap w)).
  assert (fields_unchanged (h x) (h' x)) as Hg.
  { eapply fields_unchanged_trans; [apply Hheap|apply fields_unchanged_write]. }
  pose proof (percentage_fields_unchanged _ _ Hg) as Hpct.
  destruct Hg as (Hgo & _ & Hgs & Hga & _ & _ & _ & _ & _ & Hgt & _).
  destruct (after_checks_fields (self w) (h' x))
    as (Hst1 & Hdt1 & _ & Hmap1 & _ & _ & _).
  assert (checks_pass (self w) (h' x) ↔
          ∀ r0, head pre = Some r0 →
                GradingOpportunity.pk (GradeChange.opportunity (h r0))
                = GradingOpportunity.pk (GradeChange.opportunity (h x))) as Hchk.
  { unfold checks_pass. rewrite Hopp, Hlast, Hgo.
    destruct (head pre) as [e0|]; simpl.
    - split; [intros [H _] r0 [= <-]; exact H|intros H; split; [by apply H|done]].
    - split; [by intros _ r0|done]. }
  assert (GradeChange.state (h x) = grade_state_change_types.graded →
          due_time (after_checks (self w) (h' x)) = due_time_after h (pre ++ [x]))
    as Hdue.
  { intros Hs. rewrite Hdt1.
    apply (due_time_in_force_after h pre x w); [done|done|].
    rewrite Hs. discriminate. }
  split.
  - intros Hok.
    destruct (_consume_grade_change x flag (World (self w) h')) as [o w'] eqn:Hrun.
    simpl in Hok. subst o. apply step_run_ok in Hrun as [Hc Hd].
    split; [by apply Hchk|].
    destruct Hd as [aid d0 Hs Hacc Hbd Haid Hm | p Hs Hacc Hbd Haid Hp
                   | Hs | Hs | Hs | Hs | Hs | [Hs|Hs]];
      rewrite Hgs in Hs; (split; [rewrite Hs; apply (bool_decide_unpack _); by vm_compute|]);
      intros Hgr; try (rewrite Hs in Hgr; discriminate Hgr).
    + destruct Hacc as [Hu He]. rewrite Hst1, Hst in Hu, He.
      repeat split; [done|done| |].
      * intros d Hd. unfold before_due in Hbd. rewrite (Hdue Hs), Hd, Hgt in Hbd. lia.
      * intros Hn. rewrite Hga in Haid. congruence.
    + destruct Hacc as [Hu He]. rewrite Hst1, Hst in Hu, He.
      repeat split; [done|done| |].
      * intros d Hd. unfold before_due in Hbd. rewrite (Hdue Hs), Hd, Hgt in Hbd. lia.
      * intros _. exists p. by rewrite <- Hpct.
  - intros (Hpk & Hkind & Hgr).
    assert (∃ w', dispatch_ok x (h' x) flag (after_checks (self w) (h' x)) h' w')
      as [w' Hd].
    { apply elem_of_cons in Hkind as [Hs|Hkind].
      - destruct (Hgr Hs) as (Hu & He & Hbd & Hp).
        assert (accepts_grades (after_checks (self w) (h' x))) as Hacc.
        { unfold accepts_grades. by rewrite Hst1, Hst. }
        assert (before_due (after_checks (self w) (h' x)) (h' x)) as Hbd'.
        { unfold before_due. rewrite (Hdue Hs).
          destruct (due_time_after h (pre ++ [x])) as [d|]; [|done].
          rewrite Hgt. specialize (Hbd d eq_refl). lia. }
        destruct (GradeChange.attempt_id (h x)) as [aid|] eqn:Haid.
        + destruct (attempt_id_to_gchange (self w)) as [d0|] eqn:Hd0; [|done].
          eexists. apply (ok_graded_grouped _ _ _ _ _ aid d0);
            rewrite ?Hgs, ?Hga, ?Hmap1; done.
        + destruct (Hp eq_refl) as [p Hp'].
          eexists. apply (ok_graded_ungrouped _ _ _ _ _ p);
            rewrite ?Hgs, ?Hga, ?Hpct; done.
      - unfold other_kinds in Hkind. rewrite <- Hgs in Hkind.
        repeat (apply elem_of_cons in Hkind as [Hkind|Hkind];
                [eexists; first [ by apply ok_unavailable | by apply ok_do_over
                                | by apply ok_exempt | by apply ok_report_sent
                                | by apply ok_extension
                                | apply ok_informational; by left
                                | apply ok_informational; by right ]|]).
        by apply elem_of_nil in Hkind. }
    by rewrite (proj2 (step_run_ok x flag (self w) h' w') (conj (proj2 Hchk Hpk) Hd)).
Qed.

(** The loop of [consume] returns exactly when every event is admissible
    after those before it. *)
Lemma consume_loop_returns_iff (h : ref → GradeChange.t) (es : list ref)
    (flag : bool) :
  (consume_loop es flag (World __init__ h)).1 = Ok tt ↔
  ∀ pre x post, es = pre ++ x :: post → admissible h pre x.
Proof.
  induction es as [|x l IH] using rev_ind.
  - split; [|done]. intros _ pre x post E. by destruct pre.
  - assert ((∀ pre y post, l ++ [x] = pre ++ y :: post → admissible h pre y) ↔
            (∀ pre y post, l = pre ++ y :: post → admissible h pre y) ∧
            admissible h l x) as ->.
    { split.
      - intros H. split.
        + intros pre y post ->. apply (H pre y (post ++ [x])).
          by rewrite <- app_assoc.
        + by apply (H l x []).
      - intros [H1 H2] pre y post E.
        apply snoc_eq_app_cons in E as [(-> & -> & _)|(post' & _ & ->)];
          [done|by apply (H1 pre y post')]. }
    rewrite <- IH. rewrite consume_loop_app, run_bind.
    destruct (consume_loop l flag (World __init__ h)) as [[[]|e] w1] eqn:Hl;
      simpl.
    2:{ split; [done|]. by intros [? _]. }
    pose proof (consume_loop_recorded h l flag w1 Hl) as Hrec.
    pose proof (consume_loop_accumulated h l flag w1 Hl) as [_ (d & Hd & _)].
    rewrite <- (turn_returns_iff h flag l x w1 Hrec) by (by rewrite Hd).
    rewrite consume_loop_cons.
    destruct (turn flag x w1) as [[[]|e] w2]; simpl; [|split; [done|by intros [_ ?]]].
    split; [done|by intros _].
Qed.

(** X15: [consume], run on a fresh machine, returns exactly on the
    histories in which every event is of the opportunity of the first one
    and of a known kind, no grade comes while the opportunity is marked
    unavailable or exempt or after the due time in force, every grade
    without attempt id has a percentage that can be computed, and so has
    the last grade of every attempt since the last reset. Grades of an
    attempt that are superseded or wiped by a reset are never evaluated,
    and the grade times are compared with the due time only, not with
    one another. *)
Theorem consume_returns_iff (order : dict_order) (h : ref → GradeChange.t)
    (es : list ref)
    (flag : bool) :
  (consume order es flag (World __init__ h)).1 = Ok tt ↔ accepted_history h es.
Proof.
  unfold accepted_history. rewrite <- (consume_loop_returns_iff h es flag).
  rewrite consume_run.
  destruct (consume_loop es flag (World __init__ h)) as [[[]|e] w1] eqn:Hl;
    simpl.
  2:{ split; [done|]. by intros [? _]. }
  pose proof (consume_loop_accumulated h es flag w1 Hl) as [Hheap (d & Hd & Hfin & _)].
  rewrite consume_flush_run, Hd.
  assert ((for_each (order d) flush_body w1).1 = Ok tt ↔
          ∀ aid r, final_of_attempt h aid (since_last_reset h es) = Some r →
                   ∃ p, GradeChange.percentage (h r) = Ok p) as <-.
  { rewrite flush_loop_returns_iff. split.
    - intros H aid r Hr. rewrite <- Hfin in Hr.
      destruct (H r) as [p Hp].
      + apply elem_of_dict_values. by exists aid.
      + exists p. by rewrite (percentage_fields_unchanged _ _ (Hheap r)) in Hp.
    - intros H r Hr. apply elem_of_dict_values in Hr as [aid Hr].
      rewrite Hfin in Hr.
      destruct (H aid r Hr) as [p Hp]. exists p.
      by rewrite (percentage_fields_unchanged _ _ (Hheap r)). }
  destruct (for_each (order d) flush_body w1) as [[[]|e] w2]; simpl.
  - split; [done|by intros _].
  - split; [done|]. by intros [_ ?].
Qed.

(** ** Unset percentages *)

Lemma py_max_skips_unset (l : list (option Q)) (x : option Q) :
  py_max x l = py_max x (numbers_of l).
Proof.
  unfold py_max, numbers_of. revert x.
  induction l as [|[q|] l IH]; intros x; simpl; [done|apply IH|].
  rewrite <- IH. by destruct x.
Qed.

Lemma py_min_unset (l : list (option Q)) : py_min None l = None.
Proof.
  unfold py_min. induction l as [|[q|] l IH]; simpl; done.
Qed.

Lemma py_min_with_unset (l : list (option Q)) (x : option Q) :
  None ∈ x :: l → py_min x l = None.
Proof.
  revert x. induction l as [|y l IH]; intros x Hin.
  - apply list_elem_of_singleton in Hin as <-. done.
  - apply elem_of_cons in Hin as [<-|Hin]; [apply py_min_unset|].
    unfold py_min. simpl. fold (py_min (if py_lt y x then y else x) l).
    apply IH. apply elem_of_cons in Hin as [<-|Hin].
    + destruct x; simpl; apply list_elem_of_here.
    + by apply list_elem_of_further.
Qed.

Lemma py_sum_from_with_unset (l : list (option Q)) (acc : Q) :
  None ∈ l → py_sum_from acc l = Raise TypeError.
Proof.
  revert acc. induction l as [|[q|] l IH]; intros acc Hin; simpl.
  - by apply elem_of_nil in Hin.
  - apply IH. by apply elem_of_cons in Hin as [?|?].
  - done.
Qed.

Lemma percentage_max_of_list (m : t) (opp : GradingOpportunity.t)
    (l : list (option Q)) :
  opportunity m = Some opp →
  GradingOpportunity.aggregation_strategy opp
  = grade_aggregation_strategy.max_grade →
  percentage (set_valid_percentages l m)
  = Ok (match l with [] => None | y :: l' => py_max y l' end).
Proof.
  intros Ho Hs. unfold percentage. simpl. rewrite Ho.
  destruct l as [|y l']; [done|]. by rewrite Hs.
Qed.

(** X16: for a machine with an opportunity and percentages, one of which
    is unset: under [max_grade] the unset entries are ignored ([None] is
    below every number), under [min_grade] the result is [None], and
    under [avg_grade] [percentage] raises [TypeError]. Whatever the
    entries, a strategy that is none of the five raises the [ValueError]
    that quotes it. *)
Theorem percentage_with_unset_entries (m : t) (opp : GradingOpportunity.t) :
  opportunity m = Some opp →
  valid_percentages m ≠ [] →
  (None ∈ valid_percentages m →
   (GradingOpportunity.aggregation_strategy opp
    = grade_aggregation_strategy.max_grade →
    percentage m
    = percentage (set_valid_percentages (numbers_of (valid_percentages m)) m)) ∧
   (GradingOpportunity.aggregation_strategy opp
    = grade_aggregation_strategy.min_grade →
    percentage m = Ok None) ∧
   (GradingOpportunity.aggregation_strategy opp
    = grade_aggregation_strategy.avg_grade →
    percentage m = Raise TypeError)) ∧
  (GradingOpportunity.aggregation_strategy opp ∉ strategies →
   percentage m
   = Raise (ValueError ("invalid grade aggregation strategy '"
                        +:+ GradingOpportunity.aggregation_strategy opp +:+ "'"))).
Proof.
  intros Ho Hne.
  destruct (valid_percentages m) as [|x rest] eqn:Hv; [done|]. split.
  - intros Hin. repeat split; intros Hs.
    + rewrite (percentage_max m opp _ _ Ho Hv Hs).
      rewrite (percentage_max_of_list m opp _ Ho Hs), py_max_skips_unset.
      destruct x as [q|]; [reflexivity|].
      change (numbers_of (None :: rest)) with (numbers_of rest).
      by destruct (numbers_of rest) as [|[q|] l].
    + rewrite (percentage_min m opp _ _ Ho Hv Hs).
      by rewrite py_min_with_unset.
    + rewrite (percentage_avg m opp _ _ Ho Hv Hs).
      unfold py_sum. by rewrite py_sum_from_with_unset.
  - intros Hs. unfold percentage. rewrite Ho, Hv.
    unfold strategies in Hs.
    repeat case_decide; try done;
      exfalso; apply Hs;
      match goal with
      | E : GradingOpportunity.aggregation_strategy opp = _ |- _ =>
          rewrite E; apply (bool_decide_unpack _); by vm_compute
      end.
Qed.

Lemma percentage_with_unset_entries_witness :
  percentage (machine_with_unset "max_grade") = Ok (Some 75%Q) ∧
  percentage (machine_with_unset "min_grade") = Ok None ∧
  percentage (machine_with_unset "avg_grade") = Raise TypeError ∧
  percentage (machine_with_unset "median")
  = Raise (ValueError "invalid grade aggregation strategy 'median'").
Proof.
  assert (None ∈ valid_percentages (machine_with_unset "max_grade")) as Hin
    by (apply list_elem_of_further, list_elem_of_here).
  split; [|split; [|split]].
  - rewrite (proj1 (proj1 (percentage_with_unset_entries
               (machine_with_unset "max_grade") _ eq_refl ltac:(discriminate))
               Hin) eq_refl).
    reflexivity.
  - apply (proj1 (proj2 (proj1 (percentage_with_unset_entries
               (machine_with_unset "min_grade") _ eq_refl ltac:(discriminate))
               Hin)) eq_refl).
  - apply (proj2 (proj2 (proj1 (percentage_with_unset_entries
               (machine_with_unset "avg_grade") _ eq_refl ltac:(discriminate))
               Hin)) eq_refl).
  - apply (proj2 (percentage_with_unset_entries
               (machine_with_unset "median") _ eq_refl ltac:(discriminate))).
    intros H. by apply (bool_decide_pack _) in H.
Defined.

Lemma numbers_of_all_unset (l : list (option Q)) :
  Forall (λ p, p = None) l → numbers_of l = [].
Proof.
  induction l as [|x l IH]; intros H; [done|].
  apply Forall_cons in H as [-> H]. by apply IH.
Qed.

Lemma last_all_unset (l : list (option Q)) :
  Forall (λ p, p = None) l → List.last l None = None.
Proof.
  induction l as [|x l IH]; intros H; [done|].
  apply Forall_cons in H as [-> H]. simpl. destruct l; [done|by apply IH].
Qed.

Lemma percentage_all_unset (m : t) (opp : GradingOpportunity.t) :
  opportunity m = Some opp →
  GradingOpportunity.aggregation_strategy opp ∈ strategies →
  valid_percentages m ≠ [] →
  Forall (λ p, p = None) (valid_percentages m) →
  percentage m = Ok None ∨ percentage m = Raise TypeError.
Proof.
  intros Ho Hs Hne Hall.
  destruct (valid_percentages m) as [|x rest] eqn:Hv; [done|].
  apply Forall_cons in Hall as [-> Hall].
  assert (None ∈ None :: rest) as Hin by apply list_elem_of_here.
  unfold strategies in Hs.
  apply elem_of_cons in Hs as [Hs|Hs]; [|apply elem_of_cons in Hs as [Hs|Hs]];
    [| |apply elem_of_cons in Hs as [Hs|Hs]];
    [| | |apply elem_of_cons in Hs as [Hs|Hs]];
    [| | | |apply list_elem_of_singleton in Hs].
  - left. rewrite (percentage_max m opp _ _ Ho Hv Hs). f_equal.
    rewrite py_max_skips_unset.
    by rewrite (numbers_of_all_unset rest Hall).
  - left. rewrite (percentage_min m opp _ _ Ho Hv Hs). by rewrite py_min_unset.
  - right. by rewrite (percentage_avg m opp _ _ Ho Hv Hs).
  - left. unfold percentage. by rewrite Ho, Hv, Hs.
  - left. unfold percentage. rewrite Ho, Hv, Hs. simpl. f_equal.
    apply last_all_unset, Hall.
Qed.

Section DisplayUnset.

Variable format_1f : Q → string.

(** X17: when [consume] on a fresh machine returns in the state graded
    and no grade of the list has [max_points], every percentage is unset
    and [stringify_state] raises [TypeError], under each of the five
    strategies. *)
Theorem display_of_unset_percentage_raises (order : dict_order)
    (h : ref → GradeChange.t)
    (es : list ref) (flag : bool) :
  (consume order es flag (World __init__ h)).1 = Ok tt →
  state (self (consume order es flag (World __init__ h)).2)
  = Some grade_state_change_types.graded →
  (∀ r, r ∈ es →
        GradeChange.state (h r) = grade_state_change_types.graded →
        GradeChange.max_points (h r) = None) →
  (∀ r, r ∈ es →
        GradingOpportunity.aggregation_strategy (GradeChange.opportunity (h r))
        ∈ strategies) →
  stringify_state format_1f (self (consume order es flag (World __init__ h)).2)
  = Raise TypeError.
Proof.
  intros Hok Hst Hmp Hstr.
  destruct (consume_summary h es flag Hok) as (Hopp & Hempty & Hne).
  destruct (consume_accumulates h es flag Hok) as (d & Hd & Hvp).
  specialize (Hne Hst).
  destruct es as [|e0 es']; [by rewrite Hempty in Hst|].
  assert (Forall (λ p, p = None)
            (valid_percentages (self (consume order (e0 :: es') flag
                                        (World __init__ h)).2)))
    as Hall.
  { revert Hvp.
    generalize (valid_percentages
                  (self (consume order (e0 :: es') flag (World __init__ h)).2)).
    assert (Forall (λ r, GradeChange.percentage (h r) = Ok None)
              (filter (ungrouped_grade h) (since_last_reset h (e0 :: es'))
               ++ (order d))) as Hsrc.
    { assert (∀ r, r ∈ e0 :: es' →
                GradeChange.state (h r) = grade_state_change_types.graded →
                GradeChange.percentage (h r) = Ok None) as Hp.
      { intros r Hr Hs. unfold GradeChange.percentage. by rewrite (Hmp r Hr Hs). }
      apply Forall_app. split; apply Forall_forall; intros r Hr.
      - apply list_elem_of_filter in Hr as [[Hs _] Hin].
        apply Hp; [by apply (since_last_reset_elem_of h)|done].
      - apply elem_of_dict_values in Hr as [aid Hr]. rewrite Hd in Hr.
        apply final_of_attempt_Some in Hr as [[Hs _] Hin].
        apply Hp; [by apply (since_last_reset_elem_of h)|done]. }
    induction Hsrc as [|r l Hr _ IH]; intros vp Hvp.
    - by apply Forall2_nil_inv_l in Hvp as ->.
    - apply Forall2_cons_inv_l in Hvp as (p & vp' & Hp & Hvp' & ->).
      constructor; [congruence|by apply IH]. }
  unfold stringify_state. rewrite Hst. simpl.
  destruct (percentage_all_unset _ _ Hopp (Hstr e0 (list_elem_of_here _ _)) Hne Hall)
    as [-> | ->]; done.
Qed.

End DisplayUnset.

Lemma display_of_unset_percentage_raises_witness :
  stringify_state (λ _, "0.0")
    (self (consume gmap_order [0] false
             (World __init__ grade_without_points)).2)
  = Raise TypeError.
Proof.
  apply (display_of_unset_percentage_raises (λ _, "0.0") gmap_order
           grade_without_points
           [0] false eq_refl eq_refl).
  - intros r Hr _. by apply list_elem_of_singleton in Hr as ->.
  - intros r Hr. apply list_elem_of_singleton in Hr as ->.
    apply (bool_decide_unpack _). by vm_compute.
Defined.

(** ** The number of contributions *)

Lemma elem_of_attempts_graded (h : ref → GradeChange.t) (l : list ref)
    (aid : string) :
  aid ∈ attempts_graded h l ↔ ∃ r, r ∈ l ∧ grade_of_attempt h aid r.
Proof.
  unfold attempts_graded, graded_attempt, grade_of_attempt.
  rewrite elem_of_list_to_set, list_elem_of_omap.
  split; intros (r & Hr & H); exists r; (split; [done|]).
  - by case_decide.
  - destruct H as [Hs Ha]. by rewrite decide_True.
Qed.

Lemma final_of_attempt_is_Some (h : ref → GradeChange.t) (aid : string)
    (l : list ref) :
  is_Some (final_of_attempt h aid l) ↔ ∃ r, r ∈ l ∧ grade_of_attempt h aid r.
Proof.
  unfold final_of_attempt. split.
  - intros [r Hr]. exists r.
    apply last_Some_elem_of, list_elem_of_filter in Hr as [? ?]. done.
  - intros (r & Hr & Hg).
    assert (r ∈ filter (grade_of_attempt h aid) l) as Hin
      by (by apply list_elem_of_filter).
    destruct (filter (grade_of_attempt h aid) l) as [|x l'] using rev_ind.
    + by apply elem_of_nil in Hin.
    + rewrite last_snoc. by eexists.
Qed.

(** X18: when [consume] on a fresh machine returns, the number of valid
    percentages, which [stringify_state] displays, is the number of grades
    without attempt id since the last reset plus the number of attempts
    that have a grade since then: an attempt counts once, however often
    it was graded. *)
Theorem contributions_counted (order : dict_order) (h : ref → GradeChange.t)
    (es : list ref)
    (flag : bool) :
  (consume order es flag (World __init__ h)).1 = Ok tt →
  length (valid_percentages (self (consume order es flag (World __init__ h)).2))
  = length (filter (ungrouped_grade h) (since_last_reset h es))
    + size (attempts_graded h (since_last_reset h es)).
Proof.
  intros Hok.
  destruct (consume_accumulates h es flag Hok) as (d & Hd & Hvp).
  apply Forall2_length in Hvp. rewrite <- Hvp.
  rewrite length_app, length_dict_values. f_equal.
  rewrite <- size_dom. f_equal. apply set_eq. intros aid.
  rewrite elem_of_dom, Hd, final_of_attempt_is_Some.
  symmetry. apply elem_of_attempts_graded.
Qed.

Lemma contributions_counted_witness :
  length (valid_percentages
            (self (consume gmap_order [0; 1; 2; 3; 4] false
                     (World __init__ history)).2))
  = 1 + 1.
Proof.
  apply (contributions_counted gmap_order
           history [0; 1; 2; 3; 4] false eq_refl).
Defined.

(** ** The earliest and the latest contribution *)

Lemma Forall2_last {A B : Type} (P : A → B → Prop) (l : list A) (k : list B)
    (x : A) :
  Forall2 P l k → last l = Some x → ∃ y, last k = Some y ∧ P x y.
Proof.
  intros H. revert x. induction H as [|a b l k Hab H IH]; intros x Hl; [done|].
  destruct H as [|a' b' l k Hab' H].
  - injection Hl as <-. by exists b.
  - destruct (IH x) as (y & Hy & HP); [done|]. by exists y.
Qed.

(** X19: the percentages of the grades without attempt id come first in
    [valid_percentages], those of the attempts after them. So, when
    [consume] on a fresh machine returns, [use_earliest] gives the
    percentage of the first grade without attempt id since the last
    reset, if there is one, also when an attempt was graded before it;
    and [use_latest] gives the percentage of the last grade of some
    attempt, if an attempt was graded since the last reset, also when a
    grade without attempt id came after it. *)
Theorem earliest_and_latest_contribution (order : dict_order)
    (h : ref → GradeChange.t)
    (es : list ref) (flag : bool) (strategy : string) :
  (consume order es flag (World __init__ h)).1 = Ok tt →
  (∀ r, r ∈ es →
        GradingOpportunity.aggregation_strategy (GradeChange.opportunity (h r))
        = strategy) →
  (strategy = grade_aggregation_strategy.use_earliest →
   ∀ u, head (filter (ungrouped_grade h) (since_last_reset h es)) = Some u →
        percentage (self (consume order es flag (World __init__ h)).2)
        = GradeChange.percentage (h u)) ∧
  (strategy = grade_aggregation_strategy.use_latest →
   (∃ aid r0, r0 ∈ since_last_reset h es ∧ grade_of_attempt h aid r0) →
   ∃ aid r, final_of_attempt h aid (since_last_reset h es) = Some r ∧
            percentage (self (consume order es flag (World __init__ h)).2)
            = GradeChange.percentage (h r)).
Proof.
  intros Hok Hstr.
  destruct (consume_summary h es flag Hok) as (Hopp & _ & _).
  destruct (consume_accumulates h es flag Hok) as (d & Hd & Hvp).
  split.
  - intros -> u Hu.
    destruct (filter (ungrouped_grade h) (since_last_reset h es))
      as [|u' l] eqn:Hf; [done|]. injection Hu as ->.
    assert (u ∈ es) as Hin.
    { apply (since_last_reset_elem_of h).
      assert (u ∈ filter (ungrouped_grade h) (since_last_reset h es)) as H
        by (rewrite Hf; apply list_elem_of_here).
      by apply list_elem_of_filter in H as [_ ?]. }
    simpl in Hvp. apply Forall2_cons_inv_l in Hvp as (p & vp & Hp & _ & Hv).
    destruct es as [|e0 es']; [by apply elem_of_nil in Hin|].
    unfold percentage. rewrite Hopp, Hv. simpl.
    rewrite (Hstr e0 (list_elem_of_here _ _)). simpl. by rewrite Hp.
  - intros -> (aid0 & r0 & Hr0 & Hg0).
    assert (is_Some (d !! aid0)) as [r1 Hr1].
    { rewrite Hd. apply final_of_attempt_is_Some. by exists r0. }
    assert (r0 ∈ es) as Hin by (by apply (since_last_reset_elem_of h)).
    destruct (last (order d)) as [r|] eqn:Hlast.
    2:{ apply last_None in Hlast.
        assert (r1 ∈ order d) as Hin1
          by (apply elem_of_dict_values; by exists aid0).
        rewrite Hlast in Hin1. by apply elem_of_nil in Hin1. }
    assert (last (filter (ungrouped_grade h) (since_last_reset h es)
                  ++ (order d)) = Some r) as Hl
      by (by rewrite last_app, Hlast).
    destruct (Forall2_last _ _ _ r Hvp Hl) as (p & Hp & Hpr).
    apply last_Some_elem_of, elem_of_dict_values in Hlast as [aid Hm].
    exists aid, r. split; [by rewrite <- Hd|].
    destruct es as [|e0 es']; [by apply elem_of_nil in Hin|].
    unfold percentage. rewrite Hopp. simpl.
    destruct (valid_percentages _) as [|x rest]; [done|].
    rewrite (Hstr e0 (list_elem_of_here _ _)). simpl.
    rewrite last_cons_default in Hp. injection Hp as ->. by rewrite Hpr.
Qed.

Lemma earliest_and_latest_contribution_witness :
  percentage
    (self (consume gmap_order [0; 1] false
             (World __init__ (attempt_then_ungrouped "use_earliest"))).2)
  = Ok (Some 90%Q) ∧
  percentage
    (self (consume gmap_order [0; 1] false
             (World __init__ (attempt_then_ungrouped "use_latest"))).2)
  = Ok (Some 40%Q).
Proof.
  split.
  - apply (proj1 (earliest_and_latest_contribution gmap_order
                    (attempt_then_ungrouped "use_earliest") [0; 1] false
                    "use_earliest" eq_refl
                    ltac:(intros r Hr;
                          apply elem_of_cons in Hr as [->|Hr];
                          [|apply list_elem_of_singleton in Hr as ->];
                          reflexivity))
             eq_refl 1 eq_refl).
  - destruct (proj2 (earliest_and_latest_contribution gmap_order
                       (attempt_then_ungrouped "use_latest") [0; 1] false
                       "use_latest" eq_refl
                       ltac:(intros r Hr;
                             apply elem_of_cons in Hr as [->|Hr];
                             [|apply list_elem_of_singleton in Hr as ->];
                             reflexivity))
                eq_refl
                (ex_intro _ "A" (ex_intro _ 0 (conj (list_elem_of_here _ _)
                                                    (conj eq_refl eq_refl)))))
      as (aid & r & Hr & ->).
    apply final_of_attempt_Some in Hr as [[_ Ha] Hin].
    change (r ∈ [0; 1]) in Hin.
    apply elem_of_cons in Hin as [->|Hin]; [reflexivity|].
    apply list_elem_of_singleton in Hin as ->. discriminate Ha.
Defined.

(** * Properties of the other functions *)

(** ** The percentage of a flow session *)

(** X20: for a flow session and a grade change with the same points and
    maximum, [FlowSession.points_percentage] is
    [GradeChange.percentage], except when the maximum is zero: there the
    session's method returns [None] and the grade change's raises. *)
Theorem points_percentage_guards_zero (s : FlowSession.t) (g : GradeChange.t) :
  FlowSession.points s = GradeChange.points g →
  FlowSession.max_points s = GradeChange.max_points g →
  (¬ is_zero (FlowSession.max_points s) →
   FlowSession.points_percentage s = GradeChange.percentage g) ∧
  (is_zero (FlowSession.max_points s) →
   FlowSession.points_percentage s = Ok None ∧
   ∃ e, GradeChange.percentage g = Raise e).
Proof.
  intros Hp Hm. unfold FlowSession.points_percentage, GradeChange.percentage.
  rewrite <- Hp, <- Hm. split.
  - intros Hz. destruct (FlowSession.max_points s) as [mp|]; [|done].
    destruct (Qeq_bool mp 0) eqn:E; [|done].
    destruct Hz. exists mp. split; [done|]. by apply Qeq_bool_eq.
  - intros (mp & -> & Hz). rewrite (Qeq_eq_bool _ _ Hz). split; [done|].
    destruct (FlowSession.points s) as [p|]; [|by eexists].
    unfold Decimal.div. rewrite (Qeq_eq_bool _ _ Hz).
    destruct (Qeq_bool (Decimal.mul 100 p) 0); by eexists.
Qed.

Lemma points_percentage_guards_zero_witness :
  FlowSession.points_percentage session_without_maximum = Ok None ∧
  ∃ e, GradeChange.percentage
         (event (opportunity_1 "max_grade" None) "graded" None
            (Some 0%Q) (Some 0%Q) None 1) = Raise e.
Proof.
  apply (points_percentage_guards_zero session_without_maximum
           (event (opportunity_1 "max_grade" None) "graded" None
              (Some 0%Q) (Some 0%Q) None 1) eq_refl eq_refl).
  by exists 0%Q.
Defined.

(** ** The stipulations of an access exception *)

Lemma isinstance_int_float_spec (v : pyvalue) :
  isinstance_int_float v = true ↔ is_Some (as_int v) ∨ ∃ x, v = PyFloat x.
Proof.
  unfold isinstance_int_float, isinstance_int. split.
  - destruct v; intros H;
      first [left; by apply bool_decide_eq_true in H | right; by eexists].
  - intros [H|[x ->]]; [|done].
    destruct v; first [by apply bool_decide_eq_true | done].
Qed.

Lemma allowed_session_count_spec (v : pyvalue) :
  negb (isinstance_int v) || negative v = false ↔
  ∃ n, as_int v = Some n ∧ (0 ≤ n)%Z.
Proof.
  unfold isinstance_int, negative. split.
  - intros H. apply orb_false_elim in H as [H1 H2].
    apply negb_false_iff, bool_decide_eq_true in H1 as [n Hn].
    rewrite Hn in H2. apply bool_decide_eq_false in H2.
    exists n. split; [done|lia].
  - intros (n & Hn & Hpos). rewrite Hn.
    rewrite bool_decide_true by done. simpl.
    by rewrite bool_decide_false by lia.
Qed.

Lemma allowed_keys_spec (k : string) :
  k ∈ allowed_keys ↔ k = "credit_percent" ∨ k = "allowed_session_count".
Proof.
  unfold allowed_keys. rewrite elem_of_union, !elem_of_singleton. done.
Qed.

Lemma validate_dict (set_order : gset string → list string)
    (d : gmap string pyvalue) :
  validate_stipulations set_order (PyDict d) = Valid ↔
  ∀ k v, d !! k = Some v → stipulation k v.
Proof.
  unfold validate_stipulations, stipulation. split.
  - case_bool_decide as Hdom; simpl; [|done]. intros H k v Hk.
    assert (k ∈ allowed_keys) as Hin
      by (apply Hdom, elem_of_dom; by exists v).
    apply allowed_keys_spec in Hin as [-> | ->]; rewrite Hk in H.
    + left. split; [done|]. apply isinstance_int_float_spec.
      by destruct (isinstance_int_float v).
    + right. split; [done|]. apply allowed_session_count_spec.
      destruct (d !! "credit_percent") as [vc|];
        [destruct (negb (isinstance_int_float vc)); [done|]|];
        by destruct (negb (isinstance_int v) || negative v).
  - intros H.
    assert (dom d ⊆ allowed_keys) as Hdom.
    { intros k Hk. apply elem_of_dom in Hk as [v Hv].
      apply allowed_keys_spec. destruct (H k v Hv) as [[-> _]|[-> _]]; auto. }
    rewrite bool_decide_true by done. simpl.
    assert (match d !! "credit_percent" with
            | Some v => negb (isinstance_int_float v)
            | None => false
            end = false) as ->.
    { destruct (d !! "credit_percent") as [vc|] eqn:Hc; [|done].
      destruct (H _ _ Hc) as [[_ Hv]|[? _]]; [|done].
      apply negb_false_iff. by apply isinstance_int_float_spec. }
    assert (match d !! "allowed_session_count" with
            | Some v => negb (isinstance_int v) || negative v
            | None => false
            end = false) as ->; [|done].
    destruct (d !! "allowed_session_count") as [va|] eqn:Ha; [|done].
    destruct (H _ _ Ha) as [[? _]|[_ Hv]]; [done|].
    by apply allowed_session_count_spec.
Qed.

(** X21: [validate_stipulations] accepts [None] and the dictionaries
    whose every entry is a [credit_percent] that is an [int], a [bool] or
    a [float], or an [allowed_session_count] that is a [bool] or an [int]
    not below zero; it raises on everything else, a [long] included. *)
Theorem validate_stipulations_accepts (set_order : gset string → list string)
    (stip : pyvalue) :
  validate_stipulations set_order stip = Valid ↔
  stip = PyNone ∨
  ∃ d, stip = PyDict d ∧ ∀ k v, d !! k = Some v → stipulation k v.
Proof.
  split.
  - intros H. destruct stip; try done; [by left|].
    right. eexists. split; [done|]. by apply (validate_dict set_order).
  - intros [->|(d & -> & H)]; [done|]. by apply validate_dict.
Qed.

(** X22: if [validate_stipulations] accepts a dictionary, it accepts
    every dictionary made of some of its entries. *)
Theorem validate_stipulations_subdict (set_order : gset string → list string)
    (d d' : gmap string pyvalue) :
  d' ⊆ d →
  validate_stipulations set_order (PyDict d) = Valid →
  validate_stipulations set_order (PyDict d') = Valid.
Proof.
  intros Hsub H. apply validate_dict. intros k v Hk.
  apply (proj1 (validate_dict set_order d) H).
  by apply (lookup_weaken d' d).
Qed.

Lemma validate_stipulations_subdict_witness :
  validate_stipulations elements
    (PyDict {[ "allowed_session_count" := PyBool true ]}) = Valid.
Proof.
  apply (validate_stipulations_subdict elements
           {[ "allowed_session_count" := PyBool true;
              "credit_percent" := PyInt 50 ]}).
  - rewrite <- insert_empty. apply insert_mono, map_empty_subseteq.
  - reflexivity.
Defined.

(** ** The grading opportunity of a flow *)

Lemma filter_nil_length {A : Type} (P : A → Prop) `{∀ x, Decision (P x)}
    (l : list A) :
  length (filter P l) = 0 → filter P l = [].
Proof. by destruct (filter P l). Qed.

(** X23: once [get_flow_grading_opportunity] has returned a row for a
    flow of a course, every later call for that flow returns the same row
    and leaves the table as it is, whatever the flow description says by
    then. *)
Theorem get_flow_grading_opportunity_again (now now' : datetime)
    (new_pk new_pk' : Z) (c : Z) (f : string) (d d' : flow_desc.t)
    (table table' : list row) (gopp : row) :
  get_flow_grading_opportunity now new_pk c f d table = (Returns gopp, table') →
  get_flow_grading_opportunity now' new_pk' c f d' table'
  = (Returns gopp, table').
Proof.
  unfold get_flow_grading_opportunity. intros H.
  case_decide as Hlen.
  - case_decide as Hex; [done|]. injection H as <- <-.
    apply filter_nil_length in Hlen.
    match goal with |- context [table ++ [?g]] => set (new := g) end.
    assert (filter (of_flow c f) (table ++ [new]) = [new]) as ->; [|done].
    rewrite filter_app, Hlen, filter_cons, filter_nil.
    by rewrite decide_True.
  - destruct (filter (of_flow c f) table) as [|g [|g' l]] eqn:Hf; try done.
    injection H as <- <-. rewrite Hf. simpl. done.
Qed.

Lemma get_flow_grading_opportunity_again_witness :
  get_flow_grading_opportunity 9%Z 8 1 "quiz-1"
    (flow_desc.mk "Another title" "avg_grade") [quiz_1_row]
  = (Returns quiz_1_row, [quiz_1_row]).
Proof.
  apply (get_flow_grading_opportunity_again 5%Z 9%Z 7 8 1 "quiz-1" some_desc
           (flow_desc.mk "Another title" "avg_grade") [] [quiz_1_row] quiz_1_row).
  reflexivity.
Defined.

Lemma filter_length_snoc {A : Type} (P : A → Prop) `{∀ x, Decision (P x)}
    (l : list A) (x : A) :
  length (filter P (l ++ [x]))
  = length (filter P l) + (if decide (P x) then 1 else 0).
Proof.
  rewrite filter_app, length_app, filter_cons, filter_nil.
  by case_decide.
Qed.

Lemma Exists_filter_length {A : Type} (P : A → Prop) `{∀ x, Decision (P x)}
    (l : list A) :
  Exists P l ↔ length (filter P l) ≠ 0.
Proof.
  rewrite Exists_exists. split.
  - intros (x & Hx & HP) Hl. apply filter_nil_length in Hl.
    assert (x ∈ filter P l) as Hin by (by apply list_elem_of_filter).
    rewrite Hl in Hin. by apply elem_of_nil in Hin.
  - intros Hl. destruct (filter P l) as [|x l'] eqn:Hf; [done|].
    exists x. apply and_comm, (list_elem_of_filter P).
    rewrite Hf. apply list_elem_of_here.
Qed.

(** X24: on a table with at most one row per flow and no two rows of a
    course with the same identifier, [get_flow_grading_opportunity]
    leaves such a table, and it raises [IntegrityError] or returns a row
    of the table that is of the flow: the unpacking never fails. *)
Theorem get_flow_grading_opportunity_keeps_unique (now : datetime) (new_pk : Z)
    (c : Z) (f : string) (d : flow_desc.t) (table : list row) :
  one_row_per_flow table →
  unique_together table →
  one_row_per_flow (get_flow_grading_opportunity now new_pk c f d table).2 ∧
  unique_together (get_flow_grading_opportunity now new_pk c f d table).2 ∧
  ((get_flow_grading_opportunity now new_pk c f d table).1 = Raises IntegrityError ∨
   ∃ gopp, (get_flow_grading_opportunity now new_pk c f d table).1 = Returns gopp ∧
           gopp ∈ (get_flow_grading_opportunity now new_pk c f d table).2 ∧
           of_flow c f gopp).
Proof.
  intros Hone Huniq. unfold get_flow_grading_opportunity.
  case_decide as Hlen.
  - case_decide as Hex; simpl; [by auto|].
    split; [|split].
    + intros c' f'. rewrite filter_length_snoc. case_decide as Hof; [|by rewrite Nat.add_0_r].
      destruct Hof as [Hc Hf]. simpl in Hc, Hf. injection Hf as <-. subst c'.
      by rewrite Hlen.
    + intros c' i'. rewrite filter_length_snoc. case_decide as Hcl; [|by rewrite Nat.add_0_r].
      destruct Hcl as [Hc Hi]. simpl in Hc, Hi. subst c' i'.
      assert (length (filter (clashes c ("flow_" +:+ replace_char hyphen underscore f)) table) = 0)
        as ->; [|done].
      destruct (decide (length (filter (clashes c ("flow_" +:+ replace_char hyphen underscore f)) table) = 0))
        as [|Hne]; [done|].
      destruct Hex. apply (proj2 (Exists_filter_length _ table)). exact Hne.
    + right. eexists. split; [done|]. split; [|done].
      apply elem_of_app. right. apply list_elem_of_here.
  - pose proof (Hone c f) as H1.
    destruct (filter (of_flow c f) table) as [|g [|g' l]] eqn:Hf; simpl in *;
      [done| |lia].
    split; [done|]. split; [done|]. right. exists g. split; [done|].
    assert (g ∈ filter (of_flow c f) table) as Hin
      by (rewrite Hf; apply list_elem_of_here).
    by apply list_elem_of_filter in Hin as [? ?].
Qed.

(** On the table that holds the row of the flow "quiz-1": a call for the
    flow "quiz-2", which appends a row, a call for "quiz-1", which unpacks
    the row and returns it, and a call for "quiz_1", whose identifier is
    taken and which raises [IntegrityError]. *)
Lemma get_flow_grading_opportunity_keeps_unique_witness :
  (one_row_per_flow
     (get_flow_grading_opportunity 9%Z 8 1 "quiz-2" some_desc [quiz_1_row]).2 ∧
   unique_together
     (get_flow_grading_opportunity 9%Z 8 1 "quiz-2" some_desc [quiz_1_row]).2 ∧
   ((get_flow_grading_opportunity 9%Z 8 1 "quiz-2" some_desc [quiz_1_row]).1
    = Raises IntegrityError ∨
    ∃ gopp,
      (get_flow_grading_opportunity 9%Z 8 1 "quiz-2" some_desc [quiz_1_row]).1
      = Returns gopp ∧
      gopp ∈ (get_flow_grading_opportunity 9%Z 8 1 "quiz-2" some_desc
                [quiz_1_row]).2 ∧
      of_flow 1 "quiz-2" gopp)) ∧
  (one_row_per_flow
     (get_flow_grading_opportunity 9%Z 8 1 "quiz-1" some_desc [quiz_1_row]).2 ∧
   unique_together
     (get_flow_grading_opportunity 9%Z 8 1 "quiz-1" some_desc [quiz_1_row]).2 ∧
   ((get_flow_grading_opportunity 9%Z 8 1 "quiz-1" some_desc [quiz_1_row]).1
    = Raises IntegrityError ∨
    ∃ gopp,
      (get_flow_grading_opportunity 9%Z 8 1 "quiz-1" some_desc [quiz_1_row]).1
      = Returns gopp ∧
      gopp ∈ (get_flow_grading_opportunity 9%Z 8 1 "quiz-1" some_desc
                [quiz_1_row]).2 ∧
      of_flow 1 "quiz-1" gopp)) ∧
  (one_row_per_flow
     (get_flow_grading_opportunity 9%Z 8 1 "quiz_1" some_desc [quiz_1_row]).2 ∧
   unique_together
     (get_flow_grading_opportunity 9%Z 8 1 "quiz_1" some_desc [quiz_1_row]).2 ∧
   ((get_flow_grading_opportunity 9%Z 8 1 "quiz_1" some_desc [quiz_1_row]).1
    = Raises IntegrityError ∨
    ∃ gopp,
      (get_flow_grading_opportunity 9%Z 8 1 "quiz_1" some_desc [quiz_1_row]).1
      = Returns gopp ∧
      gopp ∈ (get_flow_grading_opportunity 9%Z 8 1 "quiz_1" some_desc
                [quiz_1_row]).2 ∧
      of_flow 1 "quiz_1" gopp)) ∧
  length (get_flow_grading_opportunity 9%Z 8 1 "quiz-2" some_desc
            [quiz_1_row]).2 = 2 ∧
  (get_flow_grading_opportunity 9%Z 8 1 "quiz-1" some_desc [quiz_1_row]).1
  = Returns quiz_1_row ∧
  (get_flow_grading_opportunity 9%Z 8 1 "quiz_1" some_desc [quiz_1_row]).1
  = Raises IntegrityError.
Proof.
  assert (one_row_per_flow [quiz_1_row]) as H1.
  { intros c f. rewrite filter_cons, filter_nil. case_decide; simpl; lia. }
  assert (unique_together [quiz_1_row]) as H2.
  { intros c i. rewrite filter_cons, filter_nil. case_decide; simpl; lia. }
  split; [|split; [|split; [|split; [|split]]]];
    [| | |reflexivity|reflexivity|reflexivity].
  - apply (get_flow_grading_opportunity_keeps_unique 9%Z 8 1 "quiz-2" some_desc
             [quiz_1_row] H1 H2).
  - apply (get_flow_grading_opportunity_keeps_unique 9%Z 8 1 "quiz-1" some_desc
             [quiz_1_row] H1 H2).
  - apply (get_flow_grading_opportunity_keeps_unique 9%Z 8 1 "quiz_1" some_desc
             [quiz_1_row] H1 H2).
Defined.

(** X25: two flows of a course whose ids differ only in hyphens against
    underscores get the same identifier: after the opportunity of the
    one is created, the call for the other raises [IntegrityError] and
    changes nothing. *)
Theorem flow_ids_clash (now now' : datetime) (new_pk new_pk' : Z) (c : Z)
    (f1 f2 : string) (d1 d2 : flow_desc.t) (table table' : list row)
    (gopp : row) :
  replace_char hyphen underscore f1 = replace_char hyphen underscore f2 →
  f1 ≠ f2 →
  filter (of_flow c f1) table = [] →
  filter (of_flow c f2) table = [] →
  get_flow_grading_opportunity now new_pk c f1 d1 table = (Returns gopp, table') →
  get_flow_grading_opportunity now' new_pk' c f2 d2 table'
  = (Raises IntegrityError, table').
Proof.
  intros Hrep Hne Hf1 Hf2. unfold get_flow_grading_opportunity.
  rewrite Hf1. simpl. case_decide as Hex; [done|]. intros [= <- <-].
  match goal with |- context [table ++ [?g]] => set (new := g) end.
  assert (filter (of_flow c f2) (table ++ [new]) = []) as ->.
  { rewrite filter_app, Hf2, filter_cons, filter_nil.
    rewrite decide_False; [done|]. intros [_ [= ->]]. done. }
  simpl. rewrite decide_True; [done|].
  apply Exists_app. right. apply Exists_cons_hd. split; simpl; [done|].
  by rewrite Hrep.
Qed.

Lemma flow_ids_clash_witness :
  get_flow_grading_opportunity 9%Z 8 1 "quiz_1" some_desc [quiz_1_row]
  = (Raises IntegrityError, [quiz_1_row]).
Proof.
  apply (flow_ids_clash 5%Z 9%Z 7 8 1 "quiz-1" "quiz_1" some_desc some_desc []
           [quiz_1_row] quiz_1_row);
    [reflexivity|discriminate|reflexivity|reflexivity|reflexivity].
Defined.

(** ** The stipulations that [save] fills in *)

Lemma is_None_spec (v : pyvalue) : is_None v = true ↔ v = PyNone.
Proof. by destruct v. Qed.

Lemma stipulations_of_lookup (rule : FlowAccessRule.t) (k : string) (v : pyvalue) :
  FlowAccessException.stipulations_of rule !! k = Some v ↔
  (k = "allowed_session_count" ∧ v = FlowAccessRule.allowed_session_count rule
   ∧ v ≠ PyNone) ∨
  (k = "credit_percent" ∧ v = FlowAccessRule.credit_percent rule ∧ v ≠ PyNone).
Proof.
  unfold FlowAccessException.stipulations_of.
  destruct (is_None (FlowAccessRule.allowed_session_count rule)) eqn:Ha,
           (is_None (FlowAccessRule.credit_percent rule)) eqn:Hc.
  all: try apply is_None_spec in Ha; try apply is_None_spec in Hc.
  all: try (assert (FlowAccessRule.allowed_session_count rule ≠ PyNone) as Ha'
              by (intros E; apply is_None_spec in E; congruence)).
  all: try (assert (FlowAccessRule.credit_percent rule ≠ PyNone) as Hc'
              by (intros E; apply is_None_spec in E; congruence)).
  - rewrite lookup_empty. split; [done|]. intros [(_ & -> & ?)|(_ & -> & ?)]; done.
  - rewrite lookup_insert_Some, lookup_empty. split.
    + intros [[<- <-]|[_ ?]]; [|done]. right. done.
    + intros [(_ & -> & ?)|(-> & -> & _)]; [done|]. by left.
  - rewrite lookup_insert_Some, lookup_empty. split.
    + intros [[<- <-]|[_ ?]]; [|done]. left. done.
    + intros [(-> & -> & _)|(_ & -> & ?)]; [|done]. by left.
  - rewrite !lookup_insert_Some, lookup_empty. split.
    + intros [[<- <-]|[_ [[<- <-]|[_ ?]]]]; [by right|by left|done].
    + intros [(-> & -> & _)|(-> & -> & _)]; [|by left].
      right. split; [done|]. by left.
Qed.

(** X26: when an exception without stipulations is saved and there is a
    rule, the stipulations that [save] fills in are a dictionary with
    allowed keys only; [validate_stipulations] accepts them exactly when
    the rule's session count is [None] or passes as
    [allowed_session_count] and its credit percentage is [None] or
    passes as [credit_percent]. Stipulations that are given are left as
    they are. *)
Theorem save_fills_stipulations (set_order : gset string → list string)
    (rule : FlowAccessRule.t) (rule2 : option FlowAccessRule.t)
    (self : FlowAccessException.t) :
  (FlowAccessException.stipulations self = PyNone →
   (∃ d, FlowAccessException.stipulations
           (FlowAccessException.save (Some rule) rule2 self) = PyDict d ∧
         dom d ⊆ allowed_keys) ∧
   (validate_stipulations set_order
      (FlowAccessException.stipulations
         (FlowAccessException.save (Some rule) rule2 self)) = Valid ↔
    (FlowAccessRule.allowed_session_count rule = PyNone ∨
     allowed_session_count_ok (FlowAccessRule.allowed_session_count rule)) ∧
    (FlowAccessRule.credit_percent rule = PyNone ∨
     credit_percent_ok (FlowAccessRule.credit_percent rule)))) ∧
  (FlowAccessException.stipulations self ≠ PyNone →
   FlowAccessException.stipulations
     (FlowAccessException.save (Some rule) rule2 self)
   = FlowAccessException.stipulations self).
Proof.
  assert (∀ s, FlowAccessException.stipulations
                 (FlowAccessException.save (Some rule) rule2 s)
               = if is_None (FlowAccessException.stipulations s)
                 then PyDict (FlowAccessException.stipulations_of rule)
                 else FlowAccessException.stipulations s) as Hsave.
  { intros s. unfold FlowAccessException.save.
    destruct (is_None (FlowAccessException.stipulations s)) eqn:E;
      simpl; case_decide; destruct rule2; simpl; by rewrite ?E. }
  rewrite Hsave. split.
  - intros ->. change (is_None PyNone) with true. cbv iota. split.
    + eexists. split; [done|]. intros k Hk.
      apply elem_of_dom in Hk as [v Hv]. apply stipulations_of_lookup in Hv.
      apply allowed_keys_spec. destruct Hv as [(-> & _)|(-> & _)]; auto.
    + rewrite validate_dict. unfold stipulation. split.
      * intros H. split.
        -- destruct (is_None (FlowAccessRule.allowed_session_count rule)) eqn:E;
             [left; by apply is_None_spec|right].
           assert (FlowAccessRule.allowed_session_count rule ≠ PyNone) as Hne
             by (intros E'; apply is_None_spec in E'; congruence).
           destruct (H "allowed_session_count"
                       (FlowAccessRule.allowed_session_count rule))
             as [[? _]|[_ ?]]; [|done|done].
           apply stipulations_of_lookup. by left.
        -- destruct (is_None (FlowAccessRule.credit_percent rule)) eqn:E;
             [left; by apply is_None_spec|right].
           assert (FlowAccessRule.credit_percent rule ≠ PyNone) as Hne
             by (intros E'; apply is_None_spec in E'; congruence).
           destruct (H "credit_percent" (FlowAccessRule.credit_percent rule))
             as [[_ ?]|[? _]]; [|done|done].
           apply stipulations_of_lookup. by right.
      * intros [Ha Hc] k v Hv. apply stipulations_of_lookup in Hv.
        destruct Hv as [(-> & -> & Hne)|(-> & -> & Hne)].
        -- right. split; [done|]. by destruct Ha.
        -- left. split; [done|]. by destruct Hc.
  - intros Hne. destruct (is_None _) eqn:E; [|done].
    by apply is_None_spec in E.
Qed.

Lemma save_fills_stipulations_witness :
  validate_stipulations elements
    (FlowAccessException.stipulations
       (FlowAccessException.save (Some some_rule) None bare_exception)) = Valid.
Proof.
  apply (proj2 (proj1 (save_fills_stipulations elements some_rule None
                         bare_exception) eq_refl)).
  split.
  - right. exists 3%Z. split; [reflexivity|lia].
  - by left.
Defined.

(** X27: saving an exception twice while [_get_current_access_rule]
    returns the same leaves what saving it once leaves: the stipulations
    are filled in once, and no entry is added to entries that are there. *)
Theorem save_again_changes_nothing (rule1 rule2 : option FlowAccessRule.t)
    (self : FlowAccessException.t) :
  FlowAccessException.save rule1 rule2
    (FlowAccessException.save rule1 rule2 self)
  = FlowAccessException.save rule1 rule2 self.
Proof.
  destruct self as [p f e s c ct cm en].
  destruct rule2 as [[perms a2 c2]|], rule1 as [r1|], en as [|x en];
    try destruct perms as [|y perms];
    unfold FlowAccessException.save; simpl;
    destruct (is_None s) eqn:Hs; simpl; rewrite ?Hs; simpl; rewrite ?Hs;
    reflexivity.
Qed.
